(** * Content moderation rules of the worker: a shallow embedding

    This development embeds the decision logic of
    [src/services/azureModerationService.js] (class
    [AzureModerationService]) together with the configuration constants of
    the [config] module, and proves properties of rule evaluation, of the
    score calculators and of the image and video entry points.  It then
    embeds the rest of the path of a request: [validateConfig],
    [src/services/fileService.js], [src/services/storageService.js], the
    four moderation handlers of [src/controllers/moderationController.js]
    and the status mapping of [src/middlewares/errorHandler.js], and
    proves properties of what a request does.

    Layout: JavaScript numbers and values, the data model, the
    configuration, the pure calculators and the rule engine, the gateway
    (circuit breaker and HTTP call) as a state-and-exception monad over an
    abstract upstream, the services and the controller as asynchronous
    code over abstract collaborators, then the theorems. *)

From Stdlib Require Import QArith Qabs Lqa ZArith List String Ascii Bool.
From Stdlib Require Import Lia.
From Stdlib Require Import Setoid Morphisms.
From Stdlib Require DecimalString.
Import ListNotations.
Open Scope string_scope.
Open Scope list_scope.

(** ** JavaScript numbers

    A JavaScript number is modelled as an exact rational, one of the two
    infinities, or NaN.  Rounding of IEEE doubles, overflow and the sign
    of zero are not modelled: arithmetic on finite numbers is exact.
    Theorems about sums and quotients are therefore stated for integer
    severities whose sum a double holds exactly ([exactly_summable]),
    and up to the rounding of one division ([rounded]). *)

Inductive num : Type :=
| Fin (q : Q)
| PInf
| NInf
| NaN.

Definition isNaN (a : num) : bool :=
  match a with NaN => true | _ => false end.

(** [a + b] *)
Definition num_add (a b : num) : num :=
  match a, b with
  | NaN, _ | _, NaN => NaN
  | Fin x, Fin y => Fin (x + y)
  | PInf, NInf | NInf, PInf => NaN
  | PInf, _ | _, PInf => PInf
  | NInf, _ | _, NInf => NInf
  end.

(** [a >= b]: false as soon as one operand is NaN. *)
Definition num_ge (a b : num) : bool :=
  match a, b with
  | NaN, _ | _, NaN => false
  | PInf, _ => true
  | _, NInf => true
  | Fin x, Fin y => Qle_bool y x
  | Fin _, PInf => false
  | NInf, _ => false
  end.

(** [a > b] *)
Definition num_gt (a b : num) : bool :=
  match a, b with
  | NaN, _ | _, NaN => false
  | PInf, PInf => false
  | PInf, _ => true
  | NInf, _ => false
  | Fin _, NInf => true
  | Fin x, Fin y => negb (Qle_bool x y)
  | Fin _, PInf => false
  end.

(** [Math.max(a, b)]: NaN as soon as one argument is NaN. *)
Definition Math_max (a b : num) : num :=
  match a, b with
  | NaN, _ | _, NaN => NaN
  | _, _ => if num_ge a b then a else b
  end.

Definition Qsign_inf (q : Q) (pos : bool) : num :=
  if Qle_bool 0 q then (if pos then PInf else NInf)
  else (if pos then NInf else PInf).

(** [a / b] *)
Definition num_div (a b : num) : num :=
  match a, b with
  | NaN, _ | _, NaN => NaN
  | Fin x, Fin y =>
      if Qeq_bool y 0 then
        (if Qeq_bool x 0 then NaN
         else if Qle_bool 0 x then PInf else NInf)
      else Fin (x / y)
  | Fin _, PInf | Fin _, NInf => Fin 0
  | PInf, Fin y => Qsign_inf y true
  | NInf, Fin y => Qsign_inf y false
  | _, _ => NaN
  end.

(** Equality of numbers up to the representation of rationals. *)
Definition num_eq (a b : num) : Prop :=
  match a, b with
  | Fin x, Fin y => x == y
  | PInf, PInf | NInf, NInf | NaN, NaN => True
  | _, _ => False
  end.

Definition num_of_nat (n : nat) : num := Fin (inject_Z (Z.of_nat n)).

(** ** JavaScript values found in a [severity] field

    Besides numbers: [undefined] (the field is missing), [null], booleans,
    and any other value (a string, an object, an array), which the program
    observes only through [typeof], [ToBoolean] (the [||] operator) and
    [ToNumber] (the operators [>=] and [Math.max]); such a value is
    represented by these two conversions. *)

Inductive value : Type :=
| VNumber (n : num)
| VUndefined
| VNull
| VBoolean (b : bool)
| VOther (truthy : bool) (numeric : num).

Definition typeof_number (v : value) : bool :=
  match v with VNumber _ => true | _ => false end.

Definition ToBoolean (v : value) : bool :=
  match v with
  | VNumber (Fin q) => negb (Qeq_bool q 0)
  | VNumber NaN => false
  | VNumber _ => true
  | VUndefined | VNull => false
  | VBoolean b => b
  | VOther t _ => t
  end.

Definition ToNumber (v : value) : num :=
  match v with
  | VNumber n => n
  | VUndefined => NaN
  | VNull => Fin 0
  | VBoolean b => if b then Fin 1 else Fin 0
  | VOther _ n => n
  end.

(** [v >= t] for a number [t] *)
Definition js_ge (v : value) (t : num) : bool := num_ge (ToNumber v) t.

(** [v || 0] *)
Definition or_zero (v : value) : value :=
  if ToBoolean v then v else VNumber (Fin 0).

(** ** Strings built by the program

    A plain literal, or a template literal with one interpolated number. *)

Inductive text : Type :=
| Str (s : string)
| Tpl (before : string) (x : num) (after : string).

Definition text_truthy (t : text) : bool :=
  match t with
  | Str s => negb (s =? "")
  | Tpl b _ a => true
  end.

(** ** Data model *)

Record entry : Type := mkEntry {
  category : string;
  severity : value
}.

Record Thresholds : Type := mkThresholds {
  violence : num;
  weapons : num;
  hate : num;
  selfHarm : num;
  sexual : num;
  child : num
}.

Record Rules : Type := mkRules {
  childWithViolence : bool;
  childWithHate : bool;
  sexualWithChild : bool;
  weaponBonus : num;
  violenceBonus : num
}.

(** [config.moderation.thresholds] and [config.moderation.rules] *)
Definition config_thresholds : Thresholds :=
  {| violence := Fin 1; weapons := Fin 1; hate := Fin 1;
     selfHarm := Fin 1; sexual := Fin 3; child := Fin 1 |}.

Definition config_rules : Rules :=
  {| childWithViolence := true; childWithHate := true;
     sexualWithChild := true;
     weaponBonus := Fin (1 # 2); violenceBonus := Fin (1 # 2) |}.

(** The service object: [this.thresholds] and [this.rules], set by the
    constructor from the configuration. *)
Record service : Type := mkService {
  this_thresholds : Thresholds;
  this_rules : Rules
}.

Definition configured_service : service :=
  {| this_thresholds := config_thresholds; this_rules := config_rules |}.

(** RuleOutcome: [{ rejected, reason }], [reason] being [null] or a string. *)
Record outcome : Type := mkOutcome {
  rejected : bool;
  reason : option text
}.

(** One element of the [rules] array of [_applyModerationRules]. *)
Module Rule.
Record t : Type := mk {
  condition : unit -> bool;
  reason : text
}.
End Rule.

(** ClassificationVerdict: [{ verdict, categories, rejectionReason,
    ai_score }].  [rejectionReason] is [None] when the field is [null] or
    missing: the accepted result of [_callAzureAPI] carries [null], the
    accepted verdict of a video has no such key, and the record does not
    tell them apart. *)
Record result : Type := mkResult {
  verdict : string;
  categories : list entry;
  rejectionReason : option text;
  ai_score : num
}.

(** ** Score calculators *)

Record scores : Type := mkScores {
  weaponScore : num;
  violenceScore : num
}.

(** Body of the [for (const cat of categories)] loop of
    [_detectWeaponsAndViolence]: four consecutive [if] statements. *)
Definition detect_step (s : scores) (cat : entry) : scores :=
  let s1 :=
    if category cat =? "Violence" then
      {| weaponScore := weaponScore s;
         violenceScore :=
           Math_max (violenceScore s) (ToNumber (or_zero (severity cat))) |}
    else s in
  let s2 :=
    if (category cat =? "Hate") && js_ge (severity cat) (Fin 1) then
      {| weaponScore :=
           Math_max (weaponScore s1) (ToNumber (or_zero (severity cat)));
         violenceScore := violenceScore s1 |}
    else s1 in
  let s3 :=
    if (category cat =? "SelfHarm") && js_ge (severity cat) (Fin 1) then
      {| weaponScore :=
           Math_max (weaponScore s2) (ToNumber (or_zero (severity cat)));
         violenceScore := violenceScore s2 |}
    else s2 in
  if (category cat =? "Sexual") && js_ge (severity cat) (Fin 3) then
    {| weaponScore := weaponScore s3;
       violenceScore := Math_max (violenceScore s3) (Fin 1) |}
  else s3.

(** [if (score > 0) score += bonus] *)
Definition add_bonus (bonus score : num) : num :=
  if num_gt score (Fin 0) then num_add score bonus else score.

Definition _detectWeaponsAndViolence (this : service) (categories : list entry)
  : scores :=
  let s := fold_left detect_step categories
             {| weaponScore := Fin 0; violenceScore := Fin 0 |} in
  let violenceScore' :=
    add_bonus (violenceBonus (this_rules this)) (violenceScore s) in
  let weaponScore' :=
    add_bonus (weaponBonus (this_rules this)) (weaponScore s) in
  {| weaponScore := weaponScore'; violenceScore := violenceScore' |}.

(** [typeof c.severity === 'number' ? c.severity : 0] *)
Definition numeric_severity (c : entry) : num :=
  if typeof_number (severity c) then ToNumber (severity c) else Fin 0.

Definition _calculateAIScore (categories : list entry) : num :=
  if (List.length categories =? 0)%nat then Fin 0
  else
    let sum :=
      fold_left (fun acc c => num_add acc (numeric_severity c))
        categories (Fin 0) in
    let mean := num_div sum (num_of_nat (List.length categories)) in
    if negb (isNaN mean) then mean else Fin 0.

(** ** Rule evaluation *)

(** [categories.some(c => c.category === name && c.severity >= t)] *)
Definition some_at_least (categories : list entry) (name : string) (t : num)
  : bool :=
  existsb (fun c => (category c =? name) && js_ge (severity c) t) categories.

Definition REASON_CHILD : text :=
  Str "🚨 ENFANT DÉTECTÉ - INTERDIT ABSOLU sur plateforme adulte".
Definition REASON_VIOLENCE (violenceScore : num) : text :=
  Tpl "🔫 Violence détectée (score: " violenceScore
      ") - Seuil très bas pour plateforme adulte".
Definition REASON_WEAPONS (weaponScore : num) : text :=
  Tpl "🚫 Arme/symbole violent détecté (score: " weaponScore ") - Interdit".
Definition REASON_HATE : text :=
  Str "🚫 Contenu haineux détecté - Interdit".
Definition REASON_SELF_HARM : text :=
  Str "🚫 Contenu d'automutilation/suicide détecté - Interdit".
Definition REASON_SEXUAL : text :=
  Str "🔞 Contenu sexuel trop explicite - Interdit".
Definition REASON_CHILD_WITH_VIOLENCE : text :=
  Str "🚨 Enfant avec violence/armes - REJET IMMÉDIAT".
Definition REASON_CHILD_WITH_HATE : text :=
  Str "🚨 Enfant avec contenu haineux - REJET IMMÉDIAT".
Definition REASON_SEXUAL_WITH_CHILD : text :=
  Str "🚨 Contenu sexuel avec enfant - REJET IMMÉDIAT".

(** The six baseline rules, in the order of the array literal. *)
Definition baseline_rules (th : Thresholds) (categories : list entry)
  (weaponScore violenceScore : num) : list Rule.t :=
  [ Rule.mk (fun _ => some_at_least categories "Child" (child th))
      REASON_CHILD;
    Rule.mk (fun _ => num_ge violenceScore (violence th))
      (REASON_VIOLENCE violenceScore);
    Rule.mk (fun _ => num_ge weaponScore (weapons th))
      (REASON_WEAPONS weaponScore);
    Rule.mk (fun _ => some_at_least categories "Hate" (hate th))
      REASON_HATE;
    Rule.mk (fun _ => some_at_least categories "SelfHarm" (selfHarm th))
      REASON_SELF_HARM;
    Rule.mk (fun _ => some_at_least categories "Sexual" (sexual th))
      REASON_SEXUAL ].

Definition rule_childWithViolence (th : Thresholds) (categories : list entry)
  (weaponScore violenceScore : num) : Rule.t :=
  Rule.mk
    (fun _ => some_at_least categories "Child" (child th)
              && (num_ge violenceScore (violence th)
                  || num_ge weaponScore (weapons th)))
    REASON_CHILD_WITH_VIOLENCE.

Definition rule_childWithHate (th : Thresholds) (categories : list entry)
  : Rule.t :=
  Rule.mk
    (fun _ => some_at_least categories "Child" (child th)
              && some_at_least categories "Hate" (hate th))
    REASON_CHILD_WITH_HATE.

Definition rule_sexualWithChild (th : Thresholds) (categories : list entry)
  : Rule.t :=
  Rule.mk
    (fun _ => some_at_least categories "Sexual" (Fin 2)
              && some_at_least categories "Child" (child th))
    REASON_SEXUAL_WITH_CHILD.

(** [if (flag) rules.push(rule)] *)
Definition push_if (flag : bool) (rule : Rule.t) (rules : list Rule.t)
  : list Rule.t :=
  if flag then rules ++ [rule] else rules.

(** The [rules] array once the three conditional [push] calls have run. *)
Definition rule_list (this : service) (categories : list entry)
  (weaponScore violenceScore : num) : list Rule.t :=
  let th := this_thresholds this in
  let rules := baseline_rules th categories weaponScore violenceScore in
  let rules :=
    push_if (childWithViolence (this_rules this))
      (rule_childWithViolence th categories weaponScore violenceScore) rules in
  let rules :=
    push_if (childWithHate (this_rules this))
      (rule_childWithHate th categories) rules in
  push_if (sexualWithChild (this_rules this))
    (rule_sexualWithChild th categories) rules.

(** [for (const rule of rules) if (rule.condition()) return ...] *)
Fixpoint first_match (rules : list Rule.t) : outcome :=
  match rules with
  | [] => {| rejected := false; reason := None |}
  | rule :: rest =>
      if Rule.condition rule tt
      then {| rejected := true; reason := Some (Rule.reason rule) |}
      else first_match rest
  end.

Definition _applyModerationRules (this : service) (categories : list entry)
  : outcome :=
  let s := _detectWeaponsAndViolence this categories in
  first_match (rule_list this categories (weaponScore s) (violenceScore s)).

(** ** The gateway: circuit breaker, HTTP call, entry points *)

Definition buffer : Type := list Byte.byte.

(** What an [await] may throw: the breaker's errors when it is open or
    when its timeout expires, the error of [axios] (transport failure or a
    status of 500 and more), the [Error] thrown on a status other than 200,
    and the [TypeError] of a property or method that is missing. *)
Inductive error : Type :=
| EOPENBREAKER
| ETIMEDOUT
| AxiosError
| AzureAPIError (status : Z) (statusText : string)
| TypeError.

(** [response.data], by what [result.categoriesAnalysis || []] and the
    code that follows make of it.  The elements of the array are objects. *)
Inductive body : Type :=
| BodyNullish           (* [null] or [undefined]: reading the field throws *)
| BodyWithoutAnalysis   (* field missing or falsy: [[]] is used *)
| BodyAnalysisNotArray  (* truthy, not an array: iterating or [.some] throws *)
| BodyAnalysis (categoriesAnalysis : list entry).

(** What the network gives to [axios.post]. *)
Inductive http : Type :=
| NoResponse
| Response (status : Z) (statusText : string) (data : body).

(** What happens to one [circuitBreaker.fire]: refused by an open breaker
    (the action is not called), cut by the breaker's timeout, or run to
    completion of the HTTP exchange. *)
Inductive upstream : Type :=
| CircuitOpen
| TimedOut
| Completed (h : http).

Inductive completion (A : Type) : Type :=
| Returned (a : A)
| Thrown (e : error).
Arguments Returned {A} a.
Arguments Thrown {A} e.

Definition DEFAULT_VIDEO_REASON : text :=
  Str "Contenu inapproprié détecté dans les frames vidéo".
Definition FALLBACK_REASON : text :=
  Str
    "Service de modération temporairement indisponible - Rejet par sécurité".

(** [reason || fallback] on a string that may be [null] or missing *)
Definition reason_or (r : option text) (fallback : text) : text :=
  match r with
  | Some t => if text_truthy t then t else fallback
  | None => fallback
  end.

Definition _calculateVideoVerdict (results : list result) : completion result :=
  let allCategories := flat_map categories results in
  let allAccepted := forallb (fun r => verdict r =? "accepted") results in
  let anyRejected := existsb (fun r => verdict r =? "rejected") results in
  if anyRejected then
    match find (fun r => verdict r =? "rejected") results with
    | Some rejectedResult =>
        Returned
          {| verdict := "rejected";
             rejectionReason :=
               Some (reason_or (rejectionReason rejectedResult)
                       DEFAULT_VIDEO_REASON);
             categories := allCategories;
             ai_score := _calculateAIScore allCategories |}
    | None => Thrown TypeError
    end
  else
    Returned
      {| verdict := "accepted";
         categories := allCategories;
         rejectionReason := None;
         ai_score := _calculateAIScore allCategories |}.

Definition _fallbackModeration (e : error) : result :=
  {| verdict := "rejected";
     rejectionReason := Some FALLBACK_REASON;
     categories := [];
     ai_score := Fin 0 |}.

(** [axios.post] with [validateStatus: status => status < 500] *)
Definition axios_post (h : http) : completion (Z * string * body) :=
  match h with
  | NoResponse => Thrown AxiosError
  | Response status statusText data =>
      if (status <? 500)%Z then Returned (status, statusText, data)
      else Thrown AxiosError
  end.

(** The object that [_callAzureAPI] returns for the categories read from
    the response. *)
Definition classification (this : service) (categories : list entry)
  : result :=
  let moderationResult := _applyModerationRules this categories in
  {| verdict := if rejected moderationResult then "rejected" else "accepted";
     categories := categories;
     rejectionReason := reason moderationResult;
     ai_score := _calculateAIScore categories |}.

(** [_callAzureAPI], given what the network answers to its request. *)
Definition _callAzureAPI (this : service) (h : http) : completion result :=
  match axios_post h with
  | Thrown e => Thrown e
  | Returned (status, statusText, data) =>
      if negb (status =? 200)%Z then Thrown (AzureAPIError status statusText)
      else
        match data with
        | BodyNullish => Thrown TypeError
        | BodyWithoutAnalysis => Returned (classification this [])
        | BodyAnalysisNotArray => Thrown TypeError
        | BodyAnalysis categoriesAnalysis =>
            Returned (classification this categoriesAnalysis)
        end
  end.

Section Gateway.

(** The upstream (breaker state, network, classifier) is an arbitrary
    state machine: one step answers one [fire]. *)
Variable world : Type.
Variable upstream_step : buffer -> world -> upstream * world.
Variable this : service.

(** State threaded through the asynchronous code: the upstream, and the
    buffers submitted to the classifier so far. *)
Record state : Type := mkState {
  the_world : world;
  calls : list buffer
}.

Definition M (A : Type) : Type := state -> completion A * state.

Definition ret {A} (a : A) : M A := fun s => (Returned a, s).

Definition bind {A B} (c : M A) (k : A -> M B) : M B :=
  fun s =>
    match c s with
    | (Returned a, s') => k a s'
    | (Thrown e, s') => (Thrown e, s')
    end.

Definition lift {A} (c : completion A) : M A := fun s => (c, s).

(** [try { c } catch (error) { handler(error) }] *)
Definition try_catch {A} (c : M A) (handler : error -> M A) : M A :=
  fun s =>
    match c s with
    | (Returned a, s') => (Returned a, s')
    | (Thrown e, s') => handler e s'
    end.

(** [this.circuitBreaker.fire(buffer)], the action being [_callAzureAPI] *)
Definition fire (b : buffer) : M result :=
  fun s =>
    let (u, w) := upstream_step b (the_world s) in
    match u with
    | CircuitOpen =>
        (Thrown EOPENBREAKER, {| the_world := w; calls := calls s |})
    | TimedOut =>
        (Thrown ETIMEDOUT, {| the_world := w; calls := calls s ++ [b] |})
    | Completed h =>
        (_callAzureAPI this h,
         {| the_world := w; calls := calls s ++ [b] |})
    end.

Definition moderateImage (b : buffer) : M result :=
  try_catch
    (bind (fire b) (fun result => ret result))
    (fun error => ret (_fallbackModeration error)).

(** The [for] loop of [moderateVideo], from index [i] on: [thumbnails]
    are the frames not yet submitted. *)
Fixpoint frames_loop (thumbnails : list buffer) (results : list result)
  : M (list result) :=
  match thumbnails with
  | [] => ret results
  | thumbnail :: rest =>
      bind (fire thumbnail) (fun result =>
        let results := results ++ [result] in
        if verdict result =? "rejected" then ret results
        else frames_loop rest results)
  end.

Definition moderateVideo (thumbnails : list buffer) : M result :=
  try_catch
    (bind (frames_loop thumbnails []) (fun results =>
       bind (lift (_calculateVideoVerdict results)) (fun globalResult =>
         ret globalResult)))
    (fun error => ret (_fallbackModeration error)).

(** The frames of [thumbnails], fired in order from state [s], all come
    back with the verdict 'accepted'; [results] are their results and
    [s'] is the state after the last one. *)
Inductive accepted_run
  : list buffer -> state -> list result -> state -> Prop :=
| accepted_run_nil s : accepted_run [] s [] s
| accepted_run_cons b thumbnails s r s1 results s2 :
    fire b s = (Returned r, s1) ->
    verdict r = "accepted" ->
    accepted_run thumbnails s1 results s2 ->
    accepted_run (b :: thumbnails) s (r :: results) s2.

End Gateway.

Arguments mkState {world} _ _.
Arguments the_world {world} _.
Arguments calls {world} _.
Arguments ret {world A} a s.
Arguments bind {world A B} c k s.
Arguments lift {world A} c s.
Arguments try_catch {world A} c handler s.
Arguments fire {world} upstream_step this b s.
Arguments moderateImage {world} upstream_step this b s.
Arguments frames_loop {world} upstream_step this thumbnails results s.
Arguments moderateVideo {world} upstream_step this thumbnails s.
Arguments accepted_run {world} upstream_step this _ _ _ _.

(** ** Vocabulary of the statements *)

(** The list has an entry of category [name] whose severity is at least
    [t] (in the sense of JavaScript's [>=]). *)
Definition has_entry (categories : list entry) (name : string) (t : num)
  : Prop :=
  exists c, In c categories /\ category c = name
            /\ js_ge (severity c) t = true.

(** An entry meets the threshold configured for its own category, for the
    four categories whose baseline rule reads the entries. *)
Definition entry_meets_own_threshold (th : Thresholds) (c : entry) : Prop :=
  (category c = "Child" /\ js_ge (severity c) (child th) = true)
  \/ (category c = "Hate" /\ js_ge (severity c) (hate th) = true)
  \/ (category c = "SelfHarm" /\ js_ge (severity c) (selfHarm th) = true)
  \/ (category c = "Sexual" /\ js_ge (severity c) (sexual th) = true).

(** The boosted scores reach the thresholds of the Violence and Weapons
    baseline rules. *)
Definition boosted_score_meets_threshold (this : service)
  (categories : list entry) : Prop :=
  let s := _detectWeaponsAndViolence this categories in
  num_ge (violenceScore s) (violence (this_thresholds this)) = true
  \/ num_ge (weaponScore s) (weapons (this_thresholds this)) = true.

(** An enabled compound rule has its condition satisfied. *)
Definition compound_rule_satisfied (this : service) (categories : list entry)
  : Prop :=
  let th := this_thresholds this in
  (childWithViolence (this_rules this) = true
   /\ has_entry categories "Child" (child th)
   /\ boosted_score_meets_threshold this categories)
  \/ (childWithHate (this_rules this) = true
      /\ has_entry categories "Child" (child th)
      /\ has_entry categories "Hate" (hate th))
  \/ (sexualWithChild (this_rules this) = true
      /\ has_entry categories "Sexual" (Fin 2)
      /\ has_entry categories "Child" (child th)).

(** Entries with a plain numeric severity, as the classifier reports them. *)
Definition scored (name : string) (q : Q) : entry :=
  {| category := name; severity := VNumber (Fin q) |}.

(** *** Scores *)

(** What an entry contributes to a maximum: [cat.severity || 0] as a
    number. *)
Definition severity_or_zero (c : entry) : num :=
  ToNumber (or_zero (severity c)).

(** The maximum severity among the entries of a list, 0 for the empty
    list (and never below 0). *)
Definition max_severity (l : list entry) : num :=
  fold_right (fun c m => Math_max (severity_or_zero c) m) (Fin 0) l.

Definition is_violence (c : entry) : bool := category c =? "Violence".

Definition is_weapon_proxy (c : entry) : bool :=
  ((category c =? "Hate") || (category c =? "SelfHarm"))
  && js_ge (severity c) (Fin 1).

Definition is_explicit_sexual (c : entry) : bool :=
  (category c =? "Sexual") && js_ge (severity c) (Fin 3).

(** 1 if some Sexual entry has severity 3 or more, else 0. *)
Definition sexual_floor (l : list entry) : num :=
  if existsb is_explicit_sexual l then Fin 1 else Fin 0.

(** The bonus is added to a score that is not zero. *)
Definition bonus_when_nonzero (bonus score : num) : num :=
  match score with
  | Fin q => if Qeq_bool q 0 then score else num_add score bonus
  | _ => num_add score bonus
  end.

(** [violenceScore] as the specification words it: the maximum severity
    among Violence entries, plus 1 if some Sexual entry has severity 3 or
    more, then the bonus. *)
Definition violenceScore_plus_one (this : service) (categories : list entry)
  : num :=
  bonus_when_nonzero (violenceBonus (this_rules this))
    (num_add (max_severity (filter is_violence categories))
       (sexual_floor categories)).

(** The arithmetic mean of a list of integers, as a rational. *)
Definition Zmean (zs : list Z) : Q :=
  inject_Z (fold_right Z.add 0%Z zs) / inject_Z (Z.of_nat (List.length zs)).

(** What an entry contributes to the mean when its severity is an
    integer, as the severities of the classifier are: the integer, and 0
    when the severity is not a number. *)
Definition contributes_integer (c : entry) (z : Z) : Prop :=
  match severity c with
  | VNumber (Fin x) => x == inject_Z z
  | VNumber _ => False
  | _ => z = 0%Z
  end.

(** Integers that the program adds without rounding, in whatever order:
    the sum of their magnitudes is at most 2^53, so that every partial
    sum is a double; and a number of them that an array can hold. *)
Definition exactly_summable (zs : list Z) : Prop :=
  (fold_right (fun z acc => Z.abs z + acc) 0 zs <= 2 ^ 53)%Z
  /\ (Z.of_nat (List.length zs) < 2 ^ 32)%Z.

(** A finite IEEE 754 double: [m * 2^e] with [|m| < 2^53] and
    [-1074 <= e <= 971]. *)
Definition is_double (x : Q) : Prop :=
  exists m e : Z,
    (Z.abs m < 2 ^ 53)%Z /\ (-1074 <= e <= 971)%Z
    /\ x == inject_Z m * Qpower 2 e.

(** The unit roundoff of doubles, [2^-53]. *)
Definition unit_roundoff : Q := 1 # (2 ^ 53)%positive.

(** [y] is [x] up to the rounding of one operation on doubles: within
    the unit roundoff of [x], and [x] itself when [x] is a double. *)
Definition rounded (x y : Q) : Prop :=
  Qabs (y - x) <= unit_roundoff * Qabs x /\ (is_double x -> y == x).

(** What an entry contributes to the mean: its severity when that is a
    finite number, 0 when it is not a number. *)
Definition contributes (c : entry) (q : Q) : Prop :=
  match severity c with
  | VNumber (Fin x) => q = x
  | VNumber _ => False
  | _ => q = 0
  end.

(** The severity is not a negative number. *)
Definition no_negative_severity (c : entry) : Prop :=
  match severity c with
  | VNumber (Fin q) => 0 <= q
  | VNumber NInf => False
  | _ => True
  end.

Definition not_negative (a : num) : Prop :=
  match a with
  | Fin q => 0 <= q
  | NInf => False
  | _ => True
  end.

(** The [reduce] of [_calculateAIScore], from any start value. *)
Definition severity_sum (categories : list entry) (start : num) : num :=
  fold_left (fun acc c => num_add acc (numeric_severity c)) categories start.

(** [a] is unchanged by [Math.max(a, 0)]. *)
Definition absorbs_zero (a : num) : Prop := num_eq (Math_max a (Fin 0)) a.

(** The average of the per-frame scores (what the video score is not). *)
Definition mean_of_frame_scores (results : list result) : num :=
  num_div (fold_left num_add (map ai_score results) (Fin 0))
    (num_of_nat (List.length results)).

(** *** Gateway *)

(** The reasons for which one [fire] fails: breaker open, timeout, no
    response or a status of 500 and more, a status other than 200, a body
    from which the categories cannot be read. *)
Definition upstream_fails (u : upstream) : bool :=
  match u with
  | CircuitOpen | TimedOut => true
  | Completed NoResponse => true
  | Completed (Response status _ data) =>
      negb (status =? 200)%Z
      || match data with
         | BodyNullish | BodyAnalysisNotArray => true
         | _ => false
         end
  end.

(** An upstream for the examples: the world counts the answers given; an
    empty buffer finds the breaker open, any other image is classified
    Sexual with its first byte as severity. *)
Definition example_upstream (b : buffer) (w : nat) : upstream * nat :=
  match b with
  | [] => (CircuitOpen, S w)
  | x :: _ =>
      (Completed
         (Response 200 "OK"
            (BodyAnalysis
               [scored "Sexual" (inject_Z (Z.of_N (Byte.to_N x)))])),
       S w)
  end.

Definition frame (x : Byte.byte) : buffer := [x].

(** An upstream that answers every image with status 200 and a body
    without [categoriesAnalysis]. *)
Definition upstream_without_analysis (b : buffer) (w : nat)
  : upstream * nat :=
  (Completed (Response 200 "OK" BodyWithoutAnalysis), S w).

(** Two accepted frames whose scores are 2 and 0. *)
Definition example_frames : list result :=
  [ classification configured_service [scored "Sexual" 2];
    classification configured_service
      [scored "Sexual" 0; scored "Hate" 0; scored "Violence" 0] ].

(** A result of [_callAzureAPI] is accepted without a reason, or rejected
    with a reason that is not the empty string. *)
Definition well_formed (r : result) : Prop :=
  (verdict r = "accepted" /\ rejectionReason r = None)
  \/ (verdict r = "rejected"
      /\ exists t, rejectionReason r = Some t /\ text_truthy t = true).

Definition fresh : state nat := {| the_world := 0%nat; calls := [] |}.

(** *** Further vocabulary *)

(** The severity is a JavaScript number, as the classifier interface
    types it. *)
Definition numeric_entry (c : entry) : Prop :=
  typeof_number (severity c) = true.

(** A bonus that does not lower a score: a rational that is 0 or more, or
    plus infinity. *)
Definition bonus_not_negative (b : num) : Prop :=
  match b with
  | Fin q => 0 <= q
  | PInf => True
  | _ => False
  end.

(** The outcome reports one of the first three baseline reasons, or none. *)
Definition child_violence_or_weapons (this : service)
  (categories : list entry) (r : option text) : Prop :=
  let s := _detectWeaponsAndViolence this categories in
  r = None
  \/ r = Some REASON_CHILD
  \/ r = Some (REASON_VIOLENCE (violenceScore s))
  \/ r = Some (REASON_WEAPONS (weaponScore s)).

(** The severity is not an infinite number and not NaN. *)
Definition finite_severity (c : entry) : Prop :=
  match severity c with
  | VNumber (Fin _) => True
  | VNumber _ => False
  | _ => True
  end.

(** The rational that a finite number holds (0 for the others). *)
Definition finite_part (a : num) : Q :=
  match a with Fin q => q | _ => 0 end.

Definition Qlength {A} (l : list A) : Q := inject_Z (Z.of_nat (List.length l)).

(** The sum of the frames' scores, each weighted by the number of entries
    of its frame. *)
Definition weighted_scores (frames : list (list entry)) : Q :=
  fold_right
    (fun frame acc => finite_part (_calculateAIScore frame) * Qlength frame
                      + acc)
    0 frames.

(** What every result returned by the entry points satisfies: accepted
    without a reason or rejected with a non-empty one, and a score that is
    the score of its categories. *)
Definition sound_result (r : result) : Prop :=
  well_formed r /\ ai_score r = _calculateAIScore (categories r).

Definition is_rejected (r : result) : Prop := verdict r = "rejected".

(** ** The diagnostic entry point [testModerationRules] *)

Module Report.
Record t : Type := mk {
  testCategories : list entry;
  weaponScore : num;
  violenceScore : num;
  ai_score : num;
  verdict : string;
  rejectionReason : option text
}.
End Report.

(** [{ category: cat.category, severity: cat.severity || 0 }] *)
Definition mock_category (cat : entry) : entry :=
  {| category := category cat; severity := or_zero (severity cat) |}.

Definition testModerationRules (this : service) (testCategories : list entry)
  : Report.t :=
  let mockCategories := map mock_category testCategories in
  let s := _detectWeaponsAndViolence this mockCategories in
  let moderationResult := _applyModerationRules this mockCategories in
  let ai_score := _calculateAIScore mockCategories in
  {| Report.testCategories := mockCategories;
     Report.weaponScore := weaponScore s;
     Report.violenceScore := violenceScore s;
     Report.ai_score := ai_score;
     Report.verdict :=
       if rejected moderationResult then "rejected" else "accepted";
     Report.rejectionReason := reason moderationResult |}.

(** The severity is a number other than NaN. *)
Definition number_severity (c : entry) : Prop :=
  match severity c with
  | VNumber NaN => False
  | VNumber _ => True
  | _ => False
  end.

(** ** The configuration module and [validateConfig] *)

(** JavaScript values of the configuration object. *)
#[warnings="-register-all"] Inductive jsval : Type :=
| JUndefined
| JString (s : string)
| JNumber (n : num)
| JBoolean (b : bool)
| JArray (items : list jsval)
| JObject (fields : list (string * jsval)).

Definition js_truthy (v : jsval) : bool :=
  match v with
  | JUndefined => false
  | JString s => negb (s =? "")
  | JNumber n => ToBoolean (VNumber n)
  | JBoolean b => b
  | JArray _ | JObject _ => true
  end.

Fixpoint assoc (key : string) (fields : list (string * jsval)) : jsval :=
  match fields with
  | [] => JUndefined
  | (k, v) :: rest => if k =? key then v else assoc key rest
  end.

(** [obj?.[key]].  Properties of strings, numbers and arrays are not
    modelled: the paths of [validateConfig] only go through objects. *)
Definition optional_get (obj : jsval) (key : string) : jsval :=
  match obj with
  | JObject fields => assoc key fields
  | _ => JUndefined
  end.

(** [path.split('.')] *)
Fixpoint split_dot_from (cur s : string) : list string :=
  match s with
  | EmptyString => [cur]
  | String c rest =>
      if Ascii.eqb c "."%char then cur :: split_dot_from "" rest
      else split_dot_from (String.append cur (String c "")) rest
  end.

Definition split_dot (path : string) : list string := split_dot_from "" path.

(** [process.env]: a variable is a string or is not set. *)
Definition environment : Type := string -> option string.

(** [process.env.NAME] *)
Definition env_value (v : option string) : jsval :=
  match v with Some s => JString s | None => JUndefined end.

(** [process.env.NAME || fallback] *)
Definition env_or (v : option string) (fallback : jsval) : jsval :=
  if js_truthy (env_value v) then env_value v else fallback.

Definition JInt (z : Z) : jsval := JNumber (Fin (inject_Z z)).

(** The [config] object literal. *)
Definition config (env : environment) : jsval :=
  JObject
    [ ("port", env_or (env "PORT") (JInt 3001));
      ("nodeEnv", env_or (env "NODE_ENV") (JString "development"));
      ("r2",
       JObject
         [ ("endpoint", env_value (env "CLOUDFLARE_R2_ENDPOINT"));
           ("accessKeyId", env_value (env "CLOUDFLARE_ACCESS_KEY_ID"));
           ("secretAccessKey",
            env_value (env "CLOUDFLARE_SECRET_ACCESS_KEY"));
           ("bucketName", env_value (env "CLOUDFLARE_BUCKET_NAME"));
           ("region", JString "auto") ]);
      ("azure",
       JObject
         [ ("endpoint", env_value (env "AZURE_CONTENT_SAFETY_ENDPOINT"));
           ("key", env_value (env "AZURE_CONTENT_SAFETY_KEY"));
           ("apiVersion", JString "2023-10-01") ]);
      ("redis",
       JObject
         [ ("host", env_or (env "REDIS_HOST") (JString "localhost"));
           ("port", env_or (env "REDIS_PORT") (JInt 6379));
           ("password", env_value (env "REDIS_PASSWORD"));
           ("db", env_or (env "REDIS_DB") (JInt 0)) ]);
      ("moderation",
       JObject
         [ ("thresholds",
            JObject
              [ ("violence", JInt 1); ("weapons", JInt 1); ("hate", JInt 1);
                ("selfHarm", JInt 1); ("sexual", JInt 3); ("child", JInt 1) ]);
           ("rules",
            JObject
              [ ("childWithViolence", JBoolean true);
                ("childWithHate", JBoolean true);
                ("sexualWithChild", JBoolean true);
                ("weaponBonus", JNumber (Fin (1 # 2)));
                ("violenceBonus", JNumber (Fin (1 # 2))) ]) ]);
      ("upload",
       JObject
         [ ("maxFileSize", JInt (320 * 1024 * 1024));
           ("allowedImageTypes",
            JArray [ JString "image/jpeg"; JString "image/png";
                     JString "image/webp"; JString "image/gif" ]);
           ("allowedVideoTypes",
            JArray [ JString "video/mp4"; JString "video/avi";
                     JString "video/mov"; JString "video/wmv" ]);
           ("thumbnailSize", JInt 512);
           ("tempDir", JString "temp") ]);
      ("timeouts",
       JObject
         [ ("azureImage", JInt 10000); ("azureVideo", JInt 30000);
           ("r2Upload", JInt 60000); ("r2Download", JInt 30000) ]);
      ("retries",
       JObject
         [ ("azure", JInt 3); ("r2", JInt 3); ("delay", JInt 1000);
           ("maxDelay", JInt 10000) ]);
      ("circuitBreaker",
       JObject
         [ ("azure",
            JObject
              [ ("timeout", JInt 30000);
                ("errorThresholdPercentage", JInt 50);
                ("resetTimeout", JInt 60000) ]);
           ("r2",
            JObject
              [ ("timeout", JInt 60000);
                ("errorThresholdPercentage", JInt 30);
                ("resetTimeout", JInt 120000) ]) ]);
      ("queue",
       JObject
         [ ("videoModeration", JString "video-moderation");
           ("imageModeration", JString "image-moderation");
           ("thumbnailGeneration", JString "thumbnail-generation");
           ("concurrency", JInt 2) ]);
      ("logging",
       JObject
         [ ("level", env_or (env "LOG_LEVEL") (JString "info"));
           ("file", JString "logs/worker.log");
           ("maxSize", JString "10m");
           ("maxFiles", JInt 5) ]);
      ("cleanup",
       JObject
         [ ("tempFiles",
            JObject
              [ ("enabled", JBoolean true);
                ("interval", JString "0 2 * * *");
                ("maxAge", JInt (24 * 60 * 60 * 1000)) ]) ]) ].

Definition required : list string :=
  [ "r2.endpoint"; "r2.accessKeyId"; "r2.secretAccessKey"; "r2.bucketName";
    "azure.endpoint"; "azure.key" ].

(** [path.split('.').reduce((obj, key) => obj?.[key], config)] *)
Definition value_at (cfg : jsval) (path : string) : jsval :=
  fold_left optional_get (split_dot path) cfg.

(** [validateConfig]: [inl message] is the [Error] thrown. *)
Definition validateConfig (cfg : jsval) : string + unit :=
  let missing := filter (fun path => negb (js_truthy (value_at cfg path)))
                   required in
  if (0 <? List.length missing)%nat then
    inl (String.append "Configuration manquante: " (String.concat ", " missing))
  else inr tt.

(** The environment variable behind each required path. *)
Definition required_variables : list (string * string) :=
  [ ("r2.endpoint", "CLOUDFLARE_R2_ENDPOINT");
    ("r2.accessKeyId", "CLOUDFLARE_ACCESS_KEY_ID");
    ("r2.secretAccessKey", "CLOUDFLARE_SECRET_ACCESS_KEY");
    ("r2.bucketName", "CLOUDFLARE_BUCKET_NAME");
    ("azure.endpoint", "AZURE_CONTENT_SAFETY_ENDPOINT");
    ("azure.key", "AZURE_CONTENT_SAFETY_KEY") ].

(** The variable is set to a string that is not empty. *)
Definition is_set (v : option string) : bool :=
  match v with Some s => negb (s =? "") | None => false end.

Definition unset_paths (env : environment) : list string :=
  map fst (filter (fun pv => negb (is_set (env (snd pv)))) required_variables).

(** An environment for the examples: only the two Azure variables are set. *)
Definition azure_only : environment :=
  fun name =>
    if name =? "AZURE_CONTENT_SAFETY_ENDPOINT" then Some "https://azure"
    else if name =? "AZURE_CONTENT_SAFETY_KEY" then Some "k"
    else None.

(** ** More arithmetic on numbers *)

(** [- a] *)
Definition num_opp (a : num) : num :=
  match a with
  | Fin q => Fin (- q)
  | PInf => NInf
  | NInf => PInf
  | NaN => NaN
  end.

(** [a - b] *)
Definition num_sub (a b : num) : num := num_add a (num_opp b).

(** The product of a rational and an infinity. *)
Definition Qtimes_inf (x : Q) (positive : bool) : num :=
  if Qeq_bool x 0 then NaN
  else if Bool.eqb (Qle_bool 0 x) positive then PInf else NInf.

(** [a * b] *)
Definition num_mul (a b : num) : num :=
  match a, b with
  | NaN, _ | _, NaN => NaN
  | Fin x, Fin y => Fin (x * y)
  | Fin x, PInf | PInf, Fin x => Qtimes_inf x true
  | Fin x, NInf | NInf, Fin x => Qtimes_inf x false
  | PInf, PInf | NInf, NInf => PInf
  | PInf, NInf | NInf, PInf => NInf
  end.

(** [Math.min(a, b)]: NaN as soon as one argument is NaN. *)
Definition Math_min (a b : num) : num :=
  match a, b with
  | NaN, _ | _, NaN => NaN
  | _, _ => if num_ge a b then b else a
  end.

(** [x.toString()] for a number [x].  The digits are not computed:
    [Tpl "" x ""] stands for the string that JavaScript prints for [x].
    Equality of texts is therefore finer than equality of strings: the
    string printed for 5 is the literal '5', which is written [Str "5"]. *)
Definition Number_toString (x : num) : text := Tpl "" x "".

(** ** The file service: [_calculateTimestamps] *)

(** [count] is a natural number: the callers pass 3. *)
Definition _calculateTimestamps (duration : num) (count : nat) : list text :=
  let interval :=
    Math_max (Fin 5) (num_div duration (num_of_nat (count + 1))) in
  let timestamps :=
    map (fun i =>
           let timestamp :=
             Math_min (num_sub duration (Fin 5))
               (num_mul (num_of_nat i) interval) in
           Number_toString timestamp)
      (seq 1 count) in
  if (List.length timestamps =? 0)%nat then timestamps ++ [Str "5"]
  else timestamps.


(** ** Errors, promises and the externals of the worker

    The services and the controller are asynchronous code over
    collaborators outside the repository.  They are embedded as
    state-passing functions that settle as fulfilled or rejected; the
    state holds the world of the collaborators, the buffers submitted to
    the classifier and the events of the request.  Each call of a
    collaborator is one step of the world.  Logging and the measured
    processing times are left out. *)

(** The pieces of an error message: literal text, and a number printed
    with [toFixed(2)]. *)
Inductive fragment : Type :=
| Lit (s : string)
| ToFixed2 (x : num).

Module JsError.
Record t : Type := mk {
  name : string;
  code : option string;
  status : option Z;
  message : list fragment
}.
End JsError.

(** [new Error(message)] and the error classes of the error handler. *)
Definition new_Error (m : list fragment) : JsError.t :=
  {| JsError.name := "Error"; JsError.code := None;
     JsError.status := None; JsError.message := m |}.

Definition ValidationError (m : list fragment) : JsError.t :=
  {| JsError.name := "ValidationError"; JsError.code := None;
     JsError.status := Some 400%Z; JsError.message := m |}.

Definition InvalidFileTypeError (m : list fragment) : JsError.t :=
  {| JsError.name := "InvalidFileTypeError"; JsError.code := None;
     JsError.status := Some 415%Z; JsError.message := m |}.

(** A string or [undefined] inside a template literal. *)
Definition embed (v : option string) : string :=
  match v with Some s => s | None => "undefined" end.

(** How a promise settles. *)
Inductive settled (A : Type) : Type :=
| Fulfilled (a : A)
| Rejected (e : JsError.t).
Arguments Fulfilled {A} a.
Arguments Rejected {A} e.

Definition fulfilled {A} (r : settled A) : bool :=
  match r with Fulfilled _ => true | Rejected _ => false end.

(** The errors of the classifier gateway as error objects (they never
    leave the moderation service). *)
Definition js_error_of (e : error) : JsError.t :=
  match e with
  | EOPENBREAKER =>
      {| JsError.name := "Error"; JsError.code := Some "EOPENBREAKER";
         JsError.status := None; JsError.message := [Lit "Breaker is open"] |}
  | ETIMEDOUT =>
      {| JsError.name := "Error"; JsError.code := Some "ETIMEDOUT";
         JsError.status := None; JsError.message := [Lit "Timed out"] |}
  | AxiosError =>
      {| JsError.name := "AxiosError"; JsError.code := None;
         JsError.status := None; JsError.message := [] |}
  | AzureAPIError status statusText =>
      new_Error [Lit "Azure API error: "; ToFixed2 (Fin (inject_Z status));
                 Lit " - "; Lit statusText]
  | TypeError =>
      {| JsError.name := "TypeError"; JsError.code := None;
         JsError.status := None; JsError.message := [] |}
  end.

(** [config.upload] *)
Record upload_config : Type := mkUpload {
  maxFileSize : Z;
  allowedImageTypes : list string;
  allowedVideoTypes : list string;
  thumbnailSize : Z;
  tempDir : string
}.

Definition config_upload : upload_config :=
  {| maxFileSize := 320 * 1024 * 1024;
     allowedImageTypes :=
       ["image/jpeg"; "image/png"; "image/webp"; "image/gif"];
     allowedVideoTypes :=
       ["video/mp4"; "video/avi"; "video/mov"; "video/wmv"];
     thumbnailSize := 512;
     tempDir := "temp" |}.

(** The object that [fileType.fromBuffer] returns, as [validateFile]
    reads it: its properties [mime] and [ext], each of which may be
    missing. *)
Record detected : Type := mkDetected {
  mime : option string;
  ext : option string
}.

(** A Promise read in this way: it has neither property. *)
Definition a_promise : detected := {| mime := None; ext := None |}.

(** The object returned by [validateFile]. *)
Record fileInfo : Type := mkFileInfo {
  mimeType : option string;
  isImage : bool;
  isVideo : bool;
  size : Z;
  extension : option string
}.

(** [list.includes(v)] for a list of strings *)
Definition includes (l : list string) (v : option string) : bool :=
  match v with
  | Some s => existsb (String.eqb s) l
  | None => false
  end.

(** One request to the storage circuit breaker. *)
Inductive r2_operation : Type :=
| R2Upload (b : buffer) (key : string) (contentType : option string)
| R2Download (key : string)
| R2Delete (key : string).

(** What [s3Client.send] (and, for a download, the reading of the body)
    gives. *)
Inductive s3_outcome : Type :=
| S3Done (body : buffer)
| S3Failed (e : JsError.t).

(** What happens to one [fire] of the storage breaker: refused by an open
    breaker, cut by its timeout (each with the message of its error), or
    run to completion. *)
Inductive r2_upstream : Type :=
| R2CircuitOpen (m : list fragment)
| R2TimedOut (m : list fragment)
| R2Completed (o : s3_outcome).

(** What [_callR2API] returns. *)
Inductive r2_result : Type :=
| Uploaded (key : string)
| Downloaded (body : buffer)
| Deleted.

(** The JSON bodies sent with [res.json]; the processing time, a
    difference of clock readings, is left out. *)
Inductive payload : Type :=
| RejectedResponse (rejectionReason : option text) (ai_score : num)
    (categories : list entry)
| ImageAccepted (imageR2Key thumbR2Key : string) (ai_score : num)
| VideoAccepted (videoR2Key : string) (ai_score : num)
| VideoFromR2Accepted (ai_score : num) (thumbR2Keys : list string).

(** Operations on the temporary directory. *)
Inductive fs_event : Type :=
| WriteFile (path : string)
| Unlink (path : string)
| ReadFile (path : string)
| Screenshot (videoPath outputPath : string) (timestamp : text).

(** [req.file] and the fields read from [req.body], each a string or
    absent. *)
Record uploaded_file : Type := mkFile {
  file_buffer : buffer;
  originalname : string
}.

Record request : Type := mkRequest {
  file : option uploaded_file;
  creatorId : option string;
  r2Key : option string;
  type : option string
}.

(** The collaborators of the worker outside the repository: the
    classifier behind its breaker, [file-type], the object store behind
    its breaker, [sharp], [uuid], [path], [fs] and [ffmpeg].  Each
    answers from the current state of the world and changes it. *)
Record externals (world : Type) : Type := mkExternals {
  classifier : buffer -> world -> upstream * world;
  fromBuffer : buffer -> option detected;
  r2 : r2_operation -> world -> r2_upstream * world;
  settles_first : world -> bool;
  sharp : buffer -> Z -> world -> settled buffer * world;
  uuidv4 : world -> string * world;
  path_join : string -> string -> string;
  writeFile : string -> buffer -> world -> option JsError.t * world;
  unlink : string -> world -> option JsError.t * world;
  readFile : string -> world -> settled buffer * world;
  ffprobe : string -> world -> settled num * world;
  screenshots : string -> string -> text -> world -> option JsError.t * world
}.
Arguments classifier {world} _ _ _.
Arguments fromBuffer {world} _ _.
Arguments r2 {world} _ _ _.
Arguments settles_first {world} _ _.
Arguments sharp {world} _ _ _ _.
Arguments uuidv4 {world} _ _.
Arguments path_join {world} _ _ _.
Arguments writeFile {world} _ _ _ _.
Arguments unlink {world} _ _ _.
Arguments readFile {world} _ _ _.
Arguments ffprobe {world} _ _ _.
Arguments screenshots {world} _ _ _ _ _.

(** The detector is asynchronous, as [fromBuffer] is in file-type: every
    call returns a Promise, which [validateFile] reads without awaiting
    it. *)
Definition asynchronous_detector {world} (sys : externals world) : Prop :=
  forall b, fromBuffer sys b = Some a_promise.

(** What a request does, in order: results obtained from the moderation
    service, requests to the storage breaker with whether they were
    fulfilled, operations on the temporary directory, responses sent. *)
Inductive event : Type :=
| Moderated (r : result)
| Storage (op : r2_operation) (done : bool)
| Temp (ev : fs_event)
| Sent (body : payload).

(** The state of a request: the gateway state (world and classifier
    calls) and the events so far. *)
Record cstate (world : Type) : Type := mkCState {
  gw : state world;
  trace : list event
}.
Arguments mkCState {world} _ _.
Arguments gw {world} _.
Arguments trace {world} _.

Definition world_of {world} (st : cstate world) : world := the_world (gw st).

Definition with_world {world} (w : world) (st : cstate world) : cstate world :=
  {| gw := {| the_world := w; calls := calls (gw st) |};
     trace := trace st |}.

Definition log {world} (ev : event) (st : cstate world) : cstate world :=
  {| gw := gw st; trace := trace st ++ [ev] |}.

(** Asynchronous code of the worker: state passing with rejection. *)
Definition async (world A : Type) : Type :=
  cstate world -> settled A * cstate world.

Definition resolve {world A} (a : A) : async world A :=
  fun st => (Fulfilled a, st).

Definition throw {world A} (e : JsError.t) : async world A :=
  fun st => (Rejected e, st).

Definition await {world A B} (c : async world A) (k : A -> async world B)
  : async world B :=
  fun st =>
    match c st with
    | (Fulfilled a, st') => k a st'
    | (Rejected e, st') => (Rejected e, st')
    end.

(** [try { c } catch (error) { handler(error) }] *)
Definition catch {world A} (c : async world A)
  (handler : JsError.t -> async world A) : async world A :=
  fun st =>
    match c st with
    | (Fulfilled a, st') => (Fulfilled a, st')
    | (Rejected e, st') => handler e st'
    end.

(** [try { c } finally { f }], for an [f] that does not throw or return. *)
Definition finally {world A} (c : async world A) (f : async world unit)
  : async world A :=
  fun st =>
    match c st with
    | (r, st') =>
        match f st' with
        | (Fulfilled _, st'') => (r, st'')
        | (Rejected e, st'') => (Rejected e, st'')
        end
    end.

(** A synchronous result used in asynchronous code. *)
Definition settle {world A} (r : settled A) : async world A :=
  fun st => (r, st).

(** [await Promise.all([p, q])]: both are started, in this order; when
    both reject, the world decides which rejection comes first. *)
Definition Promise_all2 {world A B} (sys : externals world)
  (p : async world A) (q : async world B) : async world (A * B) :=
  fun st =>
    match p st with
    | (rp, st1) =>
        match q st1 with
        | (rq, st2) =>
            (match rp, rq with
             | Fulfilled a, Fulfilled b => Fulfilled (a, b)
             | Rejected e, Fulfilled _ => Rejected e
             | Fulfilled _, Rejected e => Rejected e
             | Rejected e1, Rejected e2 =>
                 if settles_first sys (world_of st2) then Rejected e1
                 else Rejected e2
             end, st2)
        end
    end.

Declare Scope async_scope.
Delimit Scope async_scope with async.
Notation "x <- c ;; k" := (await c (fun x => k))
  (at level 61, c at next level, right associativity) : async_scope.
Notation "c ;;; k" := (await c (fun _ => k))
  (at level 61, right associativity) : async_scope.

(** ** The file service *)

Module FileService.
Section WithExternals.

Context {world : Type}.
Variable sys : externals world.
Variable cfg : upload_config.

Local Open Scope async_scope.

(** [validateFile(buffer, originalName)] *)
Definition validateFile (b : buffer) (originalName : string)
  : settled fileInfo :=
  let detection := fromBuffer sys b in
  let fileSize := Z.of_nat (List.length b) in
  if (maxFileSize cfg <? fileSize)%Z then
    Rejected
      (new_Error
         [ Lit "File too large: ";
           ToFixed2
             (num_div (num_div (Fin (inject_Z fileSize)) (Fin 1024))
                (Fin 1024));
           Lit "MB (max: ";
           ToFixed2
             (num_div (num_div (Fin (inject_Z (maxFileSize cfg))) (Fin 1024))
                (Fin 1024));
           Lit "MB)" ])
  else
    match detection with
    | None => Rejected (new_Error [Lit "Unable to determine file type"])
    | Some found =>
        let mimeType := mime found in
        let isImage := includes (allowedImageTypes cfg) mimeType in
        let isVideo := includes (allowedVideoTypes cfg) mimeType in
        if negb isImage && negb isVideo then
          Rejected
            (new_Error [Lit "File type not allowed: "; Lit (embed mimeType)])
        else
          Fulfilled
            {| mimeType := mimeType;
               isImage := isImage;
               isVideo := isVideo;
               size := fileSize;
               extension := ext found |}
    end.


(** [targetWidth = width || this.config.thumbnailSize], then the [sharp]
    pipeline; a failure is rethrown as a new [Error]. *)
Definition generateImageThumbnail (b : buffer) (width : option Z)
  : async world buffer :=
  let targetWidth :=
    match width with
    | Some w => if (w =? 0)%Z then thumbnailSize cfg else w
    | None => thumbnailSize cfg
    end in
  catch
    (fun st =>
       let (r, w) := sharp sys b targetWidth (world_of st) in
       (r, with_world w st))
    (fun error =>
       throw
         (new_Error
            (Lit "Failed to generate image thumbnail: "
             :: JsError.message error))).

(** [fs.writeFile], [fs.unlink], [fs.readFile] *)
Definition fs_writeFile (path : string) (b : buffer) : async world unit :=
  fun st =>
    let (r, w) := writeFile sys path b (world_of st) in
    (match r with None => Fulfilled tt | Some e => Rejected e end,
     log (Temp (WriteFile path)) (with_world w st)).

Definition fs_unlink (path : string) : async world unit :=
  fun st =>
    let (r, w) := unlink sys path (world_of st) in
    (match r with None => Fulfilled tt | Some e => Rejected e end,
     log (Temp (Unlink path)) (with_world w st)).

Definition fs_readFile (path : string) : async world buffer :=
  fun st =>
    let (r, w) := readFile sys path (world_of st) in
    (r, log (Temp (ReadFile path)) (with_world w st)).

Definition new_uuid : async world string :=
  fun st =>
    let (u, w) := uuidv4 sys (world_of st) in
    (Fulfilled u, with_world w st).

Definition saveTempFile (b : buffer) (filename : string)
  : async world string :=
  catch
    (let tempPath := path_join sys (tempDir cfg) filename in
     fs_writeFile tempPath b ;;;
     resolve tempPath)
    (fun error =>
       throw
         (new_Error (Lit "Failed to save temp file: "
                     :: JsError.message error))).

(** The [catch] block only logs: the promise is always fulfilled. *)
Definition deleteTempFile (filePath : string) : async world unit :=
  catch (fs_unlink filePath) (fun error => resolve tt).

Definition _getVideoDuration (videoPath : string) : async world num :=
  fun st =>
    let (r, w) := ffprobe sys videoPath (world_of st) in
    (match r with
     | Fulfilled duration => Fulfilled duration
     | Rejected err =>
         Rejected
           (new_Error (Lit "Failed to get video duration: "
                       :: JsError.message err))
     end,
     with_world w st).

Definition _extractVideoFrame (videoPath outputPath : string)
  (timestamp : text) : async world string :=
  fun st =>
    let (r, w) := screenshots sys videoPath outputPath timestamp
                    (world_of st) in
    (match r with
     | None => Fulfilled outputPath
     | Some err =>
         Rejected
           (new_Error (Lit "Failed to extract frame: "
                       :: JsError.message err))
     end,
     log (Temp (Screenshot videoPath outputPath timestamp))
       (with_world w st)).

Definition string_of_nat (n : nat) : string :=
  DecimalString.NilZero.string_of_uint (Nat.to_uint n).

(** The [for] loop of [generateVideoThumbnails], from index [i] on. *)
Fixpoint thumbnails_loop (videoPath : string) (timestamps : list text)
  (i : nat) (thumbnails : list buffer) : async world (list buffer) :=
  match timestamps with
  | [] => resolve thumbnails
  | timestamp :: rest =>
      uuid <- new_uuid ;;
      let thumbnailPath :=
        path_join sys (tempDir cfg)
          (String.concat "" ["thumb-"; uuid; "-"; string_of_nat i; ".jpg"]) in
      _extractVideoFrame videoPath thumbnailPath timestamp ;;;
      thumbnailBuffer <- fs_readFile thumbnailPath ;;
      fs_unlink thumbnailPath ;;;
      thumbnails_loop videoPath rest (S i) (thumbnails ++ [thumbnailBuffer])
  end.

Definition generateVideoThumbnails (videoPath : string) (count : nat)
  : async world (list buffer) :=
  catch
    (duration <- _getVideoDuration videoPath ;;
     let timestamps := _calculateTimestamps duration count in
     thumbnails_loop videoPath timestamps 0 [])
    (fun error =>
       throw
         (new_Error (Lit "Failed to generate video thumbnails: "
                     :: JsError.message error))).

End WithExternals.
End FileService.

(** ** The storage service *)

Module StorageService.
Section WithExternals.

Context {world : Type}.
Variable sys : externals world.

Local Open Scope async_scope.

Definition key_of (op : r2_operation) : string :=
  match op with
  | R2Upload _ key _ | R2Download key | R2Delete key => key
  end.

Definition code_is (e : JsError.t) (c : string) : bool :=
  match JsError.code e with
  | Some s => s =? c
  | None => false
  end.

(** The [catch] block of [_callR2API]. *)
Definition map_r2_error (key : string) (error : JsError.t) : JsError.t :=
  if JsError.name error =? "NoSuchKey" then
    new_Error [Lit "File not found: "; Lit key]
  else if JsError.name error =? "AccessDenied" then
    new_Error [Lit "Access denied to file: "; Lit key]
  else if (JsError.name error =? "InvalidAccessKeyId")
          || (JsError.name error =? "SignatureDoesNotMatch") then
    new_Error [Lit "Invalid R2 credentials"]
  else if (JsError.name error =? "NetworkingError")
          || code_is error "ECONNRESET" || code_is error "ETIMEDOUT" then
    new_Error [Lit "Network error connecting to R2"]
  else error.

(** [_callR2API(params)], given what the S3 client does with the
    command. *)
Definition _callR2API (params : r2_operation) (o : s3_outcome)
  : settled r2_result :=
  match o with
  | S3Failed error => Rejected (map_r2_error (key_of params) error)
  | S3Done body =>
      match params with
      | R2Upload _ key _ => Fulfilled (Uploaded key)
      | R2Download _ => Fulfilled (Downloaded body)
      | R2Delete _ => Fulfilled Deleted
      end
  end.

(** The errors of the breaker: plain [Error] objects with a code. *)
Definition breaker_error (c : string) (m : list fragment) : JsError.t :=
  {| JsError.name := "Error"; JsError.code := Some c;
     JsError.status := None; JsError.message := m |}.

(** [this.circuitBreaker.fire(params)], the action being [_callR2API] *)
Definition fire (params : r2_operation) : async world r2_result :=
  fun st =>
    let (u, w) := r2 sys params (world_of st) in
    let r :=
      match u with
      | R2CircuitOpen m => Rejected (breaker_error "EOPENBREAKER" m)
      | R2TimedOut m => Rejected (breaker_error "ETIMEDOUT" m)
      | R2Completed o => _callR2API params o
      end in
    (r, log (Storage params (fulfilled r)) (with_world w st)).

Definition uploadFile (b : buffer) (key : string)
  (contentType : option string) : async world r2_result :=
  catch
    (result <- fire (R2Upload b key contentType) ;;
     resolve result)
    (fun error =>
       throw (new_Error (Lit "Upload failed: " :: JsError.message error))).

Definition downloadFile (key : string) : async world r2_result :=
  catch
    (result <- fire (R2Download key) ;;
     resolve result)
    (fun error =>
       if JsError.name error =? "NoSuchKey" then
         throw (new_Error [Lit "File not found: "; Lit key])
       else
         throw (new_Error (Lit "Download failed: "
                           :: JsError.message error))).

(** Returns the result of the deletion, or [false] when it failed. *)
Definition deleteFile (key : string) : async world (option r2_result) :=
  catch
    (result <- fire (R2Delete key) ;;
     resolve (Some result))
    (fun error => resolve None).

(** One element of the array returned by [cleanupTempFiles]. *)
Record cleanup_result : Type := mkCleanup {
  cleanup_key : string;
  success : bool;
  cleanup_error : option (list fragment)
}.

(** The [for] loop of [cleanupTempFiles]. *)
Fixpoint cleanup_loop (keys : list string) (results : list cleanup_result)
  : async world (list cleanup_result) :=
  match keys with
  | [] => resolve results
  | key :: rest =>
      results' <-
        catch
          (deleteFile key ;;;
           resolve
             (results ++ [ {| cleanup_key := key; success := true;
                              cleanup_error := None |} ]))
          (fun error =>
             resolve
               (results ++ [ {| cleanup_key := key; success := false;
                                cleanup_error :=
                                  Some (JsError.message error) |} ])) ;;
      cleanup_loop rest results'
  end.

Definition cleanupTempFiles (keys : list string)
  : async world (list cleanup_result) :=
  cleanup_loop keys [].

End WithExternals.
End StorageService.

(** ** The controller *)

Module ModerationController.
Section WithExternals.

Context {world : Type}.
Variable sys : externals world.
Variable cfg : upload_config.
Variable this : service.

Local Open Scope async_scope.

(** [res.json(body)] *)
Definition res_json (body : payload) : async world unit :=
  fun st => (Fulfilled tt, log (Sent body) st).

(** [this.azureService.moderateImage] and [moderateVideo], run on the
    gateway state; the result obtained is recorded. *)
Definition of_gateway (c : M world result) : async world result :=
  fun st =>
    match c (gw st) with
    | (Returned a, g) =>
        (Fulfilled a, log (Moderated a) {| gw := g; trace := trace st |})
    | (Thrown e, g) =>
        (Rejected (js_error_of e), {| gw := g; trace := trace st |})
    end.

Definition azure_moderateImage (b : buffer) : async world result :=
  of_gateway (moderateImage (classifier sys) this b).

Definition azure_moderateVideo (thumbnails : list buffer)
  : async world result :=
  of_gateway (moderateVideo (classifier sys) this thumbnails).

Definition rejected_response (moderationResult : result) : payload :=
  RejectedResponse (rejectionReason moderationResult)
    (ai_score moderationResult) (categories moderationResult).

Definition moderateImage (req : request) : async world unit :=
  match file req with
  | None => throw (ValidationError [Lit "No image file provided"])
  | Some file =>
      if negb (is_set (creatorId req)) then
        throw (ValidationError [Lit "Creator ID is required"])
      else
        fileInfo <-
          settle (FileService.validateFile sys cfg (file_buffer file)
                    (originalname file)) ;;
        if negb (isImage fileInfo) then
          throw
            (InvalidFileTypeError
               [Lit "File type not allowed: "; Lit (embed (mimeType fileInfo))])
        else
          moderationResult <- azure_moderateImage (file_buffer file) ;;
          if verdict moderationResult =? "rejected" then
            res_json (rejected_response moderationResult)
          else
            thumbnailBuffer <-
              FileService.generateImageThumbnail sys cfg (file_buffer file)
                None ;;
            uuid <- FileService.new_uuid sys ;;
            let imageKey :=
              String.concat ""
                ["media/"; embed (creatorId req); "/"; uuid; "-";
                 originalname file] in
            let thumbKey :=
              String.concat ""
                ["media/"; embed (creatorId req); "/thumb-"; uuid; ".jpg"] in
            Promise_all2 sys
              (StorageService.uploadFile sys (file_buffer file) imageKey
                 (mimeType fileInfo))
              (StorageService.uploadFile sys thumbnailBuffer thumbKey
                 (Some "image/jpeg")) ;;;
            res_json
              (ImageAccepted imageKey thumbKey (ai_score moderationResult))
  end.

Definition moderateVideo (req : request) : async world unit :=
  match file req with
  | None => throw (ValidationError [Lit "No video file provided"])
  | Some file =>
      if negb (is_set (creatorId req)) then
        throw (ValidationError [Lit "Creator ID is required"])
      else
        fileInfo <-
          settle (FileService.validateFile sys cfg (file_buffer file)
                    (originalname file)) ;;
        if negb (isVideo fileInfo) then
          throw
            (InvalidFileTypeError
               [Lit "File type not allowed: "; Lit (embed (mimeType fileInfo))])
        else
          uuid0 <- FileService.new_uuid sys ;;
          tempVideoPath <-
            FileService.saveTempFile sys cfg (file_buffer file)
              (String.concat "" [uuid0; "-"; originalname file]) ;;
          finally
            (thumbnails <-
               FileService.generateVideoThumbnails sys cfg tempVideoPath 3 ;;
             moderationResult <- azure_moderateVideo thumbnails ;;
             if verdict moderationResult =? "rejected" then
               res_json (rejected_response moderationResult)
             else
               uuid <- FileService.new_uuid sys ;;
               let videoKey :=
                 String.concat ""
                   ["media/"; embed (creatorId req); "/"; uuid; "-";
                    originalname file] in
               StorageService.uploadFile sys (file_buffer file) videoKey
                 (mimeType fileInfo) ;;;
               res_json (VideoAccepted videoKey (ai_score moderationResult)))
            (FileService.deleteTempFile sys tempVideoPath)
  end.

(** The buffer that [downloadFile] resolves to. *)
Definition body_of (r : r2_result) : buffer :=
  match r with
  | Downloaded body => body
  | _ => []
  end.

Definition moderateImageFromR2 (req : request) : async world unit :=
  if negb (is_set (r2Key req)) || negb (is_set (type req)) then
    throw (ValidationError [Lit "Missing r2Key or type"])
  else
    let key := embed (r2Key req) in
    downloaded <- StorageService.downloadFile sys key ;;
    let imageBuffer := body_of downloaded in
    fileInfo <- settle (FileService.validateFile sys cfg imageBuffer key) ;;
    if negb (isImage fileInfo) then
      throw
        (InvalidFileTypeError
           [Lit "File type not allowed: "; Lit (embed (mimeType fileInfo))])
    else
      moderationResult <- azure_moderateImage imageBuffer ;;
      if verdict moderationResult =? "rejected" then
        StorageService.deleteFile sys key ;;;
        res_json (rejected_response moderationResult)
      else
        thumbnailBuffer <-
          FileService.generateImageThumbnail sys cfg imageBuffer None ;;
        uuid <- FileService.new_uuid sys ;;
        let processedImageKey :=
          String.concat "" ["media/"; uuid; "-processed.jpg"] in
        let thumbKey := String.concat "" ["media/thumb-"; uuid; ".jpg"] in
        Promise_all2 sys
          (StorageService.uploadFile sys imageBuffer processedImageKey
             (mimeType fileInfo))
          (StorageService.uploadFile sys thumbnailBuffer thumbKey
             (Some "image/jpeg")) ;;;
        StorageService.deleteFile sys key ;;;
        res_json
          (ImageAccepted processedImageKey thumbKey
             (ai_score moderationResult)).

(** The [for] loop that uploads the thumbnails of an accepted video. *)
Fixpoint upload_thumbnails (thumbnails : list buffer)
  (thumbKeys : list string) : async world (list string) :=
  match thumbnails with
  | [] => resolve thumbKeys
  | thumbnail :: rest =>
      uuid <- FileService.new_uuid sys ;;
      let thumbKey := String.concat "" ["media/thumb-"; uuid; ".jpg"] in
      StorageService.uploadFile sys thumbnail thumbKey (Some "image/jpeg") ;;;
      upload_thumbnails rest (thumbKeys ++ [thumbKey])
  end.

Definition moderateVideoFromR2 (req : request) : async world unit :=
  if negb (is_set (r2Key req)) || negb (is_set (creatorId req)) then
    throw (ValidationError [Lit "Missing r2Key or creatorId"])
  else
    let key := embed (r2Key req) in
    downloaded <- StorageService.downloadFile sys key ;;
    let videoBuffer := body_of downloaded in
    fileInfo <- settle (FileService.validateFile sys cfg videoBuffer key) ;;
    if negb (isVideo fileInfo) then
      throw
        (InvalidFileTypeError
           [Lit "File type not allowed: "; Lit (embed (mimeType fileInfo))])
    else
      uuid0 <- FileService.new_uuid sys ;;
      tempVideoPath <-
        FileService.saveTempFile sys cfg videoBuffer
          (String.concat "" [uuid0; "-video.mp4"]) ;;
      finally
        (thumbnails <-
           FileService.generateVideoThumbnails sys cfg tempVideoPath 3 ;;
         moderationResult <- azure_moderateVideo thumbnails ;;
         if verdict moderationResult =? "rejected" then
           StorageService.deleteFile sys key ;;;
           res_json (rejected_response moderationResult)
         else
           thumbKeys <- upload_thumbnails thumbnails [] ;;
           res_json
             (VideoFromR2Accepted (ai_score moderationResult) thumbKeys))
        (FileService.deleteTempFile sys tempVideoPath).

(** The four moderation routes and the controller methods bound to
    them. *)
Inductive endpoint : Type :=
| ModerateImage
| ModerateVideo
| ModerateImageFromR2
| ModerateVideoFromR2.

Definition handler (e : endpoint) : request -> async world unit :=
  match e with
  | ModerateImage => moderateImage
  | ModerateVideo => moderateVideo
  | ModerateImageFromR2 => moderateImageFromR2
  | ModerateVideoFromR2 => moderateVideoFromR2
  end.

End WithExternals.
End ModerationController.

(** ** The error handler *)

(** A string built from fragments is truthy when it is not empty. *)
Definition message_truthy (m : list fragment) : bool :=
  existsb
    (fun f => match f with Lit s => negb (s =? "") | ToFixed2 _ => true end)
    m.

(** What [errorHandler] puts in the response: the status code, the
    message and the details. *)
Record error_response : Type := mkErrorResponse {
  statusCode : Z;
  error_message : list fragment;
  details : option (list fragment)
}.

Definition truthy_details (m : list fragment) : option (list fragment) :=
  if message_truthy m then Some m else None.

Definition errorHandler (err : JsError.t) : error_response :=
  let name := JsError.name err in
  if name =? "ValidationError" then
    mkErrorResponse 400 [Lit "Validation Error"]
      (truthy_details (JsError.message err))
  else if name =? "UnauthorizedError" then
    mkErrorResponse 401 [Lit "Unauthorized"] None
  else if name =? "ForbiddenError" then
    mkErrorResponse 403 [Lit "Forbidden"] None
  else if name =? "NotFoundError" then
    mkErrorResponse 404 [Lit "Not Found"] None
  else if name =? "FileTooLargeError" then
    mkErrorResponse 413 [Lit "File Too Large"]
      (truthy_details (JsError.message err))
  else if name =? "InvalidFileTypeError" then
    mkErrorResponse 415 [Lit "Unsupported Media Type"]
      (truthy_details (JsError.message err))
  else if name =? "CircuitBreakerOpenError" then
    mkErrorResponse 503 [Lit "Service Temporarily Unavailable"]
      (Some
         [Lit "The service is temporarily unavailable due to high error rate"])
  else if name =? "TimeoutError" then
    mkErrorResponse 408 [Lit "Request Timeout"]
      (truthy_details (JsError.message err))
  else if message_truthy (JsError.message err) then
    mkErrorResponse 500 (JsError.message err) None
  else
    mkErrorResponse 500 [Lit "Internal Server Error"] None.

(** ** Vocabulary for the events of a request *)

Definition is_upload (ev : event) : bool :=
  match ev with
  | Storage (R2Upload _ _ _) _ => true
  | _ => false
  end.

(** An upload that was not fulfilled. *)
Definition is_failed_upload (ev : event) : bool :=
  match ev with
  | Storage (R2Upload _ _ _) false => true
  | _ => false
  end.

(** The object keys that a response announces. *)
Definition keys_of (body : payload) : list string :=
  match body with
  | RejectedResponse _ _ _ => []
  | ImageAccepted imageR2Key thumbR2Key _ => [imageR2Key; thumbR2Key]
  | VideoAccepted videoR2Key _ => [videoR2Key]
  | VideoFromR2Accepted _ thumbR2Keys => thumbR2Keys
  end.

(** Among the events, a fulfilled upload under [key]. *)
Definition stored (events : list event) (key : string) : Prop :=
  exists b contentType, In (Storage (R2Upload b key contentType) true) events.

(** The events of one thumbnail of [generateVideoThumbnails]. *)
Definition thumbnail_events (videoPath thumbnailPath : string)
  (timestamp : text) : list event :=
  [ Temp (Screenshot videoPath thumbnailPath timestamp);
    Temp (ReadFile thumbnailPath);
    Temp (Unlink thumbnailPath) ].

Definition is_download (ev : event) : bool :=
  match ev with
  | Storage (R2Download _) _ => true
  | _ => false
  end.

Definition is_unlink (ev : event) : bool :=
  match ev with
  | Temp (Unlink _) => true
  | _ => false
  end.

(** What comes before moderation: the download of the original and the
    work in the temporary directory. *)
Definition is_preparation (ev : event) : bool :=
  match ev with
  | Storage (R2Download _) _ => true
  | Temp _ => true
  | _ => false
  end.

(** What [generateVideoThumbnails] does in the temporary directory. *)
Definition is_thumbnail_event (ev : event) : bool :=
  match ev with
  | Temp (Screenshot _ _ _) => true
  | Temp (ReadFile _) => true
  | Temp (Unlink _) => true
  | _ => false
  end.

(** An error of one of the two classes that the controller throws. *)
Definition client_error (e : JsError.t) : Prop :=
  exists m, e = ValidationError m \/ e = InvalidFileTypeError m.

(** The temporary copy of a video: once its writing was requested, the
    last event of the request is its removal, unless the writing failed,
    which then ends the request. *)
Definition temp_removed (r : settled unit) (events : list event) : Prop :=
  forall path,
    In (Temp (WriteFile path)) events ->
    (exists before, events = before ++ [Temp (Unlink path)])
    \/ (exists before m,
          events = before ++ [Temp (WriteFile path)]
          /\ r = Rejected
                 (new_Error (Lit "Failed to save temp file: " :: m))).

(** An error made with [new Error(message)]. *)
Definition plain_Error (e : JsError.t) : Prop := exists m, e = new_Error m.

(** From [st] to [st'] the events [added] happened and the classifier was
    not called. *)
Definition advances {world} (st st' : cstate world) (added : list event)
  : Prop :=
  trace st' = trace st ++ added /\ calls (gw st') = calls (gw st).

(** The course of a request to one of the four handlers, [key] being the
    key of the original in the store: it stops before moderation; or the
    content is rejected, the original deleted and the rejection sent; or
    the content is accepted and the request fails afterwards, on the
    thumbnail or on an upload; or the content is accepted, everything is
    uploaded and the acceptance sent.  [closing] is the removal of the
    temporary copy. *)
Inductive course {world : Type} (key : string) (st st' : cstate world)
  : settled unit -> Prop :=
| course_stopped (prep : list event) (e : JsError.t) :
    advances st st' prep ->
    Forall (fun ev => is_preparation ev = true) prep ->
    temp_removed (Rejected e) prep ->
    plain_Error e
    \/ (client_error e /\ Forall (fun ev => is_download ev = true) prep) ->
    course key st st' (Rejected e)
| course_rejected (prep : list event) (m : result)
    (dels closing : list event) :
    trace st' =
    trace st
    ++ prep
    ++ Moderated m
       :: dels ++ Sent (ModerationController.rejected_response m) :: closing ->
    Forall (fun ev => is_preparation ev = true) prep ->
    verdict m = "rejected" ->
    Forall (fun ev => exists done, ev = Storage (R2Delete key) done) dels ->
    Forall (fun ev => is_unlink ev = true) closing ->
    (forall path,
        In (Temp (WriteFile path)) prep -> closing = [Temp (Unlink path)]) ->
    course key st st' (Fulfilled tt)
| course_failed (prep : list event) (m : result) (ups closing : list event)
    (e : JsError.t) :
    trace st' = trace st ++ prep ++ Moderated m :: ups ++ closing ->
    Forall (fun ev => is_preparation ev = true) prep ->
    verdict m = "accepted" ->
    Forall (fun ev => is_upload ev = true) ups ->
    ups = [] \/ Exists (fun ev => is_failed_upload ev = true) ups ->
    plain_Error e ->
    Forall (fun ev => is_unlink ev = true) closing ->
    (forall path,
        In (Temp (WriteFile path)) prep -> closing = [Temp (Unlink path)]) ->
    course key st st' (Rejected e)
| course_accepted (prep : list event) (m : result)
    (ups dels closing : list event) (body : payload) :
    trace st' =
    trace st ++ prep ++ Moderated m :: ups ++ dels ++ Sent body :: closing ->
    Forall (fun ev => is_preparation ev = true) prep ->
    verdict m = "accepted" ->
    Forall
      (fun ev =>
         exists b k contentType,
           ev = Storage (R2Upload b k contentType) true)
      ups ->
    Forall (stored ups) (keys_of body) ->
    Forall (fun ev => exists done, ev = Storage (R2Delete key) done) dels ->
    Forall (fun ev => is_unlink ev = true) closing ->
    (forall path,
        In (Temp (WriteFile path)) prep -> closing = [Temp (Unlink path)]) ->
    course key st st' (Fulfilled tt).

(** ** Example collaborators *)

(** The world counts the answers given.  The classifier is
    [example_upstream]; the detector returns a Promise, as that of
    file-type does; the store holds two images and a video and accepts
    everything; the tools never fail, and every frame read back is the
    single byte 0. *)
Definition example_store (op : r2_operation) (w : nat) : r2_upstream * nat :=
  match op with
  | R2Download key =>
      if key =? "uploads/gun.png" then
        (R2Completed (S3Done [Byte.x05; Byte.x01]), S w)
      else if key =? "uploads/cat.png" then
        (R2Completed (S3Done [Byte.x00; Byte.x01]), S w)
      else if key =? "uploads/clip.mp4" then
        (R2Completed (S3Done [Byte.x00; Byte.x02]), S w)
      else
        (R2Completed
           (S3Failed
              {| JsError.name := "NoSuchKey"; JsError.code := None;
                 JsError.status := None;
                 JsError.message := [Lit "The specified key does not exist."]
              |}),
         S w)
  | _ => (R2Completed (S3Done []), S w)
  end.

Definition example_externals : externals nat :=
  {| classifier := example_upstream;
     fromBuffer := fun _ => Some a_promise;
     r2 := example_store;
     settles_first := fun _ => true;
     sharp := fun b _ w => (Fulfilled b, S w);
     uuidv4 := fun w => (FileService.string_of_nat w, S w);
     path_join := fun a b => String.concat "/" [a; b];
     writeFile := fun _ _ w => (None, S w);
     unlink := fun _ w => (None, S w);
     readFile := fun _ w => (Fulfilled [Byte.x00], S w);
     ffprobe := fun _ w => (Fulfilled (Fin 60), S w);
     screenshots := fun _ _ _ w => (None, S w) |}.

Definition start : cstate nat := {| gw := fresh; trace := [] |}.

(** A handler run on the example collaborators, with the configured
    upload settings and moderation service. *)
Abbreviation example_run e req :=
  (ModerationController.handler example_externals config_upload
     configured_service e req start).

Definition example_upload (b : buffer) (name : string) : request :=
  {| file := Some {| file_buffer := b; originalname := name |};
     creatorId := Some "42"; r2Key := None; type := None |}.

Definition example_r2_request (key : string) : request :=
  {| file := None; creatorId := Some "42"; r2Key := Some key;
     type := Some "image" |}.

(** A form sent without a file: multer leaves [req.file] undefined. *)
Definition empty_upload : request :=
  {| file := None; creatorId := Some "42"; r2Key := None; type := None |}.

(** ** Rule evaluation: lemmas *)

Lemma some_at_least_spec categories name t :
  some_at_least categories name t = true <-> has_entry categories name t.
Proof.
  unfold some_at_least, has_entry. rewrite existsb_exists.
  split; intros (c & Hin & H); exists c; split; trivial.
  - apply andb_true_iff in H as [Hn Hs].
    apply String.eqb_eq in Hn. auto.
  - destruct H as [Hn Hs]. apply andb_true_iff.
    split; [now apply String.eqb_eq | assumption].
Qed.

Lemma some_at_least_false categories name t :
  ~ has_entry categories name t -> some_at_least categories name t = false.
Proof.
  intros H. destruct (some_at_least categories name t) eqn:E; trivial.
  apply some_at_least_spec in E. contradiction.
Qed.

(** A rejection always comes with a reason, and an acceptance with none. *)
Lemma first_match_reason l :
  if rejected (first_match l)
  then exists r, In r l /\ reason (first_match l) = Some (Rule.reason r)
  else reason (first_match l) = None.
Proof.
  induction l as [|r l IH]; simpl; trivial.
  destruct (Rule.condition r tt); simpl.
  - exists r. auto.
  - destruct (rejected (first_match l)); trivial.
    destruct IH as (r' & Hin & E). exists r'. auto.
Qed.

Lemma first_match_app l1 l2 :
  first_match (l1 ++ l2) =
  if rejected (first_match l1) then first_match l1 else first_match l2.
Proof.
  induction l1 as [|r l1 IH]; simpl; trivial.
  destruct (Rule.condition r tt); simpl; auto.
Qed.

Lemma first_match_push_if flag r l :
  first_match (push_if flag r l) =
  if rejected (first_match l) then first_match l
  else first_match (if flag then [r] else []).
Proof.
  unfold push_if. destruct flag.
  - apply first_match_app.
  - simpl. pose proof (first_match_reason l) as H.
    destruct (first_match l) as [[] ?]; simpl in *; congruence.
Qed.

(** The rule at the head decides as soon as its condition holds, whatever
    is pushed behind it. *)
Lemma first_match_head_push r l f1 r1 f2 r2 f3 r3 :
  Rule.condition r tt = true ->
  first_match (push_if f3 r3 (push_if f2 r2 (push_if f1 r1 (r :: l)))) =
  {| rejected := true; reason := Some (Rule.reason r) |}.
Proof.
  intros H. rewrite !first_match_push_if. simpl. rewrite H. reflexivity.
Qed.

Lemma apply_child_first this categories :
  has_entry categories "Child" (child (this_thresholds this)) ->
  _applyModerationRules this categories =
  {| rejected := true; reason := Some REASON_CHILD |}.
Proof.
  intros H. apply some_at_least_spec in H.
  unfold _applyModerationRules, rule_list, baseline_rules.
  now rewrite first_match_head_push.
Qed.

(** ** Rule evaluation: theorems *)

(** C1. Zero tolerance: whenever the category list has an entry of
    category "Child" whose severity reaches the child threshold, rule
    evaluation rejects, whatever the other entries, thresholds and flags
    are.  (The reason is then the Child reason.) *)
Theorem child_zero_tolerance (this : service) (categories : list entry) :
  has_entry categories "Child" (child (this_thresholds this)) ->
  rejected (_applyModerationRules this categories) = true
  /\ reason (_applyModerationRules this categories) = Some REASON_CHILD.
Proof.
  intros H. rewrite (apply_child_first _ _ H). split; reflexivity.
Qed.

Lemma child_zero_tolerance_witness :
  rejected (_applyModerationRules configured_service
              [scored "Sexual" 0; scored "Child" 4; scored "Violence" 7])
  = true.
Proof.
  apply (child_zero_tolerance configured_service
           [scored "Sexual" 0; scored "Child" 4; scored "Violence" 7]).
  exists (scored "Child" 4). split; [simpl; auto | split; reflexivity].
Defined.

(** C2 (as amended). With [childWithHate] enabled and the child and hate
    thresholds at 1, the list [Child 1, Hate 1] is rejected, and the reason
    reported is the plain Child reason: the baseline Child rule stands
    first in the array and the compound rules are pushed behind the
    baseline rules. *)
Theorem child_with_hate_reports_child_reason (this : service) :
  childWithHate (this_rules this) = true ->
  child (this_thresholds this) = Fin 1 ->
  hate (this_thresholds this) = Fin 1 ->
  _applyModerationRules this [scored "Child" 1; scored "Hate" 1] =
  {| rejected := true; reason := Some REASON_CHILD |}.
Proof.
  intros _ Hc _. apply apply_child_first. rewrite Hc.
  exists (scored "Child" 1). split; [simpl; auto | split; reflexivity].
Qed.

Lemma child_with_hate_reports_child_reason_witness :
  _applyModerationRules configured_service
    [scored "Child" 1; scored "Hate" 1] =
  {| rejected := true; reason := Some REASON_CHILD |}.
Proof.
  apply (child_with_hate_reports_child_reason configured_service);
    reflexivity.
Defined.

(** C2 as stated fails on the configured service: the reason is not the
    compound child-with-hate reason. *)
Lemma child_with_hate_compound_reason_counterexample :
  childWithHate (this_rules configured_service) = true
  /\ child (this_thresholds configured_service) = Fin 1
  /\ hate (this_thresholds configured_service) = Fin 1
  /\ reason (_applyModerationRules configured_service
               [scored "Child" 1; scored "Hate" 1])
     <> Some REASON_CHILD_WITH_HATE.
Proof.
  repeat split. vm_compute. discriminate.
Qed.

(** The three compound rules all require a Child entry at the child
    threshold, which the first baseline rule catches before them: their
    reasons are never reported. *)
Lemma compound_reasons_never_reported (this : service)
  (categories : list entry) :
  let r := reason (_applyModerationRules this categories) in
  r <> Some REASON_CHILD_WITH_VIOLENCE
  /\ r <> Some REASON_CHILD_WITH_HATE
  /\ r <> Some REASON_SEXUAL_WITH_CHILD.
Proof.
  destruct (some_at_least categories "Child" (child (this_thresholds this)))
    eqn:E.
  - apply some_at_least_spec in E. cbv zeta.
    rewrite (apply_child_first _ _ E). simpl.
    repeat split; discriminate.
  - cbv zeta.
    unfold _applyModerationRules, rule_list, baseline_rules,
      rule_childWithViolence, rule_childWithHate, rule_sexualWithChild.
    rewrite !first_match_push_if. simpl. rewrite E. simpl.
    rewrite andb_false_r.
    repeat match goal with
           | |- context [if ?b then _ else _] => destruct b; simpl
           end;
      repeat split; discriminate.
Qed.

(** C3 (as amended). With the configured thresholds (sexual 3, violence 1)
    and the configured violence bonus 0.5, the list [Sexual 3] is rejected,
    and the reason reported is the Violence reason with score 1.5: a Sexual
    entry of severity 3 or more raises [violenceScore] to 1, the bonus
    makes it 1.5, and the Violence rule stands before the Sexual rule. *)
Theorem sexual_3_reports_violence_reason (this : service) :
  this_thresholds this = config_thresholds ->
  violenceBonus (this_rules this) = Fin (1 # 2) ->
  _applyModerationRules this [scored "Sexual" 3] =
  {| rejected := true; reason := Some (REASON_VIOLENCE (Fin (3 # 2))) |}.
Proof.
  intros Hth Hb.
  unfold _applyModerationRules, rule_list, baseline_rules.
  rewrite !first_match_push_if.
  unfold _detectWeaponsAndViolence. rewrite Hth, Hb. reflexivity.
Qed.

Lemma sexual_3_reports_violence_reason_witness :
  _applyModerationRules configured_service [scored "Sexual" 3] =
  {| rejected := true; reason := Some (REASON_VIOLENCE (Fin (3 # 2))) |}.
Proof.
  apply (sexual_3_reports_violence_reason configured_service); reflexivity.
Defined.

(** C3 as stated fails on the configured service: the reason is not the
    explicit-sexual-content reason. *)
Lemma sexual_3_sexual_reason_counterexample :
  sexual (this_thresholds configured_service) = Fin 3
  /\ this_thresholds configured_service = config_thresholds
  /\ reason (_applyModerationRules configured_service [scored "Sexual" 3])
     <> Some REASON_SEXUAL.
Proof.
  repeat split. vm_compute. discriminate.
Qed.

(** C4. When no entry meets the threshold of its own category, the boosted
    violence and weapon scores stay below the Violence and Weapons
    thresholds, and no enabled compound rule is satisfied, rule evaluation
    returns [{ rejected: false, reason: null }]; for every category list
    and every configuration. *)
Theorem no_rule_matches_is_accepted (this : service)
  (categories : list entry) :
  (forall c, In c categories ->
             ~ entry_meets_own_threshold (this_thresholds this) c) ->
  ~ boosted_score_meets_threshold this categories ->
  ~ compound_rule_satisfied this categories ->
  _applyModerationRules this categories =
  {| rejected := false; reason := None |}.
Proof.
  intros Hentries Hboost _.
  assert (Hno : forall name t,
             (forall c, category c = name -> js_ge (severity c) t = true ->
                        entry_meets_own_threshold (this_thresholds this) c) ->
             some_at_least categories name t = false).
  { intros name t Hmeet. apply some_at_least_false.
    intros (c & Hin & Hn & Hs). apply (Hentries c Hin). auto. }
  unfold boosted_score_meets_threshold in Hboost. cbv zeta in Hboost.
  apply Decidable.not_or in Hboost as [Hv Hw].
  apply not_true_is_false in Hv, Hw.
  unfold _applyModerationRules.
  remember (_detectWeaponsAndViolence this categories) as s eqn:Es.
  unfold rule_list, baseline_rules,
    rule_childWithViolence, rule_childWithHate, rule_sexualWithChild.
  rewrite !first_match_push_if. simpl.
  rewrite Hv, Hw.
  rewrite (Hno "Child" (child (this_thresholds this))),
          (Hno "Hate" (hate (this_thresholds this))),
          (Hno "SelfHarm" (selfHarm (this_thresholds this))),
          (Hno "Sexual" (sexual (this_thresholds this)));
    try (intros c Hn Hs; unfold entry_meets_own_threshold; tauto).
  simpl. rewrite andb_false_r.
  now destruct (childWithViolence _), (childWithHate _), (sexualWithChild _).
Qed.

Lemma no_rule_matches_is_accepted_witness :
  _applyModerationRules configured_service
    [scored "Sexual" 2; scored "Violence" 0; scored "Hate" 0] =
  {| rejected := false; reason := None |}.
Proof.
  apply (no_rule_matches_is_accepted configured_service
           [scored "Sexual" 2; scored "Violence" 0; scored "Hate" 0]).
  - intros c [E | [E | [E | []]]]; subst c;
      unfold entry_meets_own_threshold; simpl;
      intros [[H1 H2] | [[H1 H2] | [[H1 H2] | [H1 H2]]]]; discriminate.
  - unfold boosted_score_meets_threshold. vm_compute.
    intros [H | H]; discriminate.
  - unfold compound_rule_satisfied, has_entry. cbv zeta.
    intros [(_ & (c & Hin & Hn & Hs) & _)
           | [(_ & (c & Hin & Hn & Hs) & _)
             | (_ & _ & (c & Hin & Hn & Hs))]];
      simpl in Hin; destruct Hin as [E | [E | [E | []]]]; subst c;
      discriminate.
Defined.

(** The hypothesis on the boosted scores cannot be replaced by one on the
    entries alone: with the hate threshold raised to 5, a Hate entry of
    severity 1 is below its own threshold, yet it feeds [weaponScore],
    which the Weapons rule compares with its threshold 1. *)
Lemma weapons_rule_reads_hate_entries :
  let this :=
    {| this_thresholds :=
         {| violence := Fin 1; weapons := Fin 1; hate := Fin 5;
            selfHarm := Fin 1; sexual := Fin 3; child := Fin 1 |};
       this_rules := config_rules |} in
  ~ entry_meets_own_threshold (this_thresholds this) (scored "Hate" 1)
  /\ _applyModerationRules this [scored "Hate" 1] =
     {| rejected := true; reason := Some (REASON_WEAPONS (Fin (3 # 2))) |}.
Proof.
  split.
  - unfold entry_meets_own_threshold. simpl.
    intros [[H1 H2] | [[H1 H2] | [[H1 H2] | [H1 H2]]]]; discriminate.
  - reflexivity.
Qed.

(** ** Numbers: lemmas *)

Ltac qbool :=
  repeat match goal with
         | H : Qle_bool _ _ = true |- _ => apply Qle_bool_iff in H
         | H : Qle_bool _ _ = false |- _ =>
             apply not_true_iff_false in H; rewrite Qle_bool_iff in H
         | H : Qeq_bool _ _ = true |- _ => apply Qeq_bool_iff in H
         | H : Qeq_bool _ _ = false |- _ => apply Qeq_bool_neq in H
         | |- context [Qle_bool ?x ?y] => destruct (Qle_bool x y) eqn:?
         | |- context [Qeq_bool ?x ?y] => destruct (Qeq_bool x y) eqn:?
         end.

Ltac num_cases :=
  unfold absorbs_zero, add_bonus, bonus_when_nonzero in *;
  unfold Math_max, num_gt, num_ge, num_add, num_eq in *;
  simpl in *; qbool; simpl in *; try tauto; try lra; try discriminate.

#[global] Instance num_eq_equiv : Equivalence num_eq.
Proof.
  split.
  - intros []; simpl; auto with qarith.
  - intros [] []; simpl; auto with qarith.
  - intros [] [] []; simpl; try tauto. intros. etransitivity; eauto.
Qed.

#[global] Instance Math_max_proper :
  Proper (num_eq ==> num_eq ==> num_eq) Math_max.
Proof. intros [] [] H1 [] [] H2; try contradiction; num_cases. Qed.

#[global] Instance num_add_proper :
  Proper (num_eq ==> num_eq ==> num_eq) num_add.
Proof. intros [] [] H1 [] [] H2; try contradiction; num_cases. Qed.

#[global] Instance add_bonus_proper :
  Proper (num_eq ==> num_eq ==> num_eq) add_bonus.
Proof. intros [] [] H1 [] [] H2; try contradiction; num_cases. Qed.

Lemma Math_max_comm a b : num_eq (Math_max a b) (Math_max b a).
Proof. destruct a, b; num_cases. Qed.

Lemma Math_max_assoc a b c :
  num_eq (Math_max a (Math_max b c)) (Math_max (Math_max a b) c).
Proof. destruct a, b, c; num_cases. Qed.

Lemma absorbs_zero_max a b : absorbs_zero a -> absorbs_zero (Math_max a b).
Proof. destruct a, b; num_cases. Qed.

(** On a score that is 0 or more, or NaN, "greater than 0" and "not zero"
    select the same scores for the bonus. *)
Lemma add_bonus_when_nonzero bonus score :
  absorbs_zero score ->
  num_eq (add_bonus bonus score) (bonus_when_nonzero bonus score).
Proof. destruct score, bonus; num_cases. Qed.

Lemma num_add_assoc a b c :
  num_eq (num_add a (num_add b c)) (num_add (num_add a b) c).
Proof. destruct a, b, c; num_cases. Qed.

Lemma num_add_zero_r a : num_eq (num_add a (Fin 0)) a.
Proof. destruct a; num_cases. Qed.

Lemma num_add_zero_l a : num_eq (num_add (Fin 0) a) a.
Proof. destruct a; num_cases. Qed.

#[global] Instance num_div_proper :
  Proper (num_eq ==> eq ==> num_eq) num_div.
Proof.
  intros [x| | |] [y| | |] H1 b ? <-; try contradiction;
    try reflexivity.
  destruct b as [d| | |]; try reflexivity.
  assert (H : x == y) by exact H1.
  unfold num_div.
  destruct (Qeq_bool d 0); [| simpl; now rewrite H].
  destruct (Qeq_bool x 0) eqn:Ex, (Qeq_bool y 0) eqn:Ey,
    (Qle_bool 0 x) eqn:Lx, (Qle_bool 0 y) eqn:Ly;
    simpl; trivial; qbool; lra.
Qed.

Lemma fold_left_Qplus qs : forall a,
  fold_left Qplus qs a == a + fold_right Qplus 0 qs.
Proof.
  induction qs as [|q qs IH]; intros a; simpl.
  - lra.
  - rewrite IH. lra.
Qed.

Lemma length_not_zero n : Qeq_bool (inject_Z (Z.of_nat (S n))) 0 = false.
Proof.
  apply not_true_iff_false. rewrite Qeq_bool_iff.
  unfold Qeq, inject_Z. simpl. lia.
Qed.

Lemma length_positive n : 0 < inject_Z (Z.of_nat (S n)).
Proof. unfold Qlt, inject_Z. simpl. lia. Qed.

Lemma num_div_not_negative a n :
  not_negative a -> not_negative (num_div a (num_of_nat (S n))).
Proof.
  unfold num_of_nat, num_div, not_negative.
  destruct a; trivial.
  rewrite length_not_zero. intros H.
  apply Qle_shift_div_l; [apply length_positive | lra].
Qed.

(** ** Score calculators: lemmas *)

Lemma detect_step_violence s c :
  violenceScore (detect_step s c) =
  if is_violence c then Math_max (violenceScore s) (severity_or_zero c)
  else if is_explicit_sexual c then Math_max (violenceScore s) (Fin 1)
  else violenceScore s.
Proof.
  unfold detect_step, is_violence, is_explicit_sexual, severity_or_zero.
  destruct (category c =? "Violence") eqn:EV.
  - apply String.eqb_eq in EV. rewrite EV. reflexivity.
  - destruct (category c =? "Hate"), (category c =? "SelfHarm"),
      (category c =? "Sexual"), (js_ge (severity c) (Fin 1)),
      (js_ge (severity c) (Fin 3)); reflexivity.
Qed.

Lemma detect_step_weapon s c :
  weaponScore (detect_step s c) =
  if is_weapon_proxy c then Math_max (weaponScore s) (severity_or_zero c)
  else weaponScore s.
Proof.
  unfold detect_step, is_weapon_proxy, severity_or_zero.
  destruct (category c =? "Hate") eqn:EH.
  - apply String.eqb_eq in EH. rewrite EH. simpl.
    destruct (js_ge (severity c) (Fin 1)); reflexivity.
  - destruct (category c =? "Violence"), (category c =? "SelfHarm"),
      (category c =? "Sexual"), (js_ge (severity c) (Fin 1)),
      (js_ge (severity c) (Fin 3)); reflexivity.
Qed.

Lemma Math_max_one_floor l :
  num_eq (Math_max (Fin 1) (sexual_floor l)) (Fin 1).
Proof. unfold sexual_floor. destruct (existsb _ _); num_cases. Qed.

Lemma max_severity_cons c l :
  max_severity (c :: l) = Math_max (severity_or_zero c) (max_severity l).
Proof. reflexivity. Qed.

Lemma Math_max_zero_max_severity l :
  num_eq (Math_max (Fin 0) (max_severity l)) (max_severity l).
Proof.
  induction l as [|c l IH].
  - reflexivity.
  - rewrite max_severity_cons.
    rewrite Math_max_assoc, (Math_max_comm (Fin 0)), <- Math_max_assoc.
    rewrite IH. reflexivity.
Qed.

Lemma max_severity_absorbs_zero l : absorbs_zero (max_severity l).
Proof.
  unfold absorbs_zero. rewrite Math_max_comm.
  apply Math_max_zero_max_severity.
Qed.

(** The loop, from any scores that are 0 or more: the violence score ends
    as the maximum of its start value, of the Violence severities and of
    the floor set by explicit Sexual entries. *)
Lemma fold_detect_violence l : forall s,
  absorbs_zero (violenceScore s) ->
  num_eq (violenceScore (fold_left detect_step l s))
    (Math_max (violenceScore s)
       (Math_max (max_severity (filter is_violence l)) (sexual_floor l))).
Proof.
  induction l as [|c l IH]; intros s Hs.
  - simpl. unfold sexual_floor. simpl. symmetry.
    unfold absorbs_zero in Hs. rewrite <- Hs at 2.
    destruct (violenceScore s); num_cases.
  - simpl fold_left. rewrite IH; rewrite detect_step_violence.
    + unfold sexual_floor at 2. simpl filter. simpl existsb.
      destruct (is_violence c) eqn:EV.
      * assert (ES : is_explicit_sexual c = false).
        { unfold is_violence in EV. unfold is_explicit_sexual.
          apply String.eqb_eq in EV. now rewrite EV. }
        rewrite ES. simpl. fold (sexual_floor l).
        rewrite <- !Math_max_assoc. reflexivity.
      * destruct (is_explicit_sexual c) eqn:ES; simpl.
        -- rewrite <- Math_max_assoc.
           rewrite (Math_max_assoc (Fin 1)).
           rewrite (Math_max_comm (Fin 1)).
           rewrite <- (Math_max_assoc _ (Fin 1)).
           rewrite Math_max_one_floor. reflexivity.
        -- reflexivity.
    + destruct (is_violence c); [now apply absorbs_zero_max|].
      destruct (is_explicit_sexual c); [now apply absorbs_zero_max|trivial].
Qed.

Lemma fold_detect_weapon l : forall s,
  absorbs_zero (weaponScore s) ->
  num_eq (weaponScore (fold_left detect_step l s))
    (Math_max (weaponScore s) (max_severity (filter is_weapon_proxy l))).
Proof.
  induction l as [|c l IH]; intros s Hs.
  - simpl. symmetry. exact Hs.
  - simpl fold_left. rewrite IH; rewrite detect_step_weapon.
    + simpl filter. destruct (is_weapon_proxy c); simpl.
      * rewrite <- Math_max_assoc. reflexivity.
      * reflexivity.
    + destruct (is_weapon_proxy c); [now apply absorbs_zero_max|trivial].
Qed.

Lemma contributes_numeric c q : contributes c q -> numeric_severity c = Fin q.
Proof.
  unfold contributes, numeric_severity.
  destruct (severity c) as [[]| | | |]; simpl; intros; subst; tauto.
Qed.

Lemma severity_sum_finite categories qs :
  Forall2 contributes categories qs ->
  forall a, severity_sum categories (Fin a) = Fin (fold_left Qplus qs a).
Proof.
  unfold severity_sum.
  induction 1 as [|c q l qs Hc _ IH]; intros a; simpl; trivial.
  rewrite (contributes_numeric _ _ Hc). simpl. apply IH.
Qed.

Lemma severity_sum_not_negative categories :
  Forall no_negative_severity categories ->
  forall a, not_negative a -> not_negative (severity_sum categories a).
Proof.
  unfold severity_sum.
  induction 1 as [|c l Hc _ IH]; intros a Ha; simpl; trivial.
  apply IH. unfold no_negative_severity, numeric_severity in *.
  destruct (severity c) as [[]| | | |], a; simpl in *; try tauto; lra.
Qed.

(** ** Score calculators: theorems *)

Lemma contributes_integer_rational c z :
  contributes_integer c z -> exists q, contributes c q /\ q == inject_Z z.
Proof.
  unfold contributes_integer, contributes.
  destruct (severity c) as [[x | | |] | | | |]; intros H;
    try contradiction; try (subst z; exists 0; split; reflexivity).
  exists x. split; [reflexivity | exact H].
Qed.

Lemma integer_contributions l zs :
  Forall2 contributes_integer l zs ->
  exists qs,
    Forall2 contributes l qs
    /\ fold_right Qplus 0 qs == inject_Z (fold_right Z.add 0%Z zs).
Proof.
  induction 1 as [| c z l zs Hc _ (qs & IH & Hs)].
  - exists []. split; [constructor | reflexivity].
  - destruct (contributes_integer_rational c z Hc) as (q & Hq & E).
    exists (q :: qs). split; [constructor; assumption |].
    cbn [fold_right]. rewrite inject_Z_plus, Hs, E. reflexivity.
Qed.

(** On integer severities the score is, in the exact arithmetic of the
    model, their mean. *)
Lemma calculateAIScore_integers categories zs :
  categories <> [] ->
  Forall2 contributes_integer categories zs ->
  exists q, _calculateAIScore categories = Fin q /\ q == Zmean zs.
Proof.
  intros Hne H.
  destruct (integer_contributions _ _ H) as (qs & Hc & Hs).
  pose proof (Forall2_length H) as Hlen.
  unfold _calculateAIScore.
  destruct categories as [| c l]; [congruence |].
  change (List.length (c :: l) =? 0)%nat with false. cbv iota.
  fold (severity_sum (c :: l) (Fin 0)).
  rewrite (severity_sum_finite _ _ Hc).
  cbn [List.length]. unfold num_of_nat, num_div.
  rewrite length_not_zero. cbn [isNaN negb].
  eexists. split; [reflexivity |].
  unfold Zmean. rewrite <- Hlen. cbn [List.length].
  rewrite fold_left_Qplus, Qplus_0_l, Hs. reflexivity.
Qed.

Lemma rounded_exact x y : y == x -> rounded x y.
Proof.
  intros E. split; [| intros _; exact E].
  assert (E0 : y - x == 0) by (rewrite E; ring).
  rewrite E0. change (Qabs 0) with 0.
  apply Qmult_le_0_compat; [discriminate | apply Qabs_nonneg].
Qed.

(** C5 (as amended). [_calculateAIScore] returns 0 for the empty list and
    never NaN.  On a non-empty list of integer severities, a severity
    that is not a number counting for 0 (and for one element of the
    length), it returns their arithmetic mean as the division of doubles
    gives it: within one rounding of the mean, and the mean itself when
    that is a double.  It is not negative provided no severity is a
    negative number.

    The model adds and divides exactly; [exactly_summable] and
    [rounded] state the part of this that the doubles of the program
    share. *)
Theorem ai_score_is_guarded_mean (categories : list entry) :
  _calculateAIScore [] = Fin 0
  /\ isNaN (_calculateAIScore categories) = false
  /\ (forall zs,
        categories <> [] ->
        Forall2 contributes_integer categories zs ->
        exactly_summable zs ->
        exists q,
          _calculateAIScore categories = Fin q /\ rounded (Zmean zs) q)
  /\ (Forall no_negative_severity categories ->
      num_ge (_calculateAIScore categories) (Fin 0) = true).
Proof.
  split; [reflexivity |]. split; [| split].
  - unfold _calculateAIScore.
    destruct (List.length categories =? 0)%nat; trivial.
    destruct (num_div _ _); reflexivity.
  - intros zs Hne H _.
    destruct (calculateAIScore_integers _ _ Hne H) as (q & E & Hq).
    exists q. split; [exact E | apply rounded_exact, Hq].
  - intros H. unfold _calculateAIScore.
    destruct categories as [|c l]; [reflexivity|].
    change (List.length (c :: l) =? 0)%nat with false. cbv iota.
    fold (severity_sum (c :: l) (Fin 0)).
    assert (Hs : not_negative (severity_sum (c :: l) (Fin 0))).
    { apply severity_sum_not_negative; [assumption | simpl; lra]. }
    apply (num_div_not_negative _ (List.length l)) in Hs.
    cbn [List.length].
    destruct (num_div _ _); simpl in *; trivial; try tauto.
    now apply Qle_bool_iff.
Qed.

Lemma ai_score_is_guarded_mean_witness :
  let categories :=
    [scored "Violence" 4;
     {| category := "Sexual"; severity := VUndefined |};
     scored "Hate" 2] in
  (exists q,
      _calculateAIScore categories = Fin q
      /\ rounded (Zmean [4; 0; 2]%Z) q)
  /\ num_ge (_calculateAIScore categories) (Fin 0) = true.
Proof.
  intros categories.
  destruct (ai_score_is_guarded_mean categories)
    as (_ & _ & Hmean & Hpos).
  split.
  - apply Hmean; [discriminate | repeat constructor |].
    split; [vm_compute; discriminate | reflexivity].
  - apply Hpos. repeat constructor; discriminate.
Defined.

(** C5 as stated fails: a negative severity gives a negative score. *)
Lemma ai_score_negative_counterexample :
  _calculateAIScore [scored "Hate" (-1)] = Fin (-1)
  /\ num_ge (_calculateAIScore [scored "Hate" (-1)]) (Fin 0) = false.
Proof. split; reflexivity. Qed.

(** The two values given by the specification. *)
Lemma ai_score_examples :
  _calculateAIScore [] = Fin 0
  /\ num_eq (_calculateAIScore [scored "Violence" 4; scored "Sexual" 2])
       (Fin 3).
Proof. split; reflexivity. Qed.

(** An infinite severity of each sign: the sum is NaN and the guard of the
    last line returns 0. *)
Lemma ai_score_guard_example :
  _calculateAIScore
    [ {| category := "Hate"; severity := VNumber PInf |};
      {| category := "Hate"; severity := VNumber NInf |} ] = Fin 0.
Proof. reflexivity. Qed.

(** C6 (as amended). [violenceScore] is the larger of the maximum severity
    among Violence entries and of 1 when some Sexual entry has severity 3
    or more (the Sexual entry sets a floor of 1, it does not add 1);
    [weaponScore] is the maximum severity among Hate and SelfHarm entries
    of severity 1 or more; each score, when not zero, then receives its
    configured bonus.  Maxima start from 0 and read [severity || 0]. *)
Theorem detect_scores_are_floored_maxima (this : service)
  (categories : list entry) :
  let s := _detectWeaponsAndViolence this categories in
  num_eq (violenceScore s)
    (bonus_when_nonzero (violenceBonus (this_rules this))
       (Math_max (max_severity (filter is_violence categories))
          (sexual_floor categories)))
  /\ num_eq (weaponScore s)
       (bonus_when_nonzero (weaponBonus (this_rules this))
          (max_severity (filter is_weapon_proxy categories))).
Proof.
  cbv zeta. unfold _detectWeaponsAndViolence.
  cbn [violenceScore weaponScore]. split.
  - rewrite fold_detect_violence by (simpl; reflexivity).
    cbn [violenceScore].
    rewrite Math_max_assoc, Math_max_zero_max_severity.
    apply add_bonus_when_nonzero, absorbs_zero_max, max_severity_absorbs_zero.
  - rewrite fold_detect_weapon by (simpl; reflexivity).
    cbn [weaponScore].
    rewrite Math_max_zero_max_severity.
    apply add_bonus_when_nonzero, max_severity_absorbs_zero.
Qed.

(** C6 as stated fails: with a Violence entry of severity 4 and a Sexual
    entry of severity 3 the score is 4 + 0.5, not 4 + 1 + 0.5. *)
Lemma violence_plus_one_counterexample :
  let categories := [scored "Violence" 4; scored "Sexual" 3] in
  violenceScore (_detectWeaponsAndViolence configured_service categories)
  = Fin (9 # 2)
  /\ violenceScore_plus_one configured_service categories = Fin (11 # 2)
  /\ ~ num_eq
         (violenceScore
            (_detectWeaponsAndViolence configured_service categories))
         (violenceScore_plus_one configured_service categories).
Proof.
  cbv zeta. repeat split. vm_compute. discriminate.
Qed.

(** The boosted score of the specification's scenario: a Violence entry of
    severity 1 scores 1.5 and is rejected. *)
Lemma violence_1_is_rejected :
  violenceScore
    (_detectWeaponsAndViolence configured_service [scored "Violence" 1])
  = Fin (3 # 2)
  /\ rejected
       (_applyModerationRules configured_service [scored "Violence" 1])
     = true.
Proof. split; reflexivity. Qed.

(** ** Gateway: lemmas *)

Lemma rule_reasons_truthy this categories w v r :
  In r (rule_list this categories w v) ->
  text_truthy (Rule.reason r) = true.
Proof.
  unfold rule_list, push_if, baseline_rules.
  destruct (childWithViolence _), (childWithHate _), (sexualWithChild _);
    simpl; intuition (subst; reflexivity).
Qed.

Lemma apply_reason this categories :
  (rejected (_applyModerationRules this categories) = true
   /\ exists t, reason (_applyModerationRules this categories) = Some t
                /\ text_truthy t = true)
  \/ (rejected (_applyModerationRules this categories) = false
      /\ reason (_applyModerationRules this categories) = None).
Proof.
  unfold _applyModerationRules.
  set (s := _detectWeaponsAndViolence this categories).
  pose proof (first_match_reason
                (rule_list this categories (weaponScore s) (violenceScore s)))
    as H.
  destruct (rejected (first_match _)).
  - left. split; trivial. destruct H as (r & Hin & E).
    exists (Rule.reason r). split; trivial.
    eapply rule_reasons_truthy; eauto.
  - right. auto.
Qed.

Lemma classification_well_formed this categories :
  well_formed (classification this categories).
Proof.
  unfold well_formed, classification. simpl.
  destruct (apply_reason this categories) as [[-> H] | [-> H]]; auto.
Qed.

Lemma callAzureAPI_well_formed this h r :
  _callAzureAPI this h = Returned r -> well_formed r.
Proof.
  unfold _callAzureAPI.
  destruct (axios_post h) as [[[status statusText] data]|]; [|discriminate].
  destruct (negb (status =? 200)%Z); [discriminate|].
  destruct data; try discriminate; intros E; injection E as <-;
    apply classification_well_formed.
Qed.

Section GatewayFacts.

Context {world : Type}.
Variable upstream_step : buffer -> world -> upstream * world.
Variable this : service.

Lemma fire_returned b s r s' :
  fire upstream_step this b s = (Returned r, s') ->
  calls s' = calls s ++ [b] /\ well_formed r.
Proof.
  unfold fire.
  destruct (upstream_step b (the_world s)) as [[| |h] w]; try discriminate.
  intros E. injection E as E <-. split; trivial.
  eapply callAzureAPI_well_formed; eauto.
Qed.

Lemma fire_throws_iff b s :
  upstream_fails (fst (upstream_step b (the_world s))) = true <->
  exists e s', fire upstream_step this b s = (Thrown e, s').
Proof.
  unfold fire.
  destruct (upstream_step b (the_world s)) as [u w]. simpl fst.
  destruct u as [| |[|status statusText data]]; simpl.
  1-3: split; [intros _; do 2 eexists; reflexivity | reflexivity].
  unfold _callAzureAPI, axios_post.
  destruct (status <? 500)%Z eqn:E500.
  - destruct (status =? 200)%Z eqn:E200; simpl.
    + destruct data; simpl; split;
        try discriminate; try (intros (e & s' & E); discriminate);
        intros _; do 2 eexists; reflexivity.
    + split; [intros _; do 2 eexists; reflexivity | reflexivity].
  - assert ((status =? 200)%Z = false) as -> by lia. simpl.
    split; [intros _; do 2 eexists; reflexivity | reflexivity].
Qed.

Lemma accepted_run_calls l s rs s' :
  accepted_run upstream_step this l s rs s' ->
  calls s' = calls s ++ l /\ Forall (fun r => verdict r = "accepted") rs.
Proof.
  induction 1 as [s | b l s r s1 rs s2 Hf Hv _ [IHc IHa]].
  - rewrite app_nil_r. auto.
  - apply fire_returned in Hf as [Hc _]. split.
    + rewrite IHc, Hc, <- app_assoc. reflexivity.
    + constructor; assumption.
Qed.

Lemma frames_loop_accepted l s rs s1 :
  accepted_run upstream_step this l s rs s1 ->
  forall rest acc,
    frames_loop upstream_step this (l ++ rest) acc s =
    frames_loop upstream_step this rest (acc ++ rs) s1.
Proof.
  induction 1 as [s | b l s r s1 rs s2 Hf Hv _ IH]; intros rest acc.
  - rewrite app_nil_r. reflexivity.
  - simpl. unfold bind at 1. rewrite Hf, Hv. simpl.
    rewrite IH, <- app_assoc. reflexivity.
Qed.

End GatewayFacts.

Lemma find_rejected_after_accepted rs r :
  Forall (fun x => verdict x = "accepted") rs ->
  verdict r = "rejected" ->
  find (fun x => verdict x =? "rejected") (rs ++ [r]) = Some r
  /\ existsb (fun x => verdict x =? "rejected") (rs ++ [r]) = true.
Proof.
  intros Ha Hr. induction Ha as [|x rs Hx _ [IH1 IH2]]; simpl.
  - rewrite Hr. auto.
  - rewrite Hx. simpl. auto.
Qed.

Lemma none_rejected rs :
  Forall (fun x => verdict x = "accepted") rs ->
  existsb (fun x => verdict x =? "rejected") rs = false.
Proof.
  induction 1 as [|x rs Hx _ IH]; simpl; trivial.
  rewrite Hx. simpl. assumption.
Qed.

Lemma flat_map_categories rs :
  flat_map categories rs = List.concat (map categories rs).
Proof. apply flat_map_concat_map. Qed.

(** ** Gateway: theorems *)

Section GatewayTheorems.

Context {world : Type}.
Variable upstream_step : buffer -> world -> upstream * world.
Variable this : service.

(** The entry point never lets an error escape. *)
Lemma moderateImage_returns b s :
  exists r s', moderateImage upstream_step this b s = (Returned r, s').
Proof.
  unfold moderateImage, try_catch, bind.
  destruct (fire upstream_step this b s) as [[r | e] s'];
    do 2 eexists; reflexivity.
Qed.

(** C7, for the failures that the code rejects. When the classifier call
    fails because the breaker is open, the breaker's timeout expires, the
    request gets no response or a status of 500 and more, the status is
    not 200, or the body of a 200 response is null or holds under
    [categoriesAnalysis] a truthy value that is not an array,
    [moderateImage] returns (it does not throw) the fixed fail-closed
    result: verdict 'rejected' with the 'service temporarily unavailable'
    reason, no categories and score 0.  The buffer is recorded as
    submitted unless the breaker was open.  A 200 response whose body has
    no [categoriesAnalysis], or a falsy one, is not among these
    failures. *)
Theorem image_moderation_fails_closed (b : buffer) (s : state world)
  (u : upstream) (w : world) :
  upstream_step b (the_world s) = (u, w) ->
  upstream_fails u = true ->
  moderateImage upstream_step this b s =
  (Returned
     {| verdict := "rejected";
        rejectionReason := Some FALLBACK_REASON;
        categories := [];
        ai_score := Fin 0 |},
   {| the_world := w;
      calls := match u with
               | CircuitOpen => calls s
               | _ => calls s ++ [b]
               end |}).
Proof.
  intros Hu Hfails.
  unfold moderateImage, try_catch, bind, fire. rewrite Hu.
  destruct u as [| | [| status statusText data]]; try reflexivity.
  cbn in Hfails. unfold _callAzureAPI, axios_post.
  destruct (status <? 500)%Z eqn:E500; [| reflexivity].
  destruct (status =? 200)%Z eqn:E200; cbn [negb]; [| reflexivity].
  cbn in Hfails. destruct data; try discriminate; reflexivity.
Qed.

(** C8. Frames are submitted in order and none is submitted after a
    rejected one: when the frames of [pre] are accepted and the next
    frame [f] is rejected, the classifier has received exactly the
    frames of [pre] and [f], the state is the one left by [f], and the
    video is rejected with the rejection reason of [f]. *)
Theorem video_rejection_short_circuits (pre post : list buffer)
  (f : buffer) (s s1 s2 : state world) (rs : list result) (r : result) :
  accepted_run upstream_step this pre s rs s1 ->
  fire upstream_step this f s1 = (Returned r, s2) ->
  verdict r = "rejected" ->
  exists v,
    moderateVideo upstream_step this (pre ++ f :: post) s = (Returned v, s2)
    /\ calls s2 = calls s ++ pre ++ [f]
    /\ verdict v = "rejected"
    /\ rejectionReason v = rejectionReason r
    /\ rejectionReason r <> None.
Proof.
  intros Hrun Hf Hv.
  pose proof (accepted_run_calls _ _ _ _ _ _ Hrun) as [Hcalls Hacc].
  pose proof (fire_returned _ _ _ _ _ _ Hf) as [Hc Hwf].
  destruct Hwf as [[Ha _] | [_ (t & Ht & Htruthy)]]; [congruence|].
  destruct (find_rejected_after_accepted rs r Hacc Hv) as [Hfind Hany].
  eexists. split; [|split; [|split; [|split]]].
  - unfold moderateVideo, try_catch. unfold bind at 1.
    rewrite (frames_loop_accepted _ _ _ _ _ _ Hrun). simpl.
    unfold bind at 1. rewrite Hf, Hv. simpl.
    unfold bind, lift, _calculateVideoVerdict.
    rewrite Hany, Hfind. reflexivity.
  - rewrite Hc, Hcalls, <- app_assoc. reflexivity.
  - reflexivity.
  - simpl. rewrite Ht. simpl. now rewrite Htruthy.
  - congruence.
Qed.

(** C9. When all the frames are accepted the video is accepted; its
    categories are the concatenation of the frames' category lists and
    its score is the score of this concatenation, the one a single image
    with these categories gets: 0 when there is no category, and on
    integer severities the mean over the concatenation as the division of
    doubles gives it (within one rounding of the mean, and the mean
    itself when that is a double).  This is not the average of the
    frames' scores, as [example_frames] shows. *)
Theorem video_all_accepted_pools_categories (thumbnails : list buffer)
  (s s1 : state world) (rs : list result) :
  accepted_run upstream_step this thumbnails s rs s1 ->
  let allCategories := List.concat (map categories rs) in
  moderateVideo upstream_step this thumbnails s =
  (Returned
     {| verdict := "accepted";
        categories := allCategories;
        rejectionReason := None;
        ai_score := _calculateAIScore allCategories |},
   s1)
  /\ _calculateAIScore allCategories =
     ai_score (classification this allCategories)
  /\ (allCategories = [] -> _calculateAIScore allCategories = Fin 0)
  /\ (forall zs,
        allCategories <> [] ->
        Forall2 contributes_integer allCategories zs ->
        exactly_summable zs ->
        exists q,
          _calculateAIScore allCategories = Fin q
          /\ rounded (Zmean zs) q)
  /\ ~ num_eq
         (_calculateAIScore (List.concat (map categories example_frames)))
         (mean_of_frame_scores example_frames).
Proof.
  intros Hrun allCategories.
  pose proof (accepted_run_calls _ _ _ _ _ _ Hrun) as [_ Hacc].
  split; [| split; [| split; [| split]]].
  - unfold moderateVideo, try_catch. unfold bind at 1.
    pose proof (frames_loop_accepted _ _ _ _ _ _ Hrun [] []) as E.
    rewrite app_nil_r in E. rewrite E. simpl.
    unfold bind, lift, _calculateVideoVerdict.
    rewrite (none_rejected _ Hacc), flat_map_categories. reflexivity.
  - reflexivity.
  - intros ->. reflexivity.
  - intros zs Hne H _.
    destruct (calculateAIScore_integers _ _ Hne H) as (q & E & Hq).
    exists q. split; [exact E | apply rounded_exact, Hq].
  - vm_compute. discriminate.
Qed.

(** C10. Without frames no classifier call is made (the state is
    unchanged) and the video is accepted, with no categories and
    score 0. *)
Theorem video_without_frames_is_accepted (s : state world) :
  moderateVideo upstream_step this [] s =
  (Returned
     {| verdict := "accepted";
        categories := [];
        rejectionReason := None;
        ai_score := Fin 0 |},
   s).
Proof. reflexivity. Qed.

End GatewayTheorems.

Lemma image_moderation_fails_closed_witness :
  moderateImage example_upstream configured_service [] fresh =
  (Returned
     {| verdict := "rejected";
        rejectionReason := Some FALLBACK_REASON;
        categories := [];
        ai_score := Fin 0 |},
   {| the_world := 1%nat; calls := [] |}).
Proof.
  apply (image_moderation_fails_closed example_upstream configured_service
           [] fresh CircuitOpen 1%nat); reflexivity.
Defined.

(** Three frames of which the second is rejected: two classifier calls. *)
Lemma video_rejection_short_circuits_witness :
  exists v s2,
    moderateVideo example_upstream configured_service
      [frame Byte.x01; frame Byte.x05; frame Byte.x00] fresh
    = (Returned v, s2)
    /\ calls s2 = [frame Byte.x01; frame Byte.x05]
    /\ List.length (calls s2) = 2%nat
    /\ verdict v = "rejected"
    /\ rejectionReason v = Some (REASON_VIOLENCE (Fin (3 # 2))).
Proof.
  destruct (video_rejection_short_circuits example_upstream
              configured_service
              [frame Byte.x01] [frame Byte.x00] (frame Byte.x05)
              fresh
              {| the_world := 1%nat; calls := [frame Byte.x01] |}
              {| the_world := 2%nat;
                 calls := [frame Byte.x01; frame Byte.x05] |}
              [classification configured_service [scored "Sexual" 1]]
              (classification configured_service [scored "Sexual" 5]))
    as (v & Hv & Hcalls & Hverdict & Hreason & _).
  - econstructor; [reflexivity | reflexivity | constructor].
  - reflexivity.
  - reflexivity.
  - exists v, {| the_world := 2%nat;
                 calls := [frame Byte.x01; frame Byte.x05] |}.
    repeat split; assumption.
Defined.

Lemma video_all_accepted_pools_categories_witness :
  moderateVideo example_upstream configured_service
    [frame Byte.x02; frame Byte.x00] fresh =
  (Returned
     {| verdict := "accepted";
        categories := [scored "Sexual" 2; scored "Sexual" 0];
        rejectionReason := None;
        ai_score := _calculateAIScore [scored "Sexual" 2; scored "Sexual" 0] |},
   {| the_world := 2%nat; calls := [frame Byte.x02; frame Byte.x00] |})
  /\ exists q,
       _calculateAIScore [scored "Sexual" 2; scored "Sexual" 0] = Fin q
       /\ rounded (Zmean [2; 0]%Z) q.
Proof.
  destruct (video_all_accepted_pools_categories example_upstream
              configured_service [frame Byte.x02; frame Byte.x00] fresh
              {| the_world := 2%nat;
                 calls := [frame Byte.x02; frame Byte.x00] |}
              [classification configured_service [scored "Sexual" 2];
               classification configured_service [scored "Sexual" 0]])
    as (Hv & _ & _ & Hmean & _).
  - econstructor; [reflexivity | reflexivity |].
    econstructor; [reflexivity | reflexivity | constructor].
  - split; [exact Hv |].
    apply Hmean; [discriminate | repeat constructor |].
    split; [vm_compute; discriminate | reflexivity].
Defined.

(** A response with status 200 whose body has no [categoriesAnalysis] is
    not a failure: the categories are taken to be empty and, with the
    configured thresholds, the image is accepted. *)
Lemma response_without_analysis_is_accepted (statusText : string) :
  upstream_fails (Completed (Response 200 statusText BodyWithoutAnalysis))
  = false
  /\ _callAzureAPI configured_service
       (Response 200 statusText BodyWithoutAnalysis) =
     Returned
       {| verdict := "accepted";
          categories := [];
          rejectionReason := None;
          ai_score := Fin 0 |}.
Proof. split; reflexivity. Qed.

(** C7 as stated fails: a response that is malformed in this way is
    not rejected; the image is accepted without having been analysed. *)
Lemma missing_analysis_is_accepted_counterexample :
  upstream_fails (fst (upstream_without_analysis (frame Byte.x07) 0%nat))
  = false
  /\ moderateImage upstream_without_analysis configured_service
       (frame Byte.x07) fresh =
     (Returned
        {| verdict := "accepted";
           categories := [];
           rejectionReason := None;
           ai_score := Fin 0 |},
      {| the_world := 1%nat; calls := [frame Byte.x07] |}).
Proof. split; reflexivity. Qed.

Section CallOrder.

Context {world : Type}.
Variable upstream_step : buffer -> world -> upstream * world.
Variable this : service.

Lemma fire_calls b s :
  calls (snd (fire upstream_step this b s)) = calls s
  \/ calls (snd (fire upstream_step this b s)) = calls s ++ [b].
Proof.
  unfold fire. destruct (upstream_step b (the_world s)) as [[| |h] w];
    simpl; auto.
Qed.

Lemma frames_loop_calls_prefix thumbnails : forall acc s,
  exists k,
    calls (snd (frames_loop upstream_step this thumbnails acc s)) =
    calls s ++ firstn k thumbnails.
Proof.
  induction thumbnails as [|b l IH]; intros acc s.
  - exists 0%nat. simpl. now rewrite app_nil_r.
  - simpl. unfold bind.
    pose proof (fire_calls b s) as Hc.
    pose proof (fire_returned upstream_step this b s) as Hr.
    destruct (fire upstream_step this b s) as [[r | e] s1]; simpl in Hc.
    + destruct (Hr r s1 eq_refl) as [Hs1 _].
      destruct (verdict r =? "rejected").
      * exists 1%nat. simpl. assumption.
      * destruct (IH (acc ++ [r]) s1) as [k Hk].
        exists (S k). rewrite Hk, Hs1, <- app_assoc. reflexivity.
    + destruct Hc as [Hc | Hc].
      * exists 0%nat. simpl. now rewrite app_nil_r.
      * exists 1%nat. simpl. assumption.
Qed.

(** Whatever the upstream does, the frames submitted by [moderateVideo]
    are an initial segment of the thumbnails, in their order, and the
    entry point returns a result. *)
Lemma moderateVideo_calls_prefix thumbnails s :
  exists v k,
    fst (moderateVideo upstream_step this thumbnails s) = Returned v
    /\ calls (snd (moderateVideo upstream_step this thumbnails s)) =
       calls s ++ firstn k thumbnails.
Proof.
  destruct (frames_loop_calls_prefix thumbnails [] s) as [k Hk].
  cbv [moderateVideo try_catch bind lift ret].
  destruct (frames_loop upstream_step this thumbnails [] s)
    as [[results | e] s1]; simpl in Hk.
  - destruct (_calculateVideoVerdict results) as [v | e]; simpl;
      do 2 eexists; split; try reflexivity; exact Hk.
  - simpl. do 2 eexists; split; try reflexivity; exact Hk.
Qed.

End CallOrder.

(** * Further properties *)

(** ** Order on numbers *)

#[global] Instance num_ge_proper : Proper (num_eq ==> num_eq ==> eq) num_ge.
Proof.
  intros [] [] H1 [] [] H2; try contradiction; trivial.
  unfold num_eq in *. simpl.
  destruct (Qle_bool q1 q) eqn:E1, (Qle_bool q2 q0) eqn:E2; trivial;
    qbool; lra.
Qed.

Lemma num_ge_trans a b c :
  num_ge a b = true -> num_ge b c = true -> num_ge a c = true.
Proof. destruct a, b, c; simpl; trivial; try discriminate.
  intros H1 H2. qbool; trivial; lra.
Qed.

Lemma num_ge_refl a : isNaN a = false -> num_ge a a = true.
Proof. destruct a; simpl; trivial; try discriminate.
  intros _. qbool; trivial; lra.
Qed.

Lemma Math_max_not_NaN a b :
  isNaN a = false -> isNaN b = false -> isNaN (Math_max a b) = false.
Proof. destruct a, b; simpl; trivial; destruct (Qle_bool _ _); trivial. Qed.

Lemma Math_max_ge_l a b :
  isNaN a = false -> isNaN b = false -> num_ge (Math_max a b) a = true.
Proof.
  intros Ha Hb. destruct a, b; try discriminate; simpl; trivial;
    try (destruct (Qle_bool q0 q) eqn:E; simpl); qbool; trivial; lra.
Qed.

Lemma Math_max_ge_r a b :
  isNaN a = false -> isNaN b = false -> num_ge (Math_max a b) b = true.
Proof.
  intros Ha Hb. destruct a, b; try discriminate; simpl; trivial;
    try (destruct (Qle_bool q0 q) eqn:E; simpl); qbool; trivial; lra.
Qed.

(** [Math.max] returns one of its arguments, or NaN when one is NaN. *)
Lemma Math_max_cases a b :
  Math_max a b = a \/ Math_max a b = b.
Proof.
  destruct a, b; simpl; auto; destruct (Qle_bool _ _); auto.
Qed.

Lemma Math_max_lub a b c :
  num_ge c a = true -> num_ge c b = true -> num_ge c (Math_max a b) = true.
Proof.
  intros Ha Hb. destruct (Math_max_cases a b) as [-> | ->]; trivial.
Qed.

Ltac num_order :=
  num_cases; qbool; trivial; try lra; try discriminate.

Lemma add_bonus_ge_base b x :
  bonus_not_negative b -> isNaN x = false ->
  num_ge (add_bonus b x) x = true.
Proof. intros Hb Hx. destruct b, x; num_order. Qed.

Lemma add_bonus_mono b x y :
  bonus_not_negative b -> num_ge y x = true ->
  num_ge (add_bonus b y) (add_bonus b x) = true.
Proof. intros Hb Hxy. destruct b, x, y; num_order. Qed.

(** ** Rule evaluation: further lemmas *)

(** The outcome is decided by the six baseline rules alone. *)
Lemma apply_is_baseline this categories :
  _applyModerationRules this categories =
  let s := _detectWeaponsAndViolence this categories in
  first_match
    (baseline_rules (this_thresholds this) categories
       (weaponScore s) (violenceScore s)).
Proof.
  cbv zeta. unfold _applyModerationRules.
  remember (_detectWeaponsAndViolence this categories) as s eqn:Es.
  unfold rule_list, rule_childWithViolence, rule_childWithHate,
    rule_sexualWithChild, baseline_rules.
  rewrite !first_match_push_if.
  cbn [first_match Rule.condition Rule.reason].
  destruct (some_at_least categories "Child" _); cbn; trivial.
  destruct (num_ge (violenceScore s) _); cbn; trivial.
  destruct (num_ge (weaponScore s) _); cbn; trivial.
  destruct (some_at_least categories "Hate" _); cbn; trivial.
  destruct (some_at_least categories "SelfHarm" _); cbn; trivial.
  destruct (some_at_least categories "Sexual" (sexual _)); cbn; trivial.
  rewrite andb_false_r.
  now destruct (childWithViolence _), (childWithHate _), (sexualWithChild _).
Qed.

Lemma rejected_baseline this categories :
  let s := _detectWeaponsAndViolence this categories in
  let th := this_thresholds this in
  rejected (_applyModerationRules this categories) =
  some_at_least categories "Child" (child th)
  || num_ge (violenceScore s) (violence th)
  || num_ge (weaponScore s) (weapons th)
  || some_at_least categories "Hate" (hate th)
  || some_at_least categories "SelfHarm" (selfHarm th)
  || some_at_least categories "Sexual" (sexual th).
Proof.
  cbv zeta. rewrite apply_is_baseline. cbv zeta.
  remember (_detectWeaponsAndViolence this categories) as s eqn:Es.
  unfold baseline_rules. simpl.
  repeat match goal with
         | |- context [if ?b then _ else _] => destruct b; simpl; trivial
         end.
Qed.

Lemma numeric_severity_or_zero c :
  numeric_entry c -> isNaN (severity_or_zero c) = false.
Proof.
  unfold numeric_entry, severity_or_zero, or_zero.
  destruct (severity c) as [[]| | | |]; simpl; try discriminate; trivial.
  destruct (Qeq_bool q 0); trivial.
Qed.

Lemma max_severity_not_NaN l :
  Forall numeric_entry l -> isNaN (max_severity l) = false.
Proof.
  induction 1 as [|c l Hc _ IH]; trivial.
  rewrite max_severity_cons.
  apply Math_max_not_NaN; auto using numeric_severity_or_zero.
Qed.

Lemma max_severity_ge_zero l :
  Forall numeric_entry l -> num_ge (max_severity l) (Fin 0) = true.
Proof.
  induction 1 as [|c l Hc Hl IH]; trivial.
  rewrite max_severity_cons.
  eapply num_ge_trans; [|exact IH].
  apply Math_max_ge_r;
    auto using numeric_severity_or_zero, max_severity_not_NaN.
Qed.

Lemma max_severity_ge_elem l c :
  Forall numeric_entry l -> In c l ->
  num_ge (max_severity l) (severity_or_zero c) = true.
Proof.
  induction 1 as [|d l Hd Hl IH]; intros Hin; [contradiction|].
  rewrite max_severity_cons.
  pose proof (numeric_severity_or_zero _ Hd) as Nd.
  pose proof (max_severity_not_NaN _ Hl) as Nl.
  destruct Hin as [-> | Hin].
  - now apply Math_max_ge_l.
  - eapply num_ge_trans; [now apply Math_max_ge_r | auto].
Qed.

(** The maximum is 0 or the contribution of one of the entries. *)
Lemma max_severity_attained l :
  max_severity l = Fin 0
  \/ exists c, In c l /\ max_severity l = severity_or_zero c.
Proof.
  induction l as [|d l IH]; [now left|].
  rewrite max_severity_cons.
  destruct (Math_max_cases (severity_or_zero d) (max_severity l))
    as [E | E]; rewrite E.
  - right. exists d. simpl. auto.
  - destruct IH as [IH | (c & Hin & Hc)]; [now left|].
    right. exists c. simpl. auto.
Qed.

Lemma Forall_numeric_filter f l :
  Forall numeric_entry l -> Forall numeric_entry (filter f l).
Proof.
  rewrite !Forall_forall. intros H c Hc.
  apply filter_In in Hc as [Hc _]. auto.
Qed.

(** Among numeric entries, a larger list has a larger maximum. *)
Lemma max_severity_incl l l' :
  Forall numeric_entry l' -> incl l l' ->
  num_ge (max_severity l') (max_severity l) = true.
Proof.
  intros Hn Hincl.
  destruct (max_severity_attained l) as [-> | (c & Hin & ->)].
  - now apply max_severity_ge_zero.
  - apply max_severity_ge_elem; auto.
Qed.

Lemma incl_filter (f : entry -> bool) l l' :
  incl l l' -> incl (filter f l) (filter f l').
Proof.
  intros H c Hc. apply filter_In in Hc as [Hc Hf].
  apply filter_In. auto.
Qed.

Lemma sexual_floor_incl l l' :
  incl l l' -> num_ge (sexual_floor l') (sexual_floor l) = true.
Proof.
  intros H. unfold sexual_floor.
  destruct (existsb is_explicit_sexual l) eqn:E.
  - apply existsb_exists in E as (c & Hin & Hc).
    assert (E' : existsb is_explicit_sexual l' = true)
      by (apply existsb_exists; eauto).
    now rewrite E'.
  - now destruct (existsb is_explicit_sexual l').
Qed.

Lemma sexual_floor_not_NaN l : isNaN (sexual_floor l) = false.
Proof. unfold sexual_floor. now destruct (existsb _ _). Qed.

(** The scores before the bonus, as maxima. *)
Lemma violence_base_spec categories :
  num_eq
    (violenceScore
       (fold_left detect_step categories
          {| weaponScore := Fin 0; violenceScore := Fin 0 |}))
    (Math_max (max_severity (filter is_violence categories))
       (sexual_floor categories)).
Proof.
  rewrite fold_detect_violence by (simpl; reflexivity).
  cbn [violenceScore].
  rewrite Math_max_assoc, Math_max_zero_max_severity. reflexivity.
Qed.

Lemma weapon_base_spec categories :
  num_eq
    (weaponScore
       (fold_left detect_step categories
          {| weaponScore := Fin 0; violenceScore := Fin 0 |}))
    (max_severity (filter is_weapon_proxy categories)).
Proof.
  rewrite fold_detect_weapon by (simpl; reflexivity).
  cbn [weaponScore]. apply Math_max_zero_max_severity.
Qed.

Lemma Math_max_mono a a' b b' :
  isNaN a' = false -> isNaN b' = false ->
  num_ge a' a = true -> num_ge b' b = true ->
  num_ge (Math_max a' b') (Math_max a b) = true.
Proof.
  intros Na Nb Ha Hb. apply Math_max_lub.
  - eapply num_ge_trans; [now apply Math_max_ge_l | trivial].
  - eapply num_ge_trans; [now apply Math_max_ge_r | trivial].
Qed.

(** Among numeric entries, the scores grow with the list. *)
Lemma detect_scores_incl this l l' :
  Forall numeric_entry l' -> incl l l' ->
  bonus_not_negative (violenceBonus (this_rules this)) ->
  bonus_not_negative (weaponBonus (this_rules this)) ->
  num_ge (violenceScore (_detectWeaponsAndViolence this l'))
    (violenceScore (_detectWeaponsAndViolence this l)) = true
  /\ num_ge (weaponScore (_detectWeaponsAndViolence this l'))
       (weaponScore (_detectWeaponsAndViolence this l)) = true.
Proof.
  intros Hn Hincl Hv Hw. unfold _detectWeaponsAndViolence.
  cbn [violenceScore weaponScore]. split.
  - apply add_bonus_mono; trivial.
    rewrite !violence_base_spec.
    apply Math_max_mono.
    + apply max_severity_not_NaN, Forall_numeric_filter, Hn.
    + apply sexual_floor_not_NaN.
    + apply max_severity_incl;
        [apply Forall_numeric_filter, Hn | apply incl_filter, Hincl].
    + apply sexual_floor_incl, Hincl.
  - apply add_bonus_mono; trivial.
    rewrite !weapon_base_spec.
    apply max_severity_incl;
      [apply Forall_numeric_filter, Hn | apply incl_filter, Hincl].
Qed.

Lemma has_entry_incl l l' name t :
  incl l l' -> has_entry l name t -> has_entry l' name t.
Proof. intros H (c & Hin & Hc). exists c. auto. Qed.

Lemma some_at_least_incl l l' name t :
  incl l l' ->
  some_at_least l name t = true -> some_at_least l' name t = true.
Proof.
  intros H E. apply some_at_least_spec.
  apply some_at_least_spec in E. eauto using has_entry_incl.
Qed.

Lemma numeric_js_ge_or_zero c t :
  numeric_entry c -> num_ge (Fin 1) t = true ->
  js_ge (severity c) (Fin 1) = true ->
  num_ge (severity_or_zero c) t = true.
Proof.
  unfold numeric_entry, severity_or_zero, or_zero, js_ge.
  intros Hn Ht Hs. eapply num_ge_trans; [|exact Ht].
  destruct (severity c) as [[]| | | |]; simpl in *; try discriminate; trivial.
  destruct (Qeq_bool q 0) eqn:E; simpl; trivial.
  qbool; trivial; lra.
Qed.

(** A Hate or SelfHarm entry of severity 1 or more lifts [weaponScore] to
    its severity at least. *)
Lemma weapon_score_reaches this categories c t :
  Forall numeric_entry categories ->
  bonus_not_negative (weaponBonus (this_rules this)) ->
  In c categories -> is_weapon_proxy c = true ->
  num_ge (Fin 1) t = true ->
  num_ge (weaponScore (_detectWeaponsAndViolence this categories)) t = true.
Proof.
  intros Hn Hb Hin Hc Ht. unfold _detectWeaponsAndViolence.
  cbn [weaponScore].
  set (base := weaponScore (fold_left detect_step categories _)).
  assert (Hbase : num_ge base t = true).
  { unfold base. rewrite weapon_base_spec.
    eapply num_ge_trans.
    - apply (max_severity_ge_elem _ c).
      + apply Forall_numeric_filter, Hn.
      + apply filter_In. auto.
    - apply numeric_js_ge_or_zero; trivial.
      + rewrite Forall_forall in Hn. auto.
      + unfold is_weapon_proxy in Hc. now apply andb_true_iff in Hc. }
  eapply num_ge_trans; [|exact Hbase].
  apply add_bonus_ge_base; trivial.
  destruct base, t; simpl in *; trivial; discriminate.
Qed.

(** A Sexual entry of severity 3 or more lifts [violenceScore] to 1 at
    least. *)
Lemma violence_score_reaches this categories t :
  Forall numeric_entry categories ->
  bonus_not_negative (violenceBonus (this_rules this)) ->
  existsb is_explicit_sexual categories = true ->
  num_ge (Fin 1) t = true ->
  num_ge (violenceScore (_detectWeaponsAndViolence this categories)) t = true.
Proof.
  intros Hn Hb Hs Ht. unfold _detectWeaponsAndViolence.
  cbn [violenceScore].
  set (base := violenceScore (fold_left detect_step categories _)).
  assert (Hbase : num_ge base t = true).
  { unfold base. rewrite violence_base_spec.
    eapply num_ge_trans; [|exact Ht].
    unfold sexual_floor. rewrite Hs.
    apply Math_max_ge_r; trivial.
    apply max_severity_not_NaN, Forall_numeric_filter, Hn. }
  eapply num_ge_trans; [|exact Hbase].
  apply add_bonus_ge_base; trivial.
  destruct base, t; simpl in *; trivial; discriminate.
Qed.

Lemma some_at_least_weapon_proxy categories name t :
  name = "Hate" \/ name = "SelfHarm" ->
  num_ge t (Fin 1) = true ->
  some_at_least categories name t = true ->
  exists c, In c categories /\ is_weapon_proxy c = true.
Proof.
  intros Hname Ht H. apply some_at_least_spec in H as (c & Hin & Hn & Hs).
  exists c. split; trivial. unfold is_weapon_proxy.
  assert (Hs1 : js_ge (severity c) (Fin 1) = true)
    by (unfold js_ge in *; eauto using num_ge_trans).
  rewrite Hs1, Hn. destruct Hname as [-> | ->]; reflexivity.
Qed.

Lemma some_at_least_explicit_sexual categories t :
  num_ge t (Fin 3) = true ->
  some_at_least categories "Sexual" t = true ->
  existsb is_explicit_sexual categories = true.
Proof.
  intros Ht H. apply some_at_least_spec in H as (c & Hin & Hn & Hs).
  apply existsb_exists. exists c. split; trivial.
  unfold is_explicit_sexual. rewrite Hn. simpl.
  unfold js_ge in *. eauto using num_ge_trans.
Qed.

(** ** Rule evaluation: further theorems *)

(** X1. The three compound-rule switches have no effect on the outcome:
    two configurations that differ only in them give the same outcome on
    every category list. *)
Theorem compound_flags_have_no_effect (th : Thresholds)
  (f1 f2 f3 g1 g2 g3 : bool) (wb vb : num) (categories : list entry) :
  _applyModerationRules
    {| this_thresholds := th;
       this_rules :=
         {| childWithViolence := f1; childWithHate := f2;
            sexualWithChild := f3; weaponBonus := wb; violenceBonus := vb |} |}
    categories =
  _applyModerationRules
    {| this_thresholds := th;
       this_rules :=
         {| childWithViolence := g1; childWithHate := g2;
            sexualWithChild := g3; weaponBonus := wb; violenceBonus := vb |} |}
    categories.
Proof. rewrite !apply_is_baseline. reflexivity. Qed.

(** X2. Rule evaluation rejects exactly when one of the six baseline
    conditions holds: an entry of category Child, Hate, SelfHarm or Sexual
    at its threshold, or a boosted violence or weapon score at its
    threshold; and the reason is [null] exactly when it accepts. *)
Theorem rejected_iff_baseline_condition (this : service)
  (categories : list entry) :
  let th := this_thresholds this in
  (rejected (_applyModerationRules this categories) = true <->
   has_entry categories "Child" (child th)
   \/ boosted_score_meets_threshold this categories
   \/ has_entry categories "Hate" (hate th)
   \/ has_entry categories "SelfHarm" (selfHarm th)
   \/ has_entry categories "Sexual" (sexual th))
  /\ (rejected (_applyModerationRules this categories) = false <->
      reason (_applyModerationRules this categories) = None).
Proof.
  cbv zeta. split.
  - rewrite rejected_baseline. cbv zeta.
    unfold boosted_score_meets_threshold. cbv zeta.
    rewrite !orb_true_iff, !some_at_least_spec. tauto.
  - destruct (apply_reason this categories)
      as [[-> (t & -> & _)] | [-> ->]]; split; congruence.
Qed.

(** X3. With the configured thresholds and bonuses, on entries whose
    severities are numbers, only the Child, Violence and Weapons reasons
    are ever reported: a Hate or SelfHarm entry of severity 1 or more
    already makes the Weapons rule match, and a Sexual entry of severity 3
    or more already makes the Violence rule match. *)
Theorem configured_reasons_are_child_violence_weapons
  (categories : list entry) :
  Forall numeric_entry categories ->
  child_violence_or_weapons configured_service categories
    (reason (_applyModerationRules configured_service categories)).
Proof.
  intros Hn. unfold child_violence_or_weapons. cbv zeta.
  rewrite apply_is_baseline. cbv zeta.
  set (s := _detectWeaponsAndViolence configured_service categories).
  assert (Hw : forall name,
             name = "Hate" \/ name = "SelfHarm" ->
             some_at_least categories name (Fin 1) = true ->
             num_ge (weaponScore s) (Fin 1) = true).
  { intros name Hname H.
    destruct (some_at_least_weapon_proxy categories name (Fin 1) Hname
                eq_refl H) as (c & Hin & Hc).
    apply (weapon_score_reaches configured_service categories c);
      trivial; simpl; lra. }
  assert (Hv : some_at_least categories "Sexual" (Fin 3) = true ->
               num_ge (violenceScore s) (Fin 1) = true).
  { intros H.
    apply (violence_score_reaches configured_service categories);
      trivial; simpl; lra. }
  clearbody s. unfold baseline_rules.
  cbn [first_match Rule.condition Rule.reason configured_service
       this_thresholds config_thresholds child violence weapons hate
       selfHarm sexual].
  destruct (some_at_least categories "Child" (Fin 1)); cbn; auto.
  destruct (num_ge (violenceScore s) (Fin 1)) eqn:Ev; cbn; auto.
  destruct (num_ge (weaponScore s) (Fin 1)) eqn:Ew; cbn; auto.
  destruct (some_at_least categories "Hate" (Fin 1)) eqn:Eh;
    [specialize (Hw "Hate" (or_introl eq_refl) Eh); discriminate|].
  destruct (some_at_least categories "SelfHarm" (Fin 1)) eqn:Es;
    [specialize (Hw "SelfHarm" (or_intror eq_refl) Es); discriminate|].
  destruct (some_at_least categories "Sexual" (Fin 3)) eqn:Ex;
    [specialize (Hv eq_refl); discriminate|].
  cbn. auto.
Qed.

Lemma configured_reasons_are_child_violence_weapons_witness :
  child_violence_or_weapons configured_service
    [scored "Hate" 2; scored "Sexual" 4]
    (reason (_applyModerationRules configured_service
               [scored "Hate" 2; scored "Sexual" 4])).
Proof.
  apply (configured_reasons_are_child_violence_weapons
           [scored "Hate" 2; scored "Sexual" 4]).
  repeat constructor.
Defined.

(** X4. On entries whose severities are numbers, and with bonuses that
    are not negative, adding entries never turns a rejection into an
    acceptance: if a list is rejected, every list that contains its
    entries (in any order, with any further entries) is rejected. *)
Theorem rejection_is_monotone (this : service)
  (categories categories' : list entry) :
  Forall numeric_entry categories' ->
  bonus_not_negative (violenceBonus (this_rules this)) ->
  bonus_not_negative (weaponBonus (this_rules this)) ->
  incl categories categories' ->
  rejected (_applyModerationRules this categories) = true ->
  rejected (_applyModerationRules this categories') = true.
Proof.
  intros Hn Hv Hw Hincl.
  rewrite !rejected_baseline. cbv zeta.
  destruct (detect_scores_incl this _ _ Hn Hincl Hv Hw) as [Sv Sw].
  rewrite !orb_true_iff.
  intros [[[[[H | H] | H] | H] | H] | H].
  - do 5 left. eapply some_at_least_incl; eassumption.
  - do 4 left. right. eapply num_ge_trans; eassumption.
  - do 3 left. right. eapply num_ge_trans; eassumption.
  - do 2 left. right. eapply some_at_least_incl; eassumption.
  - left. right. eapply some_at_least_incl; eassumption.
  - right. eapply some_at_least_incl; eassumption.
Qed.

Lemma rejection_is_monotone_witness :
  rejected
    (_applyModerationRules configured_service
       [scored "Sexual" 1; scored "Violence" 2; scored "Hate" 0])
  = true.
Proof.
  apply (rejection_is_monotone configured_service
           [scored "Violence" 2]
           [scored "Sexual" 1; scored "Violence" 2; scored "Hate" 0]).
  - repeat constructor.
  - simpl. lra.
  - simpl. lra.
  - intros c [<- | []]. simpl. auto.
  - reflexivity.
Defined.

(** Without the hypothesis on the severities the property fails: a second
    Violence entry whose severity converts to NaN (a string that is not a
    number) turns [violenceScore] into NaN, and the list is accepted. *)
Lemma rejection_not_monotone_with_NaN :
  rejected (_applyModerationRules configured_service [scored "Violence" 5])
  = true
  /\ rejected
       (_applyModerationRules configured_service
          [scored "Violence" 5;
           {| category := "Violence"; severity := VOther true NaN |}])
     = false.
Proof. split; reflexivity. Qed.

(** ** Aggregate score: further lemmas and theorems *)

Lemma finite_severity_contributes c :
  finite_severity c -> exists q, contributes c q.
Proof.
  unfold finite_severity, contributes.
  destruct (severity c) as [[]| | | |]; intros H; try contradiction; eauto.
Qed.

Lemma finite_contributions l :
  Forall finite_severity l -> exists qs, Forall2 contributes l qs.
Proof.
  induction 1 as [|c l Hc _ (qs & IH)].
  - exists []. constructor.
  - destruct (finite_severity_contributes c Hc) as (q & Hq).
    exists (q :: qs). now constructor.
Qed.

(** On finite severities the score is a rational [q] with
    [q * length = sum]. *)
Lemma calculateAIScore_times_length categories qs :
  Forall2 contributes categories qs ->
  exists q,
    _calculateAIScore categories = Fin q
    /\ q * Qlength categories == fold_right Qplus 0 qs.
Proof.
  intros H. destruct categories as [|c l].
  - inversion H; subst. exists 0. split; [reflexivity|].
    unfold Qlength. simpl. lra.
  - unfold _calculateAIScore.
    change (List.length (c :: l) =? 0)%nat with false. cbv iota.
    fold (severity_sum (c :: l) (Fin 0)).
    rewrite (severity_sum_finite _ _ H).
    cbn [List.length]. unfold num_of_nat, num_div.
    rewrite length_not_zero. cbn [isNaN negb].
    eexists. split; [reflexivity|].
    rewrite fold_left_Qplus, Qplus_0_l. unfold Qlength. cbn [List.length].
    pose proof (length_positive (List.length l)) as Hp.
    field. intros E. rewrite E in Hp. now apply Qlt_irrefl in Hp.
Qed.

Lemma Forall2_contributes_app l1 l2 q1 q2 :
  Forall2 contributes l1 q1 -> Forall2 contributes l2 q2 ->
  Forall2 contributes (l1 ++ l2) (q1 ++ q2).
Proof. apply Forall2_app. Qed.

Lemma fold_right_Qplus_app q1 q2 :
  fold_right Qplus 0 (q1 ++ q2) ==
  fold_right Qplus 0 q1 + fold_right Qplus 0 q2.
Proof.
  induction q1 as [|q q1 IH]; simpl; [lra|]. rewrite IH. lra.
Qed.

Lemma Qlength_app {A} (l1 l2 : list A) :
  Qlength (l1 ++ l2) == Qlength l1 + Qlength l2.
Proof.
  unfold Qlength. rewrite length_app, Nat2Z.inj_add, inject_Z_plus.
  reflexivity.
Qed.

Lemma pooled_score_of_two l1 l2 :
  Forall finite_severity l1 -> Forall finite_severity l2 ->
  exists q,
    _calculateAIScore (l1 ++ l2) = Fin q
    /\ q * Qlength (l1 ++ l2) ==
       finite_part (_calculateAIScore l1) * Qlength l1
       + finite_part (_calculateAIScore l2) * Qlength l2.
Proof.
  intros H1 H2.
  destruct (finite_contributions _ H1) as (q1s & C1).
  destruct (finite_contributions _ H2) as (q2s & C2).
  destruct (calculateAIScore_times_length _ _ C1) as (q1 & E1 & S1).
  destruct (calculateAIScore_times_length _ _ C2) as (q2 & E2 & S2).
  destruct (calculateAIScore_times_length _ _
              (Forall2_contributes_app _ _ _ _ C1 C2)) as (q & E & S).
  exists q. split; trivial.
  rewrite E1, E2. simpl finite_part.
  rewrite S, fold_right_Qplus_app, S1, S2. reflexivity.
Qed.

(** In the exact arithmetic of the model, the score of a concatenation
    is the average of the lists' scores weighted by their lengths. *)
Lemma pooled_score_weighted (frames : list (list entry)) :
  Forall (Forall finite_severity) frames ->
  exists q,
    _calculateAIScore (List.concat frames) = Fin q
    /\ q * Qlength (List.concat frames) == weighted_scores frames.
Proof.
  induction 1 as [|frame frames Hf Hfs (q' & E' & S')].
  - exists 0. split; [reflexivity|]. unfold Qlength. simpl. lra.
  - assert (Hc : Forall finite_severity (List.concat frames)).
    { apply Forall_concat. assumption. }
    destruct (pooled_score_of_two frame (List.concat frames) Hf Hc)
      as (q & E & S).
    exists q. split; [exact E|].
    cbn [List.concat weighted_scores fold_right].
    rewrite S, E'. simpl finite_part. rewrite S'. reflexivity.
Qed.

Lemma contributes_integer_finite c z :
  contributes_integer c z -> finite_severity c.
Proof.
  unfold contributes_integer, finite_severity.
  destruct (severity c) as [[]| | | |]; trivial.
Qed.

Lemma integer_frames_finite frames zss :
  Forall2 (Forall2 contributes_integer) frames zss ->
  Forall (Forall finite_severity) frames.
Proof.
  induction 1 as [| frame zs frames zss Hf _ IH]; constructor; trivial.
  induction Hf as [| c z l zs Hc _ IHf]; constructor; trivial.
  eapply contributes_integer_finite; eauto.
Qed.

Lemma Qlength_not_negative {A} (l : list A) : 0 <= Qlength l.
Proof.
  unfold Qlength. change 0 with (inject_Z 0). rewrite <- Zle_Qle. lia.
Qed.

Lemma weighted_scores_between lo hi frames :
  Forall
    (fun frame =>
       frame <> [] ->
       exists q, _calculateAIScore frame = Fin q /\ lo <= q /\ q <= hi)
    frames ->
  lo * Qlength (List.concat frames) <= weighted_scores frames
  /\ weighted_scores frames <= hi * Qlength (List.concat frames).
Proof.
  induction 1 as [| frame frames Hf _ [IHlo IHhi]].
  - change (Qlength (List.concat (@nil (list entry)))) with 0.
    cbn [weighted_scores fold_right]. lra.
  - unfold weighted_scores in *. cbn [List.concat fold_right].
    rewrite Qlength_app.
    destruct frame as [| c l].
    + change (Qlength (@nil entry)) with 0. lra.
    + destruct Hf as (q & -> & Hlo & Hhi); [discriminate |].
      cbn [finite_part].
      pose proof (Qlength_not_negative (c :: l)) as Hn.
      assert (lo * Qlength (c :: l) <= q * Qlength (c :: l))
        by (apply Qmult_le_compat_r; assumption).
      assert (q * Qlength (c :: l) <= hi * Qlength (c :: l))
        by (apply Qmult_le_compat_r; assumption).
      lra.
Qed.

(** X5. The score of a video lies between the scores of its frames: on
    integer severities, when the score of every frame that has categories
    is between [lo] and [hi], so is the score of the concatenation of the
    frames' categories (the score [_calculateVideoVerdict] gives the
    video).  One frame with a high score cannot be averaged below [lo] by
    the others, nor can the video score exceed the highest frame score. *)
Theorem pooled_score_within_frame_scores (frames : list (list entry))
  (zss : list (list Z)) (lo hi : Q) :
  Forall2 (Forall2 contributes_integer) frames zss ->
  exactly_summable (List.concat zss) ->
  List.concat frames <> [] ->
  Forall
    (fun frame =>
       frame <> [] ->
       exists q, _calculateAIScore frame = Fin q /\ lo <= q /\ q <= hi)
    frames ->
  exists q,
    _calculateAIScore (List.concat frames) = Fin q /\ lo <= q /\ q <= hi.
Proof.
  intros Hz _ Hne Hb.
  destruct (pooled_score_weighted frames (integer_frames_finite _ _ Hz))
    as (q & E & S).
  exists q. split; [exact E |].
  destruct (weighted_scores_between lo hi frames Hb) as [Hlo Hhi].
  rewrite <- S in Hlo, Hhi.
  assert (Hp : 0 < Qlength (List.concat frames)).
  { destruct (List.concat frames) as [| c l]; [congruence |].
    apply length_positive. }
  split.
  - now apply (Qmult_le_r lo q _ Hp).
  - now apply (Qmult_le_r q hi _ Hp).
Qed.

Lemma pooled_score_within_frame_scores_witness :
  exists q,
    _calculateAIScore
      (List.concat
         [[scored "Sexual" 2];
          [scored "Sexual" 0; scored "Hate" 0; scored "Violence" 0]])
    = Fin q
    /\ 0 <= q /\ q <= 2.
Proof.
  apply (pooled_score_within_frame_scores
           [[scored "Sexual" 2];
            [scored "Sexual" 0; scored "Hate" 0; scored "Violence" 0]]
           [[2]; [0; 0; 0]]%Z 0 2).
  - repeat constructor.
  - split; [vm_compute; discriminate | reflexivity].
  - discriminate.
  - constructor; [| constructor; [| constructor]]; intros _;
      (eexists; split; [reflexivity | split; vm_compute; discriminate]).
Defined.

Lemma integer_sum_between lo hi zs :
  Forall (fun z => lo <= inject_Z z /\ inject_Z z <= hi) zs ->
  lo * Qlength zs <= inject_Z (fold_right Z.add 0%Z zs)
  /\ inject_Z (fold_right Z.add 0%Z zs) <= hi * Qlength zs.
Proof.
  induction 1 as [|z zs [Hlo Hhi] _ [IHlo IHhi]].
  - change (Qlength (@nil Z)) with 0. cbn [fold_right].
    change (inject_Z 0) with 0. lra.
  - assert (E : Qlength (z :: zs) == 1 + Qlength zs).
    { change (z :: zs) with ([z] ++ zs). rewrite Qlength_app.
      reflexivity. }
    rewrite E. cbn [fold_right]. rewrite inject_Z_plus. lra.
Qed.

(** X6. The score lies between the bounds of the severities: when the
    severities of a non-empty list are integers between [lo] and [hi] (a
    severity that is not a number counting for 0), the score is between
    [lo] and [hi].  For the integer severities 0 to 7 of the classifier
    the score is between 0 and 7. *)
Theorem ai_score_within_severity_bounds (categories : list entry)
  (zs : list Z) (lo hi : Q) :
  categories <> [] ->
  Forall2 contributes_integer categories zs ->
  exactly_summable zs ->
  Forall (fun z => lo <= inject_Z z /\ inject_Z z <= hi) zs ->
  exists q, _calculateAIScore categories = Fin q /\ lo <= q /\ q <= hi.
Proof.
  intros Hne Hc _ Hb.
  destruct (calculateAIScore_integers _ _ Hne Hc) as (q & E & Hq).
  exists q. split; [exact E |].
  destruct (integer_sum_between lo hi zs Hb) as [Hlo Hhi].
  assert (Hp : 0 < Qlength zs).
  { unfold Qlength. rewrite <- (Forall2_length Hc).
    destruct categories as [| c l]; [congruence |]. apply length_positive. }
  assert (Hm : q * Qlength zs == inject_Z (fold_right Z.add 0%Z zs)).
  { rewrite Hq. unfold Zmean. fold (Qlength zs). field.
    intros E0. rewrite E0 in Hp. now apply Qlt_irrefl in Hp. }
  rewrite <- Hm in Hlo, Hhi.
  split.
  - now apply (Qmult_le_r lo q _ Hp).
  - now apply (Qmult_le_r q hi _ Hp).
Qed.

Lemma ai_score_within_severity_bounds_witness :
  exists q,
    _calculateAIScore
      [scored "Violence" 7;
       {| category := "Hate"; severity := VNull |};
       scored "Sexual" 4] = Fin q
    /\ 0 <= q /\ q <= 7.
Proof.
  apply (ai_score_within_severity_bounds
           [scored "Violence" 7;
            {| category := "Hate"; severity := VNull |};
            scored "Sexual" 4] [7; 0; 4]%Z 0 7).
  - discriminate.
  - repeat constructor.
  - split; [vm_compute; discriminate | reflexivity].
  - repeat constructor; discriminate.
Defined.

(** ** Video verdict and gateway: further lemmas *)

Lemma find_first_rejected pre r post :
  Forall (fun x => ~ is_rejected x) pre -> is_rejected r ->
  find (fun x => verdict x =? "rejected") (pre ++ r :: post) = Some r
  /\ existsb (fun x => verdict x =? "rejected") (pre ++ r :: post) = true.
Proof.
  unfold is_rejected. intros Hpre Hr.
  induction Hpre as [|x pre Hx _ [IH1 IH2]]; simpl.
  - rewrite Hr. auto.
  - destruct (verdict x =? "rejected") eqn:E.
    + apply String.eqb_eq in E. contradiction.
    + auto.
Qed.

Lemma existsb_rejected results :
  existsb (fun x => verdict x =? "rejected") results = true <->
  Exists is_rejected results.
Proof.
  rewrite existsb_exists, Exists_exists. unfold is_rejected.
  split; intros (r & Hin & H); exists r; split; trivial;
    now apply String.eqb_eq.
Qed.

Lemma find_rejected_some results :
  existsb (fun x => verdict x =? "rejected") results = true ->
  exists r, find (fun x => verdict x =? "rejected") results = Some r.
Proof.
  induction results as [|x l IH]; simpl; [discriminate|].
  destruct (verdict x =? "rejected"); eauto.
Qed.

Lemma reason_or_truthy r fallback :
  text_truthy fallback = true -> text_truthy (reason_or r fallback) = true.
Proof.
  unfold reason_or. destruct r as [t|]; trivial.
  destruct (text_truthy t) eqn:E; trivial.
Qed.

Lemma classification_sound this categories :
  sound_result (classification this categories).
Proof. split; [apply classification_well_formed | reflexivity]. Qed.

Lemma callAzureAPI_classification this h r :
  _callAzureAPI this h = Returned r ->
  exists categories, r = classification this categories.
Proof.
  unfold _callAzureAPI.
  destruct (axios_post h) as [[[status statusText] data]|]; [|discriminate].
  destruct (negb (status =? 200)%Z); [discriminate|].
  destruct data; try discriminate; intros E; injection E as <-; eauto.
Qed.

Lemma fallback_sound e : sound_result (_fallbackModeration e).
Proof.
  split; [|reflexivity]. right. split; [reflexivity|].
  exists FALLBACK_REASON. split; reflexivity.
Qed.

Lemma video_verdict_returns results :
  exists v,
    _calculateVideoVerdict results = Returned v
    /\ sound_result v
    /\ categories v = List.concat (map categories results)
    /\ (is_rejected v <-> Exists is_rejected results)
    /\ (verdict v = "accepted" <-> ~ Exists is_rejected results).
Proof.
  unfold _calculateVideoVerdict.
  destruct (existsb _ results) eqn:E.
  - destruct (find_rejected_some _ E) as (r & ->).
    apply existsb_rejected in E.
    eexists. split; [reflexivity|]. unfold sound_result, is_rejected.
    cbn [verdict categories rejectionReason ai_score].
    repeat split; trivial; try discriminate; try tauto.
    + right. split; trivial. eexists. split; [reflexivity|].
      now apply reason_or_truthy.
    + apply flat_map_categories.
  - assert (E' : ~ Exists is_rejected results).
    { rewrite <- existsb_rejected, E. discriminate. }
    eexists. split; [reflexivity|]. unfold sound_result, is_rejected.
    cbn [verdict categories rejectionReason ai_score].
    repeat split; trivial; try discriminate; try tauto.
    + left. auto.
    + apply flat_map_categories.
Qed.

Section GatewayRuns.

Context {world : Type}.
Variable upstream_step : buffer -> world -> upstream * world.
Variable this : service.

Lemma fire_classification b s r s' :
  fire upstream_step this b s = (Returned r, s') ->
  exists categories, r = classification this categories.
Proof.
  unfold fire.
  destruct (upstream_step b (the_world s)) as [[| |h] w]; try discriminate.
  intros E. injection E as E _.
  eapply callAzureAPI_classification; eauto.
Qed.

Lemma well_formed_verdict r :
  well_formed r ->
  (verdict r = "accepted" /\ (verdict r =? "rejected") = false)
  \/ verdict r = "rejected".
Proof. intros [[H _] | [H _]]; rewrite H; auto. Qed.

(** The three ways the loop over the frames ends: every frame accepted;
    a frame rejected after accepted ones; a frame whose classification
    fails after accepted ones. *)
Lemma frames_loop_cases thumbnails : forall acc s,
  (exists rs s1,
      accepted_run upstream_step this thumbnails s rs s1
      /\ frames_loop upstream_step this thumbnails acc s =
         (Returned (acc ++ rs), s1))
  \/ (exists pre f post rs s1 r s2,
         thumbnails = pre ++ f :: post
         /\ accepted_run upstream_step this pre s rs s1
         /\ fire upstream_step this f s1 = (Returned r, s2)
         /\ verdict r = "rejected"
         /\ frames_loop upstream_step this thumbnails acc s =
            (Returned (acc ++ rs ++ [r]), s2))
  \/ (exists pre f post rs s1 e s2,
         thumbnails = pre ++ f :: post
         /\ accepted_run upstream_step this pre s rs s1
         /\ fire upstream_step this f s1 = (Thrown e, s2)
         /\ frames_loop upstream_step this thumbnails acc s =
            (Thrown e, s2)).
Proof.
  induction thumbnails as [|b l IH]; intros acc s.
  - left. exists [], s. split; [constructor|].
    simpl. now rewrite app_nil_r.
  - simpl. unfold bind.
    destruct (fire upstream_step this b s) as [[r | e] s1] eqn:Hf.
    + destruct (fire_returned _ _ _ _ _ _ Hf) as [_ Hwf].
      destruct (well_formed_verdict r Hwf) as [[Ha Hn] | Hr].
      * rewrite Hn.
        destruct (IH (acc ++ [r]) s1)
          as [(rs & s2 & Hrun & E)
             | [(pre & f & post & rs & s2 & r' & s3 & -> & Hrun & Hf' & Hv & E)
               | (pre & f & post & rs & s2 & e & s3 & -> & Hrun & Hf' & E)]].
        -- left. exists (r :: rs), s2. split.
           ++ econstructor; eauto.
           ++ rewrite E, <- app_assoc. reflexivity.
        -- right. left.
           exists (b :: pre), f, post, (r :: rs), s2, r', s3.
           repeat split; trivial.
           ++ econstructor; eauto.
           ++ rewrite E, <- app_assoc. reflexivity.
        -- right. right.
           exists (b :: pre), f, post, (r :: rs), s2, e, s3.
           repeat split; trivial. econstructor; eauto.
      * right. left. exists [], b, l, [], s, r, s1.
        rewrite Hr. repeat split; trivial. constructor.
    + right. right. exists [], b, l, [], s, e, s1.
      repeat split; trivial. constructor.
Qed.

Lemma accepted_not_rejected rs :
  Forall (fun r => verdict r = "accepted") rs ->
  Forall (fun x => ~ is_rejected x) rs.
Proof.
  apply Forall_impl. unfold is_rejected. intros r H. rewrite H. discriminate.
Qed.

End GatewayRuns.

(** ** Video verdict and gateway: further theorems *)

(** X7. [_calculateVideoVerdict] returns a verdict for every list of
    results (the lookup of the rejected result cannot fail): the categories
    are the concatenation of the results' categories, the score is the
    score of this concatenation, the verdict is 'rejected' exactly when
    some result is 'rejected' and 'accepted' otherwise, whatever the other
    verdicts are. *)
Theorem video_verdict_is_total (results : list result) :
  exists v,
    _calculateVideoVerdict results = Returned v
    /\ categories v = List.concat (map categories results)
    /\ ai_score v = _calculateAIScore (List.concat (map categories results))
    /\ (verdict v = "rejected" <-> Exists is_rejected results)
    /\ (verdict v = "accepted" <-> ~ Exists is_rejected results).
Proof.
  destruct (video_verdict_returns results)
    as (v & E & [_ Hs] & Hc & Hr & Ha).
  exists v. repeat split; try tauto; try apply Hr; try apply Ha.
  now rewrite Hs, Hc.
Qed.

(** X8. The reason of a rejected video is the reason of the first
    rejected result in the list; when that result has no reason, or the
    empty string, it is the default 'inappropriate content' reason. *)
Theorem video_reason_is_first_rejected (pre post : list result)
  (r : result) :
  Forall (fun x => ~ is_rejected x) pre ->
  is_rejected r ->
  exists v,
    _calculateVideoVerdict (pre ++ r :: post) = Returned v
    /\ verdict v = "rejected"
    /\ (forall t, rejectionReason r = Some t -> text_truthy t = true ->
                  rejectionReason v = Some t)
    /\ (rejectionReason r = None \/ rejectionReason r = Some (Str "") ->
        rejectionReason v = Some DEFAULT_VIDEO_REASON).
Proof.
  intros Hpre Hr.
  destruct (find_first_rejected pre r post Hpre Hr) as [Hfind Hany].
  unfold _calculateVideoVerdict. rewrite Hany, Hfind.
  eexists. split; [reflexivity|]. cbn [verdict rejectionReason].
  split; [reflexivity|]. split.
  - intros t -> Ht. simpl. now rewrite Ht.
  - intros [-> | ->]; reflexivity.
Qed.

Lemma video_reason_is_first_rejected_witness :
  exists v,
    _calculateVideoVerdict
      ([classification configured_service [scored "Sexual" 1]]
       ++ {| verdict := "rejected"; categories := [];
             rejectionReason := None; ai_score := Fin 0 |}
       :: [classification configured_service [scored "Child" 3]])
    = Returned v
    /\ verdict v = "rejected"
    /\ rejectionReason v = Some DEFAULT_VIDEO_REASON.
Proof.
  destruct (video_reason_is_first_rejected
              [classification configured_service [scored "Sexual" 1]]
              [classification configured_service [scored "Child" 3]]
              {| verdict := "rejected"; categories := [];
                 rejectionReason := None; ai_score := Fin 0 |})
    as (v & E & Hv & _ & Hd).
  - repeat constructor. unfold is_rejected. discriminate.
  - reflexivity.
  - exists v. repeat split; trivial. apply Hd. now left.
Defined.

Section GatewayInvariants.

Context {world : Type}.
Variable upstream_step : buffer -> world -> upstream * world.
Variable this : service.

Lemma moderateVideo_of_loop thumbnails s :
  moderateVideo upstream_step this thumbnails s =
  match frames_loop upstream_step this thumbnails [] s with
  | (Returned results, s1) =>
      match _calculateVideoVerdict results with
      | Returned v => (Returned v, s1)
      | Thrown e => (Returned (_fallbackModeration e), s1)
      end
  | (Thrown e, s1) => (Returned (_fallbackModeration e), s1)
  end.
Proof.
  cbv [moderateVideo try_catch bind lift ret].
  destruct (frames_loop upstream_step this thumbnails [] s)
    as [[results | e] s1]; trivial.
  destruct (_calculateVideoVerdict results); reflexivity.
Qed.

(** X9. Whatever the upstream does, [moderateImage] returns a result (no
    error escapes), and the result is well formed: 'accepted' without a
    reason or 'rejected' with a non-empty reason, with a score that is the
    score of its categories. *)
Theorem image_result_is_sound (b : buffer) (s : state world) :
  exists r s',
    moderateImage upstream_step this b s = (Returned r, s')
    /\ sound_result r.
Proof.
  cbv [moderateImage try_catch bind ret].
  destruct (fire upstream_step this b s) as [[r | e] s1] eqn:Hf.
  - destruct (fire_classification _ _ _ _ _ _ Hf) as (categories & ->).
    do 2 eexists. split; [reflexivity | apply classification_sound].
  - do 2 eexists. split; [reflexivity | apply fallback_sound].
Qed.

(** X10. Whatever the upstream does and whatever the frames are,
    [moderateVideo] returns a result (no error escapes), and the result is
    well formed in the same sense. *)
Theorem video_result_is_sound (thumbnails : list buffer) (s : state world) :
  exists v s',
    moderateVideo upstream_step this thumbnails s = (Returned v, s')
    /\ sound_result v.
Proof.
  rewrite moderateVideo_of_loop.
  destruct (frames_loop upstream_step this thumbnails [] s)
    as [[results | e] s1].
  - destruct (video_verdict_returns results) as (v & -> & Hs & _).
    eauto.
  - do 2 eexists. split; [reflexivity | apply fallback_sound].
Qed.

(** X11. A video of one frame is moderated like that frame as an image,
    whatever the upstream does: both calls return, they leave the same
    state, and the two results have the same verdict, the same
    categories, the same score and, when the verdict is 'rejected', the
    same reason.  (An accepted image carries the reason [null]; an
    accepted video carries none.) *)
Theorem single_frame_video_is_image (b : buffer) (s : state world) :
  exists r v s',
    moderateImage upstream_step this b s = (Returned r, s')
    /\ moderateVideo upstream_step this [b] s = (Returned v, s')
    /\ verdict v = verdict r
    /\ categories v = categories r
    /\ ai_score v = ai_score r
    /\ (verdict r = "rejected" -> rejectionReason v = rejectionReason r).
Proof.
  rewrite moderateVideo_of_loop.
  cbv [moderateImage try_catch bind ret frames_loop].
  destruct (fire upstream_step this b s) as [[r | e] s1] eqn:Hf.
  - destruct (fire_classification _ _ _ _ _ _ Hf) as (categories & ->).
    unfold classification, _calculateVideoVerdict.
    destruct (apply_reason this categories)
      as [[Hr (t & Ht & Htruthy)] | [Hr Hn]];
      rewrite Hr; cbn; rewrite ?app_nil_r.
    + rewrite Ht. cbn. rewrite Htruthy.
      do 3 eexists. repeat split; reflexivity.
    + do 3 eexists. repeat split; try reflexivity. discriminate.
  - do 3 eexists. repeat split; reflexivity.
Qed.

(** X12. Fail closed for videos: when the classification of a frame fails
    after accepted frames, no further frame is submitted and the video is
    rejected with the fixed 'service temporarily unavailable' result; the
    categories of the frames already accepted are not reported. *)
Theorem video_fails_closed (pre post : list buffer) (f : buffer)
  (s s1 s2 : state world) (rs : list result) (e : error) :
  accepted_run upstream_step this pre s rs s1 ->
  fire upstream_step this f s1 = (Thrown e, s2) ->
  moderateVideo upstream_step this (pre ++ f :: post) s =
  (Returned
     {| verdict := "rejected";
        rejectionReason := Some FALLBACK_REASON;
        categories := [];
        ai_score := Fin 0 |},
   s2).
Proof.
  intros Hrun Hf. rewrite moderateVideo_of_loop.
  rewrite (frames_loop_accepted _ _ _ _ _ _ Hrun).
  cbn [frames_loop]. unfold bind. rewrite Hf. reflexivity.
Qed.

(** X13. A video is accepted only if every frame was submitted to the
    classifier and accepted: from an 'accepted' verdict follows an
    accepted run over all the thumbnails, ending in the final state, the
    call log being extended by exactly the thumbnails. *)
Theorem accepted_video_has_all_frames_accepted (thumbnails : list buffer)
  (s s' : state world) (v : result) :
  moderateVideo upstream_step this thumbnails s = (Returned v, s') ->
  verdict v = "accepted" ->
  exists rs,
    accepted_run upstream_step this thumbnails s rs s'
    /\ calls s' = calls s ++ thumbnails.
Proof.
  rewrite moderateVideo_of_loop. intros E Hv.
  destruct (frames_loop_cases upstream_step this thumbnails [] s)
    as [(rs & s1 & Hrun & El)
       | [(pre & f & post & rs & s1 & r & s2 & -> & Hrun & Hf & Hr & El)
         | (pre & f & post & rs & s1 & e & s2 & -> & Hrun & Hf & El)]];
    rewrite El in E.
  - destruct (video_verdict_returns ([] ++ rs)) as (v' & Ev & _).
    rewrite Ev in E. injection E as <- <-.
    exists rs. split; trivial.
    now apply (accepted_run_calls _ _ _ _ _ _ Hrun).
  - exfalso.
    destruct (accepted_run_calls _ _ _ _ _ _ Hrun) as [_ Hacc].
    destruct (find_rejected_after_accepted rs r Hacc Hr) as [Hfind Hany].
    cbn [app] in E. unfold _calculateVideoVerdict in E.
    rewrite Hany, Hfind in E. injection E as <- _.
    discriminate.
  - exfalso. injection E as <- _. discriminate.
Qed.

(** X14. Whatever the upstream does, the frames submitted to the
    classifier by [moderateVideo] are an initial segment of the
    thumbnails, in their order: no frame is skipped, repeated or
    reordered, and at most as many calls are made as there are frames. *)
Theorem video_submits_a_prefix (thumbnails : list buffer)
  (s : state world) :
  exists k,
    (k <= List.length thumbnails)%nat
    /\ calls (snd (moderateVideo upstream_step this thumbnails s)) =
       calls s ++ firstn k thumbnails.
Proof.
  destruct (frames_loop_calls_prefix upstream_step this thumbnails [] s)
    as [k Hk].
  exists (Nat.min k (List.length thumbnails)). split; [lia|].
  assert (Hmin : firstn (Nat.min k (List.length thumbnails)) thumbnails =
                 firstn k thumbnails).
  { destruct (Nat.le_gt_cases k (List.length thumbnails)) as [H | H].
    - now rewrite Nat.min_l.
    - rewrite Nat.min_r by lia. rewrite firstn_all.
      symmetry. apply firstn_all2. lia. }
  rewrite Hmin. rewrite moderateVideo_of_loop.
  destruct (frames_loop upstream_step this thumbnails [] s)
    as [[results | e] s1]; [|exact Hk].
  destruct (_calculateVideoVerdict results); exact Hk.
Qed.

End GatewayInvariants.

Lemma video_fails_closed_witness :
  moderateVideo example_upstream configured_service
    [frame Byte.x01; []; frame Byte.x02] fresh =
  (Returned
     {| verdict := "rejected";
        rejectionReason := Some FALLBACK_REASON;
        categories := [];
        ai_score := Fin 0 |},
   {| the_world := 2%nat; calls := [frame Byte.x01] |}).
Proof.
  apply (video_fails_closed example_upstream configured_service
           [frame Byte.x01] [frame Byte.x02] [] fresh
           {| the_world := 1%nat; calls := [frame Byte.x01] |}
           {| the_world := 2%nat; calls := [frame Byte.x01] |}
           [classification configured_service [scored "Sexual" 1]]
           EOPENBREAKER).
  - econstructor; [reflexivity | reflexivity | constructor].
  - reflexivity.
Defined.

Lemma accepted_video_has_all_frames_accepted_witness :
  exists rs,
    accepted_run example_upstream configured_service
      [frame Byte.x02; frame Byte.x00] fresh rs
      {| the_world := 2%nat; calls := [frame Byte.x02; frame Byte.x00] |}
    /\ [frame Byte.x02; frame Byte.x00] =
       [] ++ [frame Byte.x02; frame Byte.x00].
Proof.
  apply (accepted_video_has_all_frames_accepted example_upstream
           configured_service [frame Byte.x02; frame Byte.x00] fresh
           {| the_world := 2%nat;
              calls := [frame Byte.x02; frame Byte.x00] |}
           {| verdict := "accepted";
              categories := [scored "Sexual" 2; scored "Sexual" 0];
              rejectionReason := None;
              ai_score :=
                _calculateAIScore [scored "Sexual" 2; scored "Sexual" 0] |}).
  - reflexivity.
  - reflexivity.
Defined.

(** ** The diagnostic entry point: lemmas and theorems *)

Lemma or_zero_idempotent v : or_zero (or_zero v) = or_zero v.
Proof.
  unfold or_zero. destruct (ToBoolean v) eqn:E; [now rewrite E|reflexivity].
Qed.

Lemma mock_category_idempotent c :
  mock_category (mock_category c) = mock_category c.
Proof. unfold mock_category. simpl. now rewrite or_zero_idempotent. Qed.

(** On a number other than NaN, [|| 0] changes at most the way zero is
    written. *)
Lemma number_or_zero c :
  number_severity c ->
  category (mock_category c) = category c
  /\ (forall t, js_ge (severity (mock_category c)) t = js_ge (severity c) t)
  /\ severity_or_zero (mock_category c) = severity_or_zero c
  /\ num_eq (numeric_severity (mock_category c)) (numeric_severity c).
Proof.
  unfold number_severity, mock_category, severity_or_zero, numeric_severity,
    js_ge. cbn [category severity]. rewrite or_zero_idempotent.
  unfold or_zero.
  destruct (severity c) as [n| | | |]; try contradiction.
  intros Hn. split; [reflexivity|].
  destruct (ToBoolean (VNumber n)) eqn:E.
  - repeat split; reflexivity.
  - assert (Hz : num_eq (Fin 0) n).
    { destruct n as [q| | |]; simpl in *; try discriminate; try contradiction.
      destruct (Qeq_bool q 0) eqn:Eq; [|discriminate].
      apply Qeq_bool_iff in Eq. now symmetry. }
    repeat split; trivial.
    intros t. cbn [ToNumber]. now rewrite Hz.
Qed.

Lemma detect_step_mock s c :
  number_severity c -> detect_step s (mock_category c) = detect_step s c.
Proof.
  intros H. destruct (number_or_zero c H) as (Hc & Hge & Hs & _).
  pose (step := fun (name : string) (ge1 ge3 : bool) (v : num) =>
    let s1 :=
      if name =? "Violence" then
        {| weaponScore := weaponScore s;
           violenceScore := Math_max (violenceScore s) v |}
      else s in
    let s2 :=
      if (name =? "Hate") && ge1 then
        {| weaponScore := Math_max (weaponScore s1) v;
           violenceScore := violenceScore s1 |}
      else s1 in
    let s3 :=
      if (name =? "SelfHarm") && ge1 then
        {| weaponScore := Math_max (weaponScore s2) v;
           violenceScore := violenceScore s2 |}
      else s2 in
    if (name =? "Sexual") && ge3 then
      {| weaponScore := weaponScore s3;
         violenceScore := Math_max (violenceScore s3) (Fin 1) |}
    else s3).
  change (step (category (mock_category c))
            (js_ge (severity (mock_category c)) (Fin 1))
            (js_ge (severity (mock_category c)) (Fin 3))
            (severity_or_zero (mock_category c)) =
          step (category c) (js_ge (severity c) (Fin 1))
            (js_ge (severity c) (Fin 3)) (severity_or_zero c)).
  now rewrite Hc, !Hge, Hs.
Qed.

Lemma fold_detect_mock l : forall s,
  Forall number_severity l ->
  fold_left detect_step (map mock_category l) s = fold_left detect_step l s.
Proof.
  induction l as [|c l IH]; intros s H; trivial.
  inversion H; subst. simpl. rewrite detect_step_mock by assumption. auto.
Qed.

Lemma some_at_least_mock l name t :
  Forall number_severity l ->
  some_at_least (map mock_category l) name t = some_at_least l name t.
Proof.
  unfold some_at_least. induction 1 as [|c l Hc _ IH]; trivial.
  destruct (number_or_zero c Hc) as (Hcat & Hge & _).
  cbn [map existsb]. now rewrite IH, Hcat, Hge.
Qed.

Lemma severity_sum_mock l : forall a b,
  Forall number_severity l -> num_eq a b ->
  num_eq (severity_sum (map mock_category l) a) (severity_sum l b).
Proof.
  unfold severity_sum.
  induction l as [|c l IH]; intros a b H Hab; trivial.
  inversion H; subst. simpl. apply IH; trivial.
  destruct (number_or_zero c) as (_ & _ & _ & Hn); trivial.
  now rewrite Hab, Hn.
Qed.

Lemma calculateAIScore_mock l :
  Forall number_severity l ->
  num_eq (_calculateAIScore (map mock_category l)) (_calculateAIScore l).
Proof.
  intros H. unfold _calculateAIScore. rewrite length_map.
  destruct (List.length l =? 0)%nat; [reflexivity|].
  fold (severity_sum (map mock_category l) (Fin 0)).
  fold (severity_sum l (Fin 0)).
  assert (E : num_eq
                (num_div (severity_sum (map mock_category l) (Fin 0))
                   (num_of_nat (List.length l)))
                (num_div (severity_sum l (Fin 0))
                   (num_of_nat (List.length l)))).
  { apply num_div_proper; trivial.
    apply severity_sum_mock; [assumption | reflexivity]. }
  destruct (num_div (severity_sum (map mock_category l) (Fin 0)) _),
    (num_div (severity_sum l (Fin 0)) _);
    simpl in *; try contradiction; trivial; reflexivity.
Qed.

(** X15. On severities that are numbers other than NaN, the diagnostic
    entry point reports what production computes for the same list: the
    verdict, reason and boosted scores are those of [_callAzureAPI]'s
    result and of [_detectWeaponsAndViolence], and the score is the same
    number. *)
Theorem diagnostic_agrees_with_production (this : service)
  (testCategories : list entry) :
  Forall number_severity testCategories ->
  let report := testModerationRules this testCategories in
  let production := classification this testCategories in
  let s := _detectWeaponsAndViolence this testCategories in
  Report.verdict report = verdict production
  /\ Report.rejectionReason report = rejectionReason production
  /\ Report.weaponScore report = weaponScore s
  /\ Report.violenceScore report = violenceScore s
  /\ num_eq (Report.ai_score report) (ai_score production).
Proof.
  intros H. cbv zeta.
  assert (Hd : _detectWeaponsAndViolence this
                 (map mock_category testCategories) =
               _detectWeaponsAndViolence this testCategories).
  { unfold _detectWeaponsAndViolence. now rewrite fold_detect_mock. }
  assert (Ha : _applyModerationRules this
                 (map mock_category testCategories) =
               _applyModerationRules this testCategories).
  { rewrite !apply_is_baseline. cbv zeta. rewrite Hd.
    unfold baseline_rules. cbn [first_match Rule.condition Rule.reason].
    now rewrite !some_at_least_mock. }
  unfold testModerationRules, classification.
  cbn [Report.verdict Report.rejectionReason Report.weaponScore
       Report.violenceScore Report.ai_score verdict rejectionReason
       ai_score].
  rewrite Ha, Hd. repeat split; trivial.
  now apply calculateAIScore_mock.
Qed.

Lemma diagnostic_agrees_with_production_witness :
  Report.verdict
    (testModerationRules configured_service
       [scored "Sexual" 2; scored "Hate" 0]) = "accepted".
Proof.
  pose proof (diagnostic_agrees_with_production configured_service
                [scored "Sexual" 2; scored "Hate" 0]) as H.
  cbv zeta in H. destruct H as (Hv & _).
  - repeat constructor.
  - rewrite Hv. reflexivity.
Defined.

(** X16. The diagnostic entry point is idempotent on the list it echoes:
    run again on the [testCategories] of its report, it returns the same
    report. *)
Theorem diagnostic_is_idempotent (this : service)
  (testCategories : list entry) :
  testModerationRules this
    (Report.testCategories (testModerationRules this testCategories)) =
  testModerationRules this testCategories.
Proof.
  unfold testModerationRules. cbn [Report.testCategories].
  rewrite map_map.
  rewrite (map_ext _ mock_category mock_category_idempotent).
  reflexivity.
Qed.

(** ** Configuration: lemmas and theorems *)

Lemma truthy_env_value v : js_truthy (env_value v) = is_set v.
Proof. now destruct v. Qed.

Lemma value_at_required env :
  map (fun path => js_truthy (value_at (config env) path)) required =
  map (fun pv => is_set (env (snd pv))) required_variables.
Proof.
  cbv [map required required_variables snd].
  rewrite <- !truthy_env_value. reflexivity.
Qed.

(** X17. [validateConfig] succeeds exactly when the six variables of
    Cloudflare R2 and Azure are set to non-empty strings; otherwise it
    throws an error whose message lists, after 'Configuration manquante: ',
    the paths of the variables that are unset or empty, in the order of the
    [required] array and separated by ', '. *)
Theorem validateConfig_reports_unset_variables (env : environment) :
  validateConfig (config env) =
  match unset_paths env with
  | [] => inr tt
  | missing =>
      inl (String.append "Configuration manquante: "
             (String.concat ", " missing))
  end
  /\ (validateConfig (config env) = inr tt <->
      forall pv, In pv required_variables -> is_set (env (snd pv)) = true).
Proof.
  assert (E : filter (fun path => negb (js_truthy (value_at (config env) path)))
                required = unset_paths env).
  { pose proof (value_at_required env) as H.
    cbv [map required required_variables snd] in H.
    injection H as H1 H2 H3 H4 H5 H6.
    unfold unset_paths.
    cbv [filter required required_variables snd].
    rewrite H1, H2, H3, H4, H5, H6.
    destruct (is_set (env "CLOUDFLARE_R2_ENDPOINT")),
      (is_set (env "CLOUDFLARE_ACCESS_KEY_ID")),
      (is_set (env "CLOUDFLARE_SECRET_ACCESS_KEY")),
      (is_set (env "CLOUDFLARE_BUCKET_NAME")),
      (is_set (env "AZURE_CONTENT_SAFETY_ENDPOINT")),
      (is_set (env "AZURE_CONTENT_SAFETY_KEY")); reflexivity. }
  assert (V : validateConfig (config env) =
              match unset_paths env with
              | [] => inr tt
              | missing =>
                  inl (String.append "Configuration manquante: "
                         (String.concat ", " missing))
              end).
  { unfold validateConfig. rewrite E. now destruct (unset_paths env). }
  split; [exact V|]. rewrite V.
  unfold unset_paths.
  set (p := fun pv : string * string => negb (is_set (env (snd pv)))).
  split.
  - intros H pv Hin.
    destruct (is_set (env (snd pv))) eqn:Hs; trivial. exfalso.
    assert (Hf : In pv (filter p required_variables)).
    { apply filter_In. split; trivial. unfold p. now rewrite Hs. }
    destruct (filter p required_variables); [contradiction | discriminate].
  - intros H.
    assert (Hf : filter p required_variables = []).
    { destruct (filter p required_variables) as [|pv l] eqn:F; trivial.
      assert (Hin : In pv (filter p required_variables))
        by (rewrite F; now left).
      apply filter_In in Hin as [Hin Hp]. unfold p in Hp.
      rewrite (H pv Hin) in Hp. discriminate. }
    now rewrite Hf.
Qed.

Lemma validateConfig_example :
  validateConfig (config azure_only) =
  inl "Configuration manquante: r2.endpoint, r2.accessKeyId, r2.secretAccessKey, r2.bucketName".
Proof. reflexivity. Qed.

(** The thresholds and bonuses of the configuration object are those of
    [config_thresholds] and [config_rules]. *)
Lemma config_moderation_values env :
  value_at (config env) "moderation.thresholds.violence"
  = JNumber (violence config_thresholds)
  /\ value_at (config env) "moderation.thresholds.weapons"
     = JNumber (weapons config_thresholds)
  /\ value_at (config env) "moderation.thresholds.hate"
     = JNumber (hate config_thresholds)
  /\ value_at (config env) "moderation.thresholds.selfHarm"
     = JNumber (selfHarm config_thresholds)
  /\ value_at (config env) "moderation.thresholds.sexual"
     = JNumber (sexual config_thresholds)
  /\ value_at (config env) "moderation.thresholds.child"
     = JNumber (child config_thresholds)
  /\ value_at (config env) "moderation.rules.weaponBonus"
     = JNumber (weaponBonus config_rules)
  /\ value_at (config env) "moderation.rules.violenceBonus"
     = JNumber (violenceBonus config_rules).
Proof. repeat split; reflexivity. Qed.

(** ** Thumbnail timestamps: lemmas and theorems *)







(** X18. [_calculateTimestamps] never returns an empty list: whatever
    the duration, it returns [count] timestamps, and for a [count] of 0
    the single fallback timestamp '5'. *)
Theorem timestamps_count (duration : num) (count : nat) :
  List.length (_calculateTimestamps duration count) = Nat.max 1 count
  /\ _calculateTimestamps duration 0 = [Str "5"].
Proof.
  split.
  - unfold _calculateTimestamps. cbv zeta.
    rewrite length_map, length_seq.
    destruct count; simpl; [reflexivity|].
    rewrite length_map, length_seq. lia.
  - reflexivity.
Qed.





(** ** The file service: validation *)

Section ValidateFile.

Context {world : Type}.
Variable sys : externals world.
Variable cfg : upload_config.

Lemma validateFile_rejects_plain b name e :
  FileService.validateFile sys cfg b name = Rejected e -> plain_Error e.
Proof.
  unfold FileService.validateFile, plain_Error.
  destruct (_ <? _)%Z; [intros [= <-]; eauto |].
  destruct (fromBuffer sys b) as [found |]; [| intros [= <-]; eauto].
  destruct (negb _ && negb _); [intros [= <-]; eauto | discriminate].
Qed.

End ValidateFile.

(** X21. With the asynchronous detector of file-type, [validateFile]
    never returns: what it reads is a Promise, whose [mime] is
    [undefined], so that for every buffer, every name and every upload
    configuration it throws a plain [Error]: 'File too large: ...' when
    the buffer exceeds the maximal size, and 'File type not allowed:
    undefined' otherwise. *)
Theorem validateFile_never_returns {world : Type} (sys : externals world)
  (cfg : upload_config) (b : buffer) (name : string) :
  asynchronous_detector sys ->
  exists m,
    FileService.validateFile sys cfg b name = Rejected (new_Error m)
    /\ ((Z.of_nat (List.length b) <= maxFileSize cfg)%Z ->
        m = [Lit "File type not allowed: "; Lit "undefined"])
    /\ ((maxFileSize cfg < Z.of_nat (List.length b))%Z ->
        exists rest, m = Lit "File too large: " :: rest).
Proof.
  intros Hd. unfold FileService.validateFile. rewrite (Hd b).
  destruct (Z.ltb_spec (maxFileSize cfg) (Z.of_nat (List.length b))).
  - eexists. split; [reflexivity |]. split; [lia | eauto].
  - cbn. eexists. split; [reflexivity |]. split; [reflexivity | lia].
Qed.

Lemma validateFile_never_returns_witness :
  exists m,
    FileService.validateFile example_externals config_upload
      [Byte.x89; Byte.x50] "cat.png" = Rejected (new_Error m)
    /\ m = [Lit "File type not allowed: "; Lit "undefined"].
Proof.
  destruct (validateFile_never_returns example_externals config_upload
              [Byte.x89; Byte.x50] "cat.png") as (m & E & Hm & _).
  - intros b. reflexivity.
  - exists m. split; [exact E |]. apply Hm. vm_compute. discriminate.
Defined.

(** ** The storage service *)

Section StorageFacts.

Context {world : Type}.
Variable sys : externals world.

Lemma map_r2_error_name key error :
  JsError.name (StorageService.map_r2_error key error) <> "NoSuchKey".
Proof.
  unfold StorageService.map_r2_error.
  destruct (JsError.name error =? "NoSuchKey") eqn:Hn;
    [cbn; discriminate |].
  repeat match goal with
         | |- context [if ?c then _ else _] => destruct c
         end; cbn; try discriminate.
  apply String.eqb_neq. exact Hn.
Qed.

(** One [fire]: one request recorded, the classifier not called, and an
    error that is never named 'NoSuchKey'. *)
Lemma storage_fire_run params st :
  exists r st',
    StorageService.fire sys params st = (r, st')
    /\ advances st st' [Storage params (fulfilled r)]
    /\ (forall e, r = Rejected e -> JsError.name e <> "NoSuchKey")
    /\ (forall a, r = Fulfilled a ->
        match params with
        | R2Upload _ key _ => a = Uploaded key
        | R2Download _ => exists body, a = Downloaded body
        | R2Delete _ => a = Deleted
        end).
Proof.
  unfold StorageService.fire.
  destruct (r2 sys params (world_of st)) as [u w].
  do 2 eexists. split; [reflexivity |].
  split; [split; reflexivity |].
  destruct u as [m | m | [body | error]]; cbn.
  - split; [intros e [= <-]; cbn; discriminate | discriminate].
  - split; [intros e [= <-]; cbn; discriminate | discriminate].
  - split; [destruct params; discriminate |].
    destruct params; intros a [= <-]; eauto.
  - split; [| discriminate].
    intros e [= <-]. apply map_r2_error_name.
Qed.

Lemma uploadFile_run b key contentType st :
  exists r st',
    StorageService.uploadFile sys b key contentType st = (r, st')
    /\ advances st st' [Storage (R2Upload b key contentType) (fulfilled r)]
    /\ (forall e, r = Rejected e -> plain_Error e).
Proof.
  unfold StorageService.uploadFile, catch, await, resolve, throw.
  destruct (storage_fire_run (R2Upload b key contentType) st)
    as (r & st' & -> & Hadv & _ & _).
  destruct r as [a | e]; do 2 eexists;
    (split; [reflexivity |]); (split; [exact Hadv |]).
  - discriminate.
  - intros e' [= <-]. red. eauto.
Qed.

Lemma downloadFile_run key st :
  exists r st',
    StorageService.downloadFile sys key st = (r, st')
    /\ advances st st' [Storage (R2Download key) (fulfilled r)]
    /\ match r with
       | Fulfilled a => exists body, a = Downloaded body
       | Rejected e =>
           exists m, e = new_Error (Lit "Download failed: " :: m)
       end.
Proof.
  unfold StorageService.downloadFile, catch, await, resolve, throw.
  destruct (storage_fire_run (R2Download key) st)
    as (r & st' & -> & Hadv & Hname & Hok).
  destruct r as [a | e].
  - do 2 eexists. split; [reflexivity |]. split; [exact Hadv |].
    apply Hok. reflexivity.
  - specialize (Hname e eq_refl). apply String.eqb_neq in Hname.
    rewrite Hname.
    do 2 eexists. split; [reflexivity |]. split; [exact Hadv |]. eauto.
Qed.

Lemma deleteFile_run key st :
  exists a st' done,
    StorageService.deleteFile sys key st = (Fulfilled a, st')
    /\ advances st st' [Storage (R2Delete key) done].
Proof.
  unfold StorageService.deleteFile, catch, await, resolve.
  destruct (storage_fire_run (R2Delete key) st)
    as (r & st' & -> & Hadv & _ & _).
  destruct r as [a | e]; do 3 eexists; (split; [reflexivity | exact Hadv]).
Qed.

Lemma cleanup_loop_run keys : forall results st,
  exists st' flags,
    StorageService.cleanup_loop sys keys results st =
    (Fulfilled
       (results
        ++ map
             (fun key =>
                {| StorageService.cleanup_key := key;
                   StorageService.success := true;
                   StorageService.cleanup_error := None |})
             keys),
     st')
    /\ List.length flags = List.length keys
    /\ advances st st'
         (map (fun p => Storage (R2Delete (fst p)) (snd p))
            (combine keys flags)).
Proof.
  induction keys as [| key rest IH]; intros results st.
  - exists st, []. cbn. rewrite app_nil_r.
    repeat split. symmetry. apply app_nil_r.
  - cbn [StorageService.cleanup_loop].
    unfold await at 1. unfold catch at 1. unfold await at 1.
    destruct (deleteFile_run key st) as (a & st1 & done & -> & Ht1 & Hc1).
    unfold resolve at 1.
    destruct (IH
                (results
                 ++ [ {| StorageService.cleanup_key := key;
                         StorageService.success := true;
                         StorageService.cleanup_error := None |} ]) st1)
      as (st' & flags & -> & Hlen & Ht & Hc).
    exists st', (done :: flags).
    rewrite <- app_assoc. split; [reflexivity |].
    split; [cbn; congruence |].
    split; [| congruence].
    rewrite Ht, Ht1, <- app_assoc. reflexivity.
Qed.

End StorageFacts.

(** X22. [cleanupTempFiles] never rejects and reports 'success: true' for
    every key, in order, whatever happened to the deletions: it requests
    one deletion per key, in order, and a deletion that failed is reported
    as a success too, because [deleteFile] swallows its errors. *)
Theorem cleanupTempFiles_always_reports_success {world : Type}
  (sys : externals world) (keys : list string) (st : cstate world) :
  exists st' flags,
    StorageService.cleanupTempFiles sys keys st =
    (Fulfilled
       (map
          (fun key =>
             {| StorageService.cleanup_key := key;
                StorageService.success := true;
                StorageService.cleanup_error := None |})
          keys),
     st')
    /\ List.length flags = List.length keys
    /\ trace st' =
       trace st
       ++ map (fun p => Storage (R2Delete (fst p)) (snd p))
            (combine keys flags).
Proof.
  unfold StorageService.cleanupTempFiles.
  destruct (cleanup_loop_run sys keys [] st)
    as (st' & flags & H & Hlen & Ht & _).
  exists st', flags. auto.
Qed.

(** X23. [downloadFile] makes one download request and either resolves to
    the bytes read or rejects with a plain [Error] whose message starts
    with 'Download failed: ': its own 'File not found' branch is never
    taken, since no error that leaves the breaker is named 'NoSuchKey'
    (for a missing key the message is 'Download failed: File not found: '
    followed by the key). *)
Theorem downloadFile_failure_is_download_failed {world : Type}
  (sys : externals world) (key : string) (st : cstate world) :
  exists r st',
    StorageService.downloadFile sys key st = (r, st')
    /\ trace st' = trace st ++ [Storage (R2Download key) (fulfilled r)]
    /\ match r with
       | Fulfilled a => exists body, a = Downloaded body
       | Rejected e =>
           exists m, e = new_Error (Lit "Download failed: " :: m)
       end
    /\ (forall w error,
          r2 sys (R2Download key) (world_of st)
          = (R2Completed (S3Failed error), w) ->
          JsError.name error = "NoSuchKey" ->
          r = Rejected
                (new_Error
                   [Lit "Download failed: "; Lit "File not found: ";
                    Lit key])).
Proof.
  destruct (downloadFile_run sys key st) as (r & st' & H & [Ht _] & Hr).
  exists r, st'. repeat split; trivial.
  intros w error Hw Hname.
  revert H.
  unfold StorageService.downloadFile, catch, await, resolve, throw,
    StorageService.fire.
  rewrite Hw. cbn.
  unfold StorageService.map_r2_error. rewrite Hname. cbn.
  intros [= <- _]. reflexivity.
Qed.

(** On the example store, a key that does not exist. *)
Lemma downloadFile_missing_key_example :
  fst (StorageService.downloadFile example_externals "uploads/none.mp4" start)
  = Rejected
      (new_Error
         [Lit "Download failed: "; Lit "File not found: ";
          Lit "uploads/none.mp4"]).
Proof. reflexivity. Qed.

(** ** The file service: what its operations do to a request *)

Lemma advances_refl {world} (st : cstate world) : advances st st [].
Proof. split; [symmetry; apply app_nil_r | reflexivity]. Qed.

Lemma advances_trans {world} (st st1 st2 : cstate world) l1 l2 :
  advances st st1 l1 -> advances st1 st2 l2 -> advances st st2 (l1 ++ l2).
Proof.
  intros [Ht1 Hc1] [Ht2 Hc2]. split; [| congruence].
  rewrite Ht2, Ht1, app_assoc. reflexivity.
Qed.

Lemma advances_with_world {world} (st : cstate world) w :
  advances st (with_world w st) [].
Proof. split; [symmetry; apply app_nil_r | reflexivity]. Qed.

Lemma advances_log {world} (st : cstate world) w ev :
  advances st (log ev (with_world w st)) [ev].
Proof. split; reflexivity. Qed.

Section FileServiceFacts.

Context {world : Type}.
Variable sys : externals world.
Variable cfg : upload_config.

Lemma generateImageThumbnail_run b width st :
  exists r st',
    FileService.generateImageThumbnail sys cfg b width st = (r, st')
    /\ advances st st' []
    /\ (forall e, r = Rejected e -> plain_Error e).
Proof.
  unfold FileService.generateImageThumbnail, catch, throw.
  destruct (sharp sys b _ (world_of st)) as [[a | e] w];
    do 2 eexists; (split; [reflexivity |]);
    (split; [apply advances_with_world |]).
  - discriminate.
  - intros e' [= <-]. red. eauto.
Qed.

Lemma new_uuid_run st :
  exists u st',
    FileService.new_uuid sys st = (Fulfilled u, st') /\ advances st st' [].
Proof.
  unfold FileService.new_uuid.
  destruct (uuidv4 sys (world_of st)) as [u w].
  do 2 eexists. split; [reflexivity | apply advances_with_world].
Qed.

Lemma saveTempFile_run b filename st :
  exists r st',
    FileService.saveTempFile sys cfg b filename st = (r, st')
    /\ advances st st'
         [Temp (WriteFile (path_join sys (tempDir cfg) filename))]
    /\ match r with
       | Fulfilled tempPath =>
           tempPath = path_join sys (tempDir cfg) filename
       | Rejected e =>
           exists m, e = new_Error (Lit "Failed to save temp file: " :: m)
       end.
Proof.
  unfold FileService.saveTempFile, catch, await, resolve, throw,
    FileService.fs_writeFile.
  destruct (writeFile sys _ b (world_of st)) as [[e |] w];
    do 2 eexists; (split; [reflexivity |]);
    (split; [apply advances_log |]); eauto.
Qed.

Lemma deleteTempFile_run filePath st :
  exists st',
    FileService.deleteTempFile sys filePath st = (Fulfilled tt, st')
    /\ advances st st' [Temp (Unlink filePath)].
Proof.
  unfold FileService.deleteTempFile, catch, resolve, FileService.fs_unlink.
  destruct (unlink sys filePath (world_of st)) as [[e |] w];
    eexists; (split; [reflexivity | apply advances_log]).
Qed.

(** The loop over the timestamps: on success one thumbnail per
    timestamp, each extracted, read back and removed at a path of its
    own. *)
Lemma thumbnails_loop_run videoPath timestamps : forall i thumbnails st,
  exists r st' events,
    FileService.thumbnails_loop sys cfg videoPath timestamps i thumbnails st
    = (r, st')
    /\ advances st st' events
    /\ Forall (fun ev => is_thumbnail_event ev = true) events
    /\ forall all,
         r = Fulfilled all ->
         exists new paths,
           all = thumbnails ++ new
           /\ List.length new = List.length timestamps
           /\ List.length paths = List.length timestamps
           /\ events =
              List.concat
                (map (fun p => thumbnail_events videoPath (fst p) (snd p))
                   (combine paths timestamps)).
Proof.
  induction timestamps as [| timestamp rest IH]; intros i thumbnails st.
  - exists (Fulfilled thumbnails), st, []. cbn.
    split; [reflexivity |]. split; [apply advances_refl |].
    split; [constructor |].
    intros all [= <-]. exists [], []. rewrite app_nil_r. auto.
  - cbn [FileService.thumbnails_loop].
    unfold await at 1.
    destruct (new_uuid_run st) as (uuid & st0 & -> & H0).
    set (thumbnailPath := path_join sys (tempDir cfg) _).
    unfold await at 1, FileService._extractVideoFrame at 1.
    destruct (screenshots sys videoPath thumbnailPath timestamp
                (world_of st0)) as [[err |] w1].
    { do 3 eexists. split; [reflexivity |].
      split; [exact (advances_trans _ _ _ _ _ H0 (advances_log _ _ _)) |].
      split; [repeat constructor | discriminate]. }
    unfold await at 1, FileService.fs_readFile at 1.
    set (st1 := log _ (with_world w1 st0)).
    assert (H1 : advances st st1
                   [Temp (Screenshot videoPath thumbnailPath timestamp)])
      by exact (advances_trans _ _ _ _ _ H0 (advances_log _ _ _)).
    clearbody st1.
    destruct (readFile sys thumbnailPath (world_of st1)) as [[buf | err] w2].
    2:{ do 3 eexists. split; [reflexivity |].
        split; [exact (advances_trans _ _ _ _ _ H1 (advances_log _ _ _)) |].
        split; [repeat constructor | discriminate]. }
    unfold await at 1, FileService.fs_unlink at 1.
    set (st2 := log _ (with_world w2 st1)).
    assert (H2 : advances st st2
                   [Temp (Screenshot videoPath thumbnailPath timestamp);
                    Temp (ReadFile thumbnailPath)])
      by exact (advances_trans _ _ _ _ _ H1 (advances_log _ _ _)).
    clearbody st2.
    destruct (unlink sys thumbnailPath (world_of st2)) as [[err |] w3].
    { do 3 eexists. split; [reflexivity |].
      split; [exact (advances_trans _ _ _ _ _ H2 (advances_log _ _ _)) |].
      split; [repeat constructor | discriminate]. }
    set (st3 := log _ (with_world w3 st2)).
    assert (H3 : advances st st3
                   (thumbnail_events videoPath thumbnailPath timestamp))
      by exact (advances_trans _ _ _ _ _ H2 (advances_log _ _ _)).
    clearbody st3.
    destruct (IH (S i) (thumbnails ++ [buf]) st3)
      as (r & st' & events & -> & H4 & Hall & Hok).
    exists r, st', (thumbnail_events videoPath thumbnailPath timestamp
                    ++ events).
    split; [reflexivity |].
    split; [exact (advances_trans _ _ _ _ _ H3 H4) |].
    split; [apply Forall_app; split; [repeat constructor | exact Hall] |].
    intros all Hr. destruct (Hok all Hr) as (new & paths & -> & Hn & Hp & ->).
    exists (buf :: new), (thumbnailPath :: paths).
    rewrite <- app_assoc. cbn. auto.
Qed.

Lemma generateVideoThumbnails_run videoPath count st :
  exists r st' events,
    FileService.generateVideoThumbnails sys cfg videoPath count st = (r, st')
    /\ advances st st' events
    /\ Forall (fun ev => is_thumbnail_event ev = true) events
    /\ match r with
       | Fulfilled thumbnails =>
           exists duration w paths,
             ffprobe sys videoPath (world_of st) = (Fulfilled duration, w)
             /\ List.length thumbnails
                = List.length (_calculateTimestamps duration count)
             /\ List.length paths = List.length thumbnails
             /\ events =
                List.concat
                  (map (fun p => thumbnail_events videoPath (fst p) (snd p))
                     (combine paths (_calculateTimestamps duration count)))
       | Rejected e =>
           exists m,
             e = new_Error (Lit "Failed to generate video thumbnails: " :: m)
       end.
Proof.
  unfold FileService.generateVideoThumbnails, catch.
  unfold await at 1, FileService._getVideoDuration at 1.
  destruct (ffprobe sys videoPath (world_of st)) as [[duration | err] w] eqn:Hp.
  2:{ do 3 eexists. split; [reflexivity |].
      split; [apply advances_with_world |]. split; [constructor | eauto]. }
  destruct (thumbnails_loop_run videoPath
              (_calculateTimestamps duration count) 0 [] (with_world w st))
    as (r & st' & events & -> & H & Hall & Hok).
  assert (H' : advances st st' events)
    by exact (advances_trans _ _ _ _ _ (advances_with_world st w) H).
  destruct r as [thumbnails | e].
  - do 3 eexists. split; [reflexivity |]. split; [exact H' |].
    split; [exact Hall |].
    destruct (Hok thumbnails eq_refl) as (new & paths & -> & Hn & Hl & ->).
    exists duration, w, paths. cbn [app]. rewrite Hn, Hl. auto.
  - do 3 eexists. split; [reflexivity |]. split; [exact H' |].
    split; [exact Hall | eauto].
Qed.

End FileServiceFacts.

(** ** The controller: the course of a request *)

Lemma trace_step {world} (st st1 st2 : cstate world) l1 l2 :
  trace st1 = trace st ++ l1 ->
  advances st1 st2 l2 ->
  trace st2 = trace st ++ l1 ++ l2.
Proof. intros H1 [H2 _]. rewrite H2, H1, app_assoc. reflexivity. Qed.

Lemma verdict_test m :
  well_formed m ->
  (verdict m = "rejected" /\ (verdict m =? "rejected") = true)
  \/ (verdict m = "accepted" /\ (verdict m =? "rejected") = false).
Proof. intros [[H _] | [H _]]; rewrite H; auto. Qed.

Lemma temp_removed_downloads r events :
  Forall (fun ev => is_download ev = true) events -> temp_removed r events.
Proof.
  intros H path Hin. rewrite Forall_forall in H.
  apply H in Hin. discriminate.
Qed.

Lemma downloads_are_preparation events :
  Forall (fun ev => is_download ev = true) events ->
  Forall (fun ev => is_preparation ev = true) events.
Proof.
  apply Forall_impl. intros [| [] |  |]; cbn; trivial; discriminate.
Qed.

Lemma thumbnail_events_are_preparation events :
  Forall (fun ev => is_thumbnail_event ev = true) events ->
  Forall (fun ev => is_preparation ev = true) events.
Proof.
  apply Forall_impl. intros [| |[] |]; cbn; trivial; discriminate.
Qed.

Lemma thumbnail_events_no_write events path :
  Forall (fun ev => is_thumbnail_event ev = true) events ->
  ~ In (Temp (WriteFile path)) events.
Proof.
  intros H Hin. rewrite Forall_forall in H. apply H in Hin. discriminate.
Qed.

Lemma course_refused {world} key (st st' : cstate world) prep e :
  advances st st' prep ->
  Forall (fun ev => is_download ev = true) prep ->
  plain_Error e \/ client_error e ->
  course key st st' (Rejected e).
Proof.
  intros Hadv Hd He.
  apply (course_stopped key st st' prep e Hadv).
  - apply downloads_are_preparation, Hd.
  - apply temp_removed_downloads, Hd.
  - destruct He; auto.
Qed.

Section ControllerFacts.

Context {world : Type}.
Variable sys : externals world.
Variable cfg : upload_config.
Variable this : service.

Lemma azure_moderateImage_run b st :
  exists m st',
    ModerationController.azure_moderateImage sys this b st
    = (Fulfilled m, st')
    /\ trace st' = trace st ++ [Moderated m]
    /\ well_formed m.
Proof.
  unfold ModerationController.azure_moderateImage,
    ModerationController.of_gateway.
  cbv [moderateImage try_catch bind ret].
  destruct (fire (classifier sys) this b (gw st)) as [[r | e] s1] eqn:Hf.
  - destruct (fire_classification _ _ _ _ _ _ Hf) as (categories & ->).
    do 2 eexists. split; [reflexivity |]. split; [reflexivity |].
    apply classification_well_formed.
  - do 2 eexists. split; [reflexivity |]. split; [reflexivity |].
    apply fallback_sound.
Qed.

Lemma azure_moderateVideo_run thumbnails st :
  exists m st',
    ModerationController.azure_moderateVideo sys this thumbnails st
    = (Fulfilled m, st')
    /\ trace st' = trace st ++ [Moderated m]
    /\ well_formed m.
Proof.
  unfold ModerationController.azure_moderateVideo,
    ModerationController.of_gateway.
  rewrite moderateVideo_of_loop.
  destruct (frames_loop (classifier sys) this thumbnails [] (gw st))
    as [[results | e] s1].
  - destruct (video_verdict_returns results) as (v & -> & [Hs _] & _).
    do 2 eexists. split; [reflexivity |]. split; [reflexivity | exact Hs].
  - do 2 eexists. split; [reflexivity |]. split; [reflexivity |].
    apply fallback_sound.
Qed.

Lemma upload_pair_run b1 k1 c1 b2 k2 c2 st :
  exists r st' d1 d2,
    Promise_all2 sys (StorageService.uploadFile sys b1 k1 c1)
      (StorageService.uploadFile sys b2 k2 c2) st = (r, st')
    /\ advances st st'
         [Storage (R2Upload b1 k1 c1) d1; Storage (R2Upload b2 k2 c2) d2]
    /\ match r with
       | Fulfilled _ => d1 = true /\ d2 = true
       | Rejected e => plain_Error e /\ (d1 = false \/ d2 = false)
       end.
Proof.
  unfold Promise_all2.
  destruct (uploadFile_run sys b1 k1 c1 st) as (r1 & st1 & -> & H1 & P1).
  destruct (uploadFile_run sys b2 k2 c2 st1) as (r2 & st2 & -> & H2 & P2).
  pose proof (advances_trans _ _ _ _ _ H1 H2) as H.
  destruct r1 as [a1 | e1], r2 as [a2 | e2]; cbn in H.
  - do 4 eexists. split; [reflexivity |]. split; [exact H | auto].
  - do 4 eexists. split; [reflexivity |]. split; [exact H | eauto].
  - do 4 eexists. split; [reflexivity |]. split; [exact H | eauto].
  - destruct (settles_first sys (world_of st2));
      do 4 eexists; (split; [reflexivity |]); (split; [exact H | eauto]).
Qed.

Lemma upload_thumbnails_run thumbnails : forall thumbKeys st,
  exists r st' ups,
    ModerationController.upload_thumbnails sys thumbnails thumbKeys st
    = (r, st')
    /\ advances st st' ups
    /\ Forall (fun ev => is_upload ev = true) ups
    /\ match r with
       | Fulfilled keys =>
           exists new,
             keys = thumbKeys ++ new
             /\ Forall (stored ups) new
             /\ Forall
                  (fun ev =>
                     exists b k contentType,
                       ev = Storage (R2Upload b k contentType) true)
                  ups
       | Rejected e =>
           plain_Error e
           /\ Exists (fun ev => is_failed_upload ev = true) ups
       end.
Proof.
  induction thumbnails as [| thumbnail rest IH]; intros thumbKeys st.
  - exists (Fulfilled thumbKeys), st, []. cbn.
    split; [reflexivity |]. split; [apply advances_refl |].
    split; [constructor |].
    exists []. rewrite app_nil_r. auto.
  - cbn [ModerationController.upload_thumbnails].
    unfold await at 1.
    destruct (new_uuid_run sys st) as (uuid & st0 & -> & H0).
    set (thumbKey := String.concat "" _).
    unfold await at 1.
    destruct (uploadFile_run sys thumbnail thumbKey (Some "image/jpeg") st0)
      as (r1 & st1 & -> & H1 & P1).
    pose proof (advances_trans _ _ _ _ _ H0 H1) as H01; cbn in H01.
    destruct r1 as [a | e]; cbn in H01.
    + destruct (IH (thumbKeys ++ [thumbKey]) st1)
        as (r & st' & ups & -> & H2 & Hup & Hr).
      pose proof (advances_trans _ _ _ _ _ H01 H2) as H; cbn in H.
      do 3 eexists. split; [reflexivity |]. split; [exact H |].
      split; [constructor; [reflexivity | exact Hup] |].
      destruct r as [keys | e].
      * destruct Hr as (new & -> & Hst & Hok).
        exists (thumbKey :: new). rewrite <- app_assoc.
        split; [reflexivity |]. split.
        -- constructor.
           ++ exists thumbnail, (Some "image/jpeg"). left. reflexivity.
           ++ revert Hst. apply Forall_impl.
              intros k (b & c & Hin). exists b, c. right. exact Hin.
        -- constructor; eauto.
      * destruct Hr as [Hp Hex]. split; [exact Hp |].
        apply Exists_cons_tl. exact Hex.
    + do 3 eexists. split; [reflexivity |]. split; [exact H01 |].
      split; [repeat constructor |].
      split; [apply P1; reflexivity |].
      apply Exists_cons_hd. reflexivity.
Qed.

Lemma moderateImage_course req st r st' :
  ModerationController.moderateImage sys cfg this req st = (r, st') ->
  course (embed (r2Key req)) st st' r.
Proof.
  unfold ModerationController.moderateImage.
  destruct (file req) as [f |].
  2:{ intros [= <- <-].
      apply (course_refused _ _ _ []);
        [apply advances_refl | constructor | right; red; eauto]. }
  destruct (is_set (creatorId req)); cbn [negb].
  2:{ intros [= <- <-].
      apply (course_refused _ _ _ []);
        [apply advances_refl | constructor | right; red; eauto]. }
  unfold await at 1, settle at 1.
  destruct (FileService.validateFile sys cfg (file_buffer f) (originalname f))
    as [info | e] eqn:Hval.
  2:{ intros [= <- <-].
      apply (course_refused _ _ _ []);
        [apply advances_refl | constructor |].
      left. eapply validateFile_rejects_plain; eauto. }
  destruct (isImage info); cbn [negb].
  2:{ intros [= <- <-].
      apply (course_refused _ _ _ []);
        [apply advances_refl | constructor | right; red; eauto]. }
  unfold await at 1.
  destruct (azure_moderateImage_run (file_buffer f) st)
    as (m & st1 & -> & Ht1 & Hwf).
  destruct (verdict_test m Hwf) as [[Hv ->] | [Hv ->]].
  { intros [= <- <-].
    apply (course_rejected _ _ _ [] m [] []); cbn;
      [ rewrite Ht1, <- app_assoc; reflexivity
      | constructor | exact Hv | constructor | constructor
      | intros ? [] ]. }
  unfold await at 1.
  destruct (generateImageThumbnail_run sys cfg (file_buffer f) None st1)
    as (rt & st2 & -> & H2 & P2).
  pose proof (trace_step _ _ _ _ _ Ht1 H2) as Ht2; cbn in Ht2.
  destruct rt as [thumbnailBuffer | e].
  2:{ intros [= <- <-].
      apply (course_failed _ _ _ [] m [] [] e); cbn;
        [ exact Ht2 | constructor | exact Hv | constructor | auto
        | apply P2; reflexivity | constructor | intros ? [] ]. }
  unfold await at 1.
  destruct (new_uuid_run sys st2) as (uuid & st3 & -> & H3).
  pose proof (trace_step _ _ _ _ _ Ht2 H3) as Ht3; cbn in Ht3.
  cbv zeta.
  set (imageKey := String.concat "" _).
  set (thumbKey := String.concat "" _).
  unfold await at 1.
  destruct (upload_pair_run (file_buffer f) imageKey (mimeType info)
              thumbnailBuffer thumbKey (Some "image/jpeg") st3)
    as (rp & st4 & d1 & d2 & -> & H4 & P4).
  pose proof (trace_step _ _ _ _ _ Ht3 H4) as Ht4; cbn in Ht4.
  destruct rp as [pair | e].
  - destruct P4 as [-> ->].
    intros [= <- <-].
    apply (course_accepted _ _ _ [] m
             [Storage (R2Upload (file_buffer f) imageKey (mimeType info)) true;
              Storage (R2Upload thumbnailBuffer thumbKey (Some "image/jpeg"))
                true]
             [] [] (ImageAccepted imageKey thumbKey (ai_score m))); cbn.
    + rewrite Ht4, <- app_assoc. reflexivity.
    + constructor.
    + exact Hv.
    + repeat constructor; eauto.
    + repeat constructor; red; eauto 6 using in_eq, in_cons.
    + constructor.
    + constructor.
    + intros ? [].
  - destruct P4 as [Hp Hd].
    intros [= <- <-].
    apply (course_failed _ _ _ [] m
             [Storage (R2Upload (file_buffer f) imageKey (mimeType info)) d1;
              Storage (R2Upload thumbnailBuffer thumbKey (Some "image/jpeg"))
                d2]
             [] e); cbn.
    + rewrite Ht4. reflexivity.
    + constructor.
    + exact Hv.
    + repeat constructor.
    + right. destruct Hd as [-> | ->];
        [apply Exists_cons_hd | apply Exists_cons_tl, Exists_cons_hd];
        reflexivity.
    + exact Hp.
    + constructor.
    + intros ? [].
Qed.

Lemma moderateImageFromR2_course req st r st' :
  ModerationController.moderateImageFromR2 sys cfg this req st = (r, st') ->
  course (embed (r2Key req)) st st' r.
Proof.
  unfold ModerationController.moderateImageFromR2.
  destruct (negb (is_set (r2Key req)) || negb (is_set (type req))).
  { intros [= <- <-].
    apply (course_refused _ _ _ []);
      [apply advances_refl | constructor | right; red; eauto]. }
  cbv zeta. set (key := embed (r2Key req)).
  unfold await at 1.
  destruct (downloadFile_run sys key st) as (rd & st0 & -> & H0 & P0).
  set (download := Storage (R2Download key) (fulfilled rd)) in *.
  assert (Hdl : Forall (fun ev => is_download ev = true) [download])
    by (repeat constructor).
  destruct rd as [downloaded | e].
  2:{ intros [= <- <-]. destruct P0 as (m & ->).
      apply (course_refused _ _ _ [download]); trivial.
      left. red. eauto. }
  set (imageBuffer := ModerationController.body_of downloaded).
  unfold await at 1, settle at 1.
  destruct (FileService.validateFile sys cfg imageBuffer key)
    as [info | e] eqn:Hval.
  2:{ intros [= <- <-].
      apply (course_refused _ _ _ [download]); trivial.
      left. eapply validateFile_rejects_plain; eauto. }
  destruct (isImage info); cbn [negb].
  2:{ intros [= <- <-].
      apply (course_refused _ _ _ [download]); trivial.
      right; red; eauto. }
  unfold await at 1.
  destruct (azure_moderateImage_run imageBuffer st0)
    as (m & st1 & -> & Ht1' & Hwf).
  assert (Ht1 : trace st1 = trace st ++ [download; Moderated m])
    by (rewrite Ht1', (proj1 H0), <- app_assoc; reflexivity).
  assert (Hprep : Forall (fun ev => is_preparation ev = true) [download])
    by (repeat constructor).
  assert (Hnw : forall path (closing : list event),
             In (Temp (WriteFile path)) [download] -> closing = [])
    by (intros path closing [[=] | []]).
  destruct (verdict_test m Hwf) as [[Hv ->] | [Hv ->]].
  { unfold await at 1.
    destruct (deleteFile_run sys key st1) as (a & st2 & done & -> & H2).
    pose proof (trace_step _ _ _ _ _ Ht1 H2) as Ht2; cbn in Ht2.
    intros [= <- <-].
    apply (course_rejected _ _ _ [download] m
             [Storage (R2Delete key) done] []); cbn; trivial.
    - rewrite Ht2, <- app_assoc. reflexivity.
    - repeat constructor. eauto.
    - intros path [[=] | []]. }
  unfold await at 1.
  destruct (generateImageThumbnail_run sys cfg imageBuffer None st1)
    as (rt & st2 & -> & H2 & P2).
  pose proof (trace_step _ _ _ _ _ Ht1 H2) as Ht2; cbn in Ht2.
  destruct rt as [thumbnailBuffer | e].
  2:{ intros [= <- <-].
      apply (course_failed _ _ _ [download] m [] [] e); cbn; trivial;
        [auto | apply P2; reflexivity | intros path [[=] | []]]. }
  unfold await at 1.
  destruct (new_uuid_run sys st2) as (uuid & st3 & -> & H3).
  pose proof (trace_step _ _ _ _ _ Ht2 H3) as Ht3; cbn in Ht3.
  cbv zeta.
  set (processedImageKey := String.concat "" _).
  set (thumbKey := String.concat "" _).
  unfold await at 1.
  destruct (upload_pair_run imageBuffer processedImageKey (mimeType info)
              thumbnailBuffer thumbKey (Some "image/jpeg") st3)
    as (rp & st4 & d1 & d2 & -> & H4 & P4).
  pose proof (trace_step _ _ _ _ _ Ht3 H4) as Ht4; cbn in Ht4.
  destruct rp as [pair | e].
  - destruct P4 as [-> ->].
    unfold await at 1.
    destruct (deleteFile_run sys key st4) as (a & st5 & done & -> & H5).
    pose proof (trace_step _ _ _ _ _ Ht4 H5) as Ht5; cbn in Ht5.
    intros [= <- <-].
    apply (course_accepted _ _ _ [download] m
             [Storage (R2Upload imageBuffer processedImageKey (mimeType info))
                true;
              Storage (R2Upload thumbnailBuffer thumbKey (Some "image/jpeg"))
                true]
             [Storage (R2Delete key) done] []
             (ImageAccepted processedImageKey thumbKey (ai_score m)));
      cbn; trivial.
    + rewrite Ht5, <- app_assoc. reflexivity.
    + repeat constructor; eauto.
    + repeat constructor; red; eauto 6 using in_eq, in_cons.
    + repeat constructor. eauto.
    + intros path [[=] | []].
  - destruct P4 as [Hp Hd].
    intros [= <- <-].
    apply (course_failed _ _ _ [download] m
             [Storage (R2Upload imageBuffer processedImageKey (mimeType info))
                d1;
              Storage (R2Upload thumbnailBuffer thumbKey (Some "image/jpeg"))
                d2]
             [] e); cbn; trivial.
    + repeat constructor.
    + right. destruct Hd as [-> | ->];
        [apply Exists_cons_hd | apply Exists_cons_tl, Exists_cons_hd];
        reflexivity.
    + intros path [[=] | []].
Qed.

(** The events before the moderation of a video: the download, if any,
    the writing of the temporary copy and the extraction of the
    frames. *)
Lemma video_preparation downloads path temps :
  Forall (fun ev => is_download ev = true) downloads ->
  Forall (fun ev => is_thumbnail_event ev = true) temps ->
  Forall (fun ev => is_preparation ev = true)
    (downloads ++ Temp (WriteFile path) :: temps)
  /\ forall path',
       In (Temp (WriteFile path')) (downloads ++ Temp (WriteFile path) :: temps)
       -> path' = path.
Proof.
  intros Hd Ht. split.
  - apply Forall_app. split; [apply downloads_are_preparation, Hd |].
    constructor; [reflexivity |].
    apply thumbnail_events_are_preparation, Ht.
  - intros path' Hin. apply in_app_or in Hin.
    destruct Hin as [Hin | [[= ->] | Hin]]; trivial.
    + rewrite Forall_forall in Hd. apply Hd in Hin. discriminate.
    + exfalso. eapply thumbnail_events_no_write; eauto.
Qed.

(** A request that ends before moderation, after the temporary copy was
    written and removed. *)
Lemma course_thumbnails_failed key (st st' : cstate world) downloads path
  temps e :
  advances st st'
    (downloads ++ Temp (WriteFile path) :: temps ++ [Temp (Unlink path)]) ->
  Forall (fun ev => is_download ev = true) downloads ->
  Forall (fun ev => is_thumbnail_event ev = true) temps ->
  plain_Error e ->
  course key st st' (Rejected e).
Proof.
  intros Hadv Hd Ht He.
  assert (Ht' : Forall (fun ev => is_thumbnail_event ev = true)
                  (temps ++ [Temp (Unlink path)]))
    by (apply Forall_app; split; [exact Ht | repeat constructor]).
  destruct (video_preparation downloads path _ Hd Ht') as [Hprep Hw].
  apply (course_stopped key st st' _ e Hadv Hprep); [| auto].
  intros path' Hin. apply Hw in Hin. subst path'.
  left. exists (downloads ++ Temp (WriteFile path) :: temps).
  rewrite <- app_assoc. reflexivity.
Qed.

(** A request that ends when the temporary copy cannot be written. *)
Lemma course_save_failed key (st st' : cstate world) downloads path m :
  advances st st' (downloads ++ [Temp (WriteFile path)]) ->
  Forall (fun ev => is_download ev = true) downloads ->
  course key st st'
    (Rejected (new_Error (Lit "Failed to save temp file: " :: m))).
Proof.
  intros Hadv Hd.
  destruct (video_preparation downloads path [] Hd (Forall_nil _))
    as [Hprep Hw].
  apply (course_stopped key st st' _ _ Hadv Hprep);
    [| left; red; eauto].
  intros path' Hin. apply Hw in Hin. subst path'.
  right. exists downloads, m. auto.
Qed.

Lemma moderateVideo_course req st r st' :
  ModerationController.moderateVideo sys cfg this req st = (r, st') ->
  course (embed (r2Key req)) st st' r.
Proof.
  unfold ModerationController.moderateVideo.
  destruct (file req) as [f |].
  2:{ intros [= <- <-].
      apply (course_refused _ _ _ []);
        [apply advances_refl | constructor | right; red; eauto]. }
  destruct (is_set (creatorId req)); cbn [negb].
  2:{ intros [= <- <-].
      apply (course_refused _ _ _ []);
        [apply advances_refl | constructor | right; red; eauto]. }
  unfold await at 1, settle at 1.
  destruct (FileService.validateFile sys cfg (file_buffer f) (originalname f))
    as [info | e] eqn:Hval.
  2:{ intros [= <- <-].
      apply (course_refused _ _ _ []);
        [apply advances_refl | constructor |].
      left. eapply validateFile_rejects_plain; eauto. }
  destruct (isVideo info); cbn [negb].
  2:{ intros [= <- <-].
      apply (course_refused _ _ _ []);
        [apply advances_refl | constructor | right; red; eauto]. }
  unfold await at 1.
  destruct (new_uuid_run sys st) as (uuid0 & st0 & -> & H0).
  unfold await at 1.
  destruct (saveTempFile_run sys cfg (file_buffer f)
              (String.concat "" [uuid0; "-"; originalname f]) st0)
    as (rs & st1 & -> & H1 & P1).
  set (path := path_join sys (tempDir cfg) _) in *.
  pose proof (advances_trans _ _ _ _ _ H0 H1) as H01; cbn in H01.
  destruct rs as [tempVideoPath | e].
  2:{ intros [= <- <-]. destruct P1 as (m & ->).
      apply (course_save_failed _ _ _ [] path m); [exact H01 | constructor]. }
  subst tempVideoPath.
  unfold finally. unfold await at 1.
  destruct (generateVideoThumbnails_run sys cfg path 3 st1)
    as (rt & st2 & temps & -> & H2 & Htemps & P2).
  pose proof (advances_trans _ _ _ _ _ H01 H2) as H02; cbn in H02.
  destruct (video_preparation [] path temps (Forall_nil _) Htemps)
    as [Hprep Hw]; cbn in Hprep, Hw.
  assert (Hclosing : forall path',
             In (Temp (WriteFile path')) (Temp (WriteFile path) :: temps) ->
             [Temp (Unlink path)] = [Temp (Unlink path')])
    by (intros path' Hin; rewrite (Hw path' Hin); reflexivity).
  destruct rt as [thumbnails | e].
  2:{ destruct (deleteTempFile_run sys path st2) as (st3 & -> & H3).
      pose proof (advances_trans _ _ _ _ _ H02 H3) as H03; cbn in H03.
      intros [= <- <-]. destruct P2 as (m & ->).
      apply (course_thumbnails_failed _ _ _ [] path temps _ H03
               (Forall_nil _) Htemps).
      red; eauto. }
  unfold await at 1.
  destruct (azure_moderateVideo_run thumbnails st2)
    as (m & st3 & -> & Ht3' & Hwf).
  assert (Ht3 : trace st3
                = trace st ++ (Temp (WriteFile path) :: temps)
                  ++ [Moderated m])
    by (rewrite Ht3', (proj1 H02), <- app_assoc; reflexivity).
  destruct (verdict_test m Hwf) as [[Hv ->] | [Hv ->]].
  { unfold ModerationController.res_json at 1.
    destruct (deleteTempFile_run sys path
                (log (Sent (ModerationController.rejected_response m)) st3))
      as (st4 & -> & H4).
    intros [= <- <-].
    apply (course_rejected _ _ _ (Temp (WriteFile path) :: temps) m []
             [Temp (Unlink path)]).
    - rewrite (proj1 H4). cbn [log trace]. rewrite Ht3.
      repeat rewrite <- app_assoc. reflexivity.
    - exact Hprep.
    - exact Hv.
    - constructor.
    - repeat constructor.
    - intros path' Hin. apply Hclosing, Hin. }
  unfold await at 1.
  destruct (new_uuid_run sys st3) as (uuid & st4 & -> & H4).
  pose proof (trace_step _ _ _ _ _ Ht3 H4) as Ht4.
  rewrite app_nil_r in Ht4.
  cbv zeta. set (videoKey := String.concat "" _).
  unfold await at 1.
  destruct (uploadFile_run sys (file_buffer f) videoKey (mimeType info) st4)
    as (ru & st5 & -> & H5 & P5).
  pose proof (trace_step _ _ _ _ _ Ht4 H5) as Ht5.
  destruct ru as [uploaded | e].
  - unfold ModerationController.res_json at 1.
    destruct (deleteTempFile_run sys path
                (log (Sent (VideoAccepted videoKey (ai_score m))) st5))
      as (st6 & -> & H6).
    intros [= <- <-].
    apply (course_accepted _ _ _ (Temp (WriteFile path) :: temps) m
             [Storage (R2Upload (file_buffer f) videoKey (mimeType info))
                true]
             [] [Temp (Unlink path)]
             (VideoAccepted videoKey (ai_score m))).
    + rewrite (proj1 H6). cbn [log trace]. rewrite Ht5.
      repeat rewrite <- app_assoc. reflexivity.
    + exact Hprep.
    + exact Hv.
    + repeat constructor; eauto.
    + repeat constructor; red; eauto 6 using in_eq, in_cons.
    + constructor.
    + repeat constructor.
    + intros path' Hin. apply Hclosing, Hin.
  - destruct (deleteTempFile_run sys path st5) as (st6 & -> & H6).
    intros [= <- <-].
    apply (course_failed _ _ _ (Temp (WriteFile path) :: temps) m
             [Storage (R2Upload (file_buffer f) videoKey (mimeType info))
                false]
             [Temp (Unlink path)] e).
    + rewrite (proj1 H6), Ht5.
      repeat rewrite <- app_assoc. reflexivity.
    + exact Hprep.
    + exact Hv.
    + repeat constructor.
    + right. apply Exists_cons_hd. reflexivity.
    + apply P5. reflexivity.
    + repeat constructor.
    + intros path' Hin. apply Hclosing, Hin.
Qed.

Lemma moderateVideoFromR2_course req st r st' :
  ModerationController.moderateVideoFromR2 sys cfg this req st = (r, st') ->
  course (embed (r2Key req)) st st' r.
Proof.
  unfold ModerationController.moderateVideoFromR2.
  destruct (negb (is_set (r2Key req)) || negb (is_set (creatorId req))).
  { intros [= <- <-].
    apply (course_refused _ _ _ []);
      [apply advances_refl | constructor | right; red; eauto]. }
  cbv zeta. set (key := embed (r2Key req)).
  unfold await at 1.
  destruct (downloadFile_run sys key st) as (rd & st0 & -> & H0 & P0).
  set (download := Storage (R2Download key) (fulfilled rd)) in *.
  assert (Hdl : Forall (fun ev => is_download ev = true) [download])
    by (repeat constructor).
  destruct rd as [downloaded | e].
  2:{ intros [= <- <-]. destruct P0 as (m & ->).
      apply (course_refused _ _ _ [download]); trivial.
      left. red. eauto. }
  set (videoBuffer := ModerationController.body_of downloaded).
  unfold await at 1, settle at 1.
  destruct (FileService.validateFile sys cfg videoBuffer key)
    as [info | e] eqn:Hval.
  2:{ intros [= <- <-].
      apply (course_refused _ _ _ [download]); trivial.
      left. eapply validateFile_rejects_plain; eauto. }
  destruct (isVideo info); cbn [negb].
  2:{ intros [= <- <-].
      apply (course_refused _ _ _ [download]); trivial.
      right; red; eauto. }
  unfold await at 1.
  destruct (new_uuid_run sys st0) as (uuid0 & st0' & -> & H0').
  unfold await at 1.
  destruct (saveTempFile_run sys cfg videoBuffer
              (String.concat "" [uuid0; "-video.mp4"]) st0')
    as (rs & st1 & -> & H1 & P1).
  set (path := path_join sys (tempDir cfg) _) in *.
  pose proof (advances_trans _ _ _ _ _
                (advances_trans _ _ _ _ _ H0 H0') H1) as H01;
    cbn in H01.
  destruct rs as [tempVideoPath | e].
  2:{ intros [= <- <-]. destruct P1 as (m & ->).
      apply (course_save_failed _ _ _ [download] path m);
        [exact H01 | exact Hdl]. }
  subst tempVideoPath.
  unfold finally. unfold await at 1.
  destruct (generateVideoThumbnails_run sys cfg path 3 st1)
    as (rt & st2 & temps & -> & H2 & Htemps & P2).
  pose proof (advances_trans _ _ _ _ _ H01 H2) as H02; cbn in H02.
  destruct (video_preparation [download] path temps Hdl Htemps)
    as [Hprep Hw]; cbn in Hprep, Hw.
  assert (Hclosing : forall path',
             In (Temp (WriteFile path'))
               (download :: Temp (WriteFile path) :: temps) ->
             [Temp (Unlink path)] = [Temp (Unlink path')])
    by (intros path' Hin; rewrite (Hw path' Hin); reflexivity).
  destruct rt as [thumbnails | e].
  2:{ destruct (deleteTempFile_run sys path st2) as (st3 & -> & H3).
      pose proof (advances_trans _ _ _ _ _ H02 H3) as H03; cbn in H03.
      intros [= <- <-]. destruct P2 as (m & ->).
      apply (course_thumbnails_failed _ _ _ [download] path temps _ H03
               Hdl Htemps).
      red; eauto. }
  unfold await at 1.
  destruct (azure_moderateVideo_run thumbnails st2)
    as (m & st3 & -> & Ht3' & Hwf).
  assert (Ht3 : trace st3
                = trace st ++ (download :: Temp (WriteFile path) :: temps)
                  ++ [Moderated m])
    by (rewrite Ht3', (proj1 H02), <- app_assoc; reflexivity).
  destruct (verdict_test m Hwf) as [[Hv ->] | [Hv ->]].
  { unfold await at 1.
    destruct (deleteFile_run sys key st3) as (a & st4 & done & -> & H4).
    pose proof (trace_step _ _ _ _ _ Ht3 H4) as Ht4.
    unfold ModerationController.res_json at 1.
    destruct (deleteTempFile_run sys path
                (log (Sent (ModerationController.rejected_response m)) st4))
      as (st5 & -> & H5).
    intros [= <- <-].
    apply (course_rejected _ _ _
             (download :: Temp (WriteFile path) :: temps) m
             [Storage (R2Delete key) done] [Temp (Unlink path)]).
    - rewrite (proj1 H5). cbn [log trace]. rewrite Ht4.
      repeat rewrite <- app_assoc. reflexivity.
    - exact Hprep.
    - exact Hv.
    - repeat constructor. eauto.
    - repeat constructor.
    - intros path' Hin. apply Hclosing, Hin. }
  unfold await at 1.
  destruct (upload_thumbnails_run thumbnails [] st3)
    as (ru & st4 & ups & -> & H4 & Hups & P4).
  pose proof (trace_step _ _ _ _ _ Ht3 H4) as Ht4.
  destruct ru as [thumbKeys | e].
  - destruct P4 as (new & -> & Hstored & Hdone). cbn [app].
    unfold ModerationController.res_json at 1.
    destruct (deleteTempFile_run sys path
                (log (Sent (VideoFromR2Accepted (ai_score m) new)) st4))
      as (st5 & -> & H5).
    intros [= <- <-].
    apply (course_accepted _ _ _
             (download :: Temp (WriteFile path) :: temps) m ups []
             [Temp (Unlink path)]
             (VideoFromR2Accepted (ai_score m) new)).
    + rewrite (proj1 H5). cbn [log trace]. rewrite Ht4.
      repeat rewrite <- app_assoc. reflexivity.
    + exact Hprep.
    + exact Hv.
    + exact Hdone.
    + exact Hstored.
    + constructor.
    + repeat constructor.
    + intros path' Hin. apply Hclosing, Hin.
  - destruct P4 as [Hp Hfailed].
    destruct (deleteTempFile_run sys path st4) as (st5 & -> & H5).
    intros [= <- <-].
    apply (course_failed _ _ _
             (download :: Temp (WriteFile path) :: temps) m ups
             [Temp (Unlink path)] e).
    + rewrite (proj1 H5), Ht4.
      repeat rewrite <- app_assoc. reflexivity.
    + exact Hprep.
    + exact Hv.
    + exact Hups.
    + right. exact Hfailed.
    + exact Hp.
    + repeat constructor.
    + intros path' Hin. apply Hclosing, Hin.
Qed.

(** Each of the four handlers follows the course. *)
Lemma handler_course e req st r st' :
  ModerationController.handler sys cfg this e req st = (r, st') ->
  course (embed (r2Key req)) st st' r.
Proof.
  destruct e; cbn [ModerationController.handler].
  - apply moderateImage_course.
  - apply moderateVideo_course.
  - apply moderateImageFromR2_course.
  - apply moderateVideoFromR2_course.
Qed.

End ControllerFacts.

(** ** The controller: consequences of the course *)

Section CourseFacts.

Context {world : Type}.
Variables (key : string) (st st' : cstate world) (r : settled unit).
Variable added : list event.
Hypothesis Hcourse : course key st st' r.
Hypothesis Hadded : trace st' = trace st ++ added.

Lemma course_client_error e :
  r = Rejected e ->
  JsError.name e <> "Error" ->
  client_error e
  /\ calls (gw st') = calls (gw st)
  /\ Forall (fun ev => is_download ev = true) added.
Proof.
  intros Hr Hname.
  destruct Hcourse
    as [ prep e' [Ht Hc] Hprep _ He
       | prep m dels closing Ht Hprep Hv Hdels Hclosing _
       | prep m ups closing e' Ht Hprep Hv Hups _ He Hclosing _
       | prep m ups dels closing body Ht Hprep Hv Hups _ Hdels Hclosing _ ];
    try discriminate; injection Hr as ->.
  - rewrite Hadded in Ht; apply app_inv_head in Ht; subst added.
    destruct He as [(m & ->) | [He Hd]]; [exfalso; apply Hname; reflexivity |].
    auto.
  - destruct He as (m' & ->). exfalso; apply Hname; reflexivity.
Qed.

Lemma course_error_status e :
  r = Rejected e ->
  (client_error e
   /\ (statusCode (errorHandler e) = 400%Z
       \/ statusCode (errorHandler e) = 415%Z))
  \/ (plain_Error e /\ statusCode (errorHandler e) = 500%Z).
Proof.
  intros Hr.
  assert (He : plain_Error e \/ client_error e).
  { destruct Hcourse
      as [ prep e' _ _ _ He
         | prep m dels closing Ht Hprep Hv Hdels Hclosing _
         | prep m ups closing e' Ht Hprep Hv Hups _ He Hclosing _
         | prep m ups dels closing body Ht Hprep Hv Hups _ Hdels Hclosing _ ];
      try discriminate; injection Hr as ->; [| auto].
    destruct He as [He | [He _]]; auto. }
  destruct He as [Hp | Hc].
  - right. split; [exact Hp |]. destruct Hp as (m & ->).
    unfold errorHandler. cbn.
    destruct (existsb _ m); reflexivity.
  - left. split; [exact Hc |]. destruct Hc as (m & [-> | ->]); cbn; auto.
Qed.

End CourseFacts.

(** ** The controller: theorems *)

Lemma from_start (events : list event) : events = trace start ++ events.
Proof. reflexivity. Qed.

Section AsynchronousDetector.

Context {world : Type}.
Variable sys : externals world.
Variable cfg : upload_config.
Variable this : service.
Hypothesis Hdetector : asynchronous_detector sys.

Lemma validateFile_throws b name :
  exists e,
    FileService.validateFile sys cfg b name = Rejected e /\ plain_Error e.
Proof.
  unfold FileService.validateFile. rewrite (Hdetector b).
  destruct (_ <? _)%Z; cbn; eexists; (split; [reflexivity | red; eauto]).
Qed.

(** A handler that receives a file: the checks of the form, then the
    validation, which throws. *)
Lemma upload_handler_stops e req st :
  e = ModerationController.ModerateImage
  \/ e = ModerationController.ModerateVideo ->
  exists err,
    ModerationController.handler sys cfg this e req st = (Rejected err, st)
    /\ ((exists m, err = ValidationError m) \/ plain_Error err).
Proof.
  intros [-> | ->]; cbn [ModerationController.handler];
    [ unfold ModerationController.moderateImage
    | unfold ModerationController.moderateVideo ];
    (destruct (file req) as [f |];
       [| eexists; split; [reflexivity | left; eauto]]);
    (destruct (is_set (creatorId req)); cbn [negb];
       [| eexists; split; [reflexivity | left; eauto]]);
    unfold await at 1, settle at 1;
    destruct (validateFile_throws (file_buffer f) (originalname f))
      as (e & -> & He);
    eexists; (split; [reflexivity | right; exact He]).
Qed.

(** A handler that reads from the store: the checks of the body, the
    download, then the validation, which throws. *)
Lemma r2_handler_stops e req st :
  e = ModerationController.ModerateImageFromR2
  \/ e = ModerationController.ModerateVideoFromR2 ->
  exists err st',
    ModerationController.handler sys cfg this e req st = (Rejected err, st')
    /\ ((exists m, err = ValidationError m) \/ plain_Error err)
    /\ (advances st st' []
        \/ exists done,
             advances st st'
               [Storage (R2Download (embed (r2Key req))) done]).
Proof.
  intros [-> | ->]; cbn [ModerationController.handler];
    [ unfold ModerationController.moderateImageFromR2;
      destruct (negb (is_set (r2Key req)) || negb (is_set (type req)))
    | unfold ModerationController.moderateVideoFromR2;
      destruct (negb (is_set (r2Key req)) || negb (is_set (creatorId req)))
    ];
    try (do 2 eexists; split; [reflexivity |];
         split; [left; eauto | left; apply advances_refl]);
    cbv zeta; unfold await at 1;
    destruct (downloadFile_run sys (embed (r2Key req)) st)
      as (rd & st0 & -> & H0 & P0);
    (destruct rd as [downloaded | e];
       [| destruct P0 as (m & ->);
          do 2 eexists; split; [reflexivity |];
          split; [right; red; eauto | right; eauto]]);
    unfold await at 1, settle at 1;
    destruct (validateFile_throws
                (ModerationController.body_of downloaded)
                (embed (r2Key req))) as (e & -> & He);
    do 2 eexists; (split; [reflexivity |]);
    (split; [right; exact He | right; eauto]).
Qed.

End AsynchronousDetector.

(** X24. With the asynchronous detector of file-type no request gets as
    far as moderation: each of the four handlers rejects, with a
    [ValidationError] of the controller or with a plain [Error]; the
    classifier is not called; and the request does nothing, except that
    the two handlers that read from the store may have requested the
    download of the original.  In particular nothing is ever uploaded,
    deleted or written, and no verdict is ever sent. *)
Theorem no_request_reaches_moderation {world : Type}
  (sys : externals world) (cfg : upload_config) (this : service)
  (e : ModerationController.endpoint) (req : request)
  (st st' : cstate world) (r : settled unit) (added : list event) :
  asynchronous_detector sys ->
  ModerationController.handler sys cfg this e req st = (r, st') ->
  trace st' = trace st ++ added ->
  (exists err,
      r = Rejected err
      /\ ((exists m, err = ValidationError m) \/ plain_Error err))
  /\ calls (gw st') = calls (gw st)
  /\ (added = []
      \/ exists done,
           added = [Storage (R2Download (embed (r2Key req))) done]).
Proof.
  intros Hd Hrun Hadded.
  assert (He : (e = ModerationController.ModerateImage
                \/ e = ModerationController.ModerateVideo)
               \/ (e = ModerationController.ModerateImageFromR2
                   \/ e = ModerationController.ModerateVideoFromR2))
    by (destruct e; auto).
  destruct He as [He | He].
  - destruct (upload_handler_stops sys cfg this Hd e req st He)
      as (err & E & Herr).
    rewrite E in Hrun. injection Hrun as <- <-.
    split; [eauto |]. split; [reflexivity |]. left.
    rewrite <- (app_nil_r (trace st)) in Hadded at 1.
    apply app_inv_head in Hadded. auto.
  - destruct (r2_handler_stops sys cfg this Hd e req st He)
      as (err & st1 & E & Herr & Hadv).
    rewrite E in Hrun. injection Hrun as <- <-.
    split; [eauto |].
    destruct Hadv as [[Ht Hc] | (done & Ht & Hc)];
      (split; [exact Hc |]);
      rewrite Ht in Hadded; apply app_inv_head in Hadded; subst added;
      eauto.
Qed.

Lemma no_request_reaches_moderation_witness :
  fst
    (example_run ModerationController.ModerateImageFromR2
       (example_r2_request "uploads/cat.png"))
  = Rejected (new_Error [Lit "File type not allowed: "; Lit "undefined"])
  /\ trace
       (snd
          (example_run ModerationController.ModerateImageFromR2
             (example_r2_request "uploads/cat.png")))
     = [Storage (R2Download "uploads/cat.png") true]
  /\ (exists err,
        fst
          (example_run ModerationController.ModerateImageFromR2
             (example_r2_request "uploads/cat.png"))
        = Rejected err
        /\ ((exists m, err = ValidationError m) \/ plain_Error err))
  /\ calls
       (gw
          (snd
             (example_run ModerationController.ModerateImageFromR2
                (example_r2_request "uploads/cat.png"))))
     = calls (gw start).
Proof.
  split; [vm_compute; reflexivity |].
  split; [vm_compute; reflexivity |].
  destruct (no_request_reaches_moderation example_externals config_upload
              configured_service ModerationController.ModerateImageFromR2
              (example_r2_request "uploads/cat.png") start
              (snd
                 (example_run ModerationController.ModerateImageFromR2
                    (example_r2_request "uploads/cat.png")))
              (fst
                 (example_run ModerationController.ModerateImageFromR2
                    (example_r2_request "uploads/cat.png")))
              (trace
                 (snd
                    (example_run ModerationController.ModerateImageFromR2
                       (example_r2_request "uploads/cat.png")))))
    as (Herr & Hcalls & _).
  - intros b. reflexivity.
  - apply surjective_pairing.
  - apply from_start.
  - split; [exact Herr | exact Hcalls].
Defined.

(** X25. With the asynchronous detector of file-type, an upload that
    passes the checks of the form (a file, a creator) and is within the
    maximal size is refused by [moderateImage] and by [moderateVideo]
    with the plain [Error] 'File type not allowed: undefined', whatever
    the file is, and the request leaves no trace; [errorHandler] answers
    this error with status 500 and this message. *)
Theorem complete_upload_is_refused {world : Type}
  (sys : externals world) (cfg : upload_config) (this : service)
  (e : ModerationController.endpoint) (req : request) (f : uploaded_file)
  (st : cstate world) :
  asynchronous_detector sys ->
  e = ModerationController.ModerateImage
  \/ e = ModerationController.ModerateVideo ->
  file req = Some f ->
  is_set (creatorId req) = true ->
  (Z.of_nat (List.length (file_buffer f)) <= maxFileSize cfg)%Z ->
  let err := new_Error [Lit "File type not allowed: "; Lit "undefined"] in
  ModerationController.handler sys cfg this e req st = (Rejected err, st)
  /\ errorHandler err =
     {| statusCode := 500;
        error_message := [Lit "File type not allowed: "; Lit "undefined"];
        details := None |}.
Proof.
  intros Hd He Hfile Hcreator Hsize err.
  split; [| reflexivity].
  destruct (validateFile_never_returns sys cfg (file_buffer f)
              (originalname f) Hd) as (m & E & Hm & _).
  rewrite (Hm Hsize) in E.
  destruct He as [-> | ->]; cbn [ModerationController.handler];
    [ unfold ModerationController.moderateImage
    | unfold ModerationController.moderateVideo ];
    rewrite Hfile, Hcreator; cbn [negb];
    unfold await at 1, settle at 1; rewrite E; reflexivity.
Qed.

Lemma complete_upload_is_refused_witness :
  let err := new_Error [Lit "File type not allowed: "; Lit "undefined"] in
  example_run ModerationController.ModerateVideo
    (example_upload [Byte.x00; Byte.x02] "clip.mp4")
  = (Rejected err, start)
  /\ errorHandler err =
     {| statusCode := 500;
        error_message := [Lit "File type not allowed: "; Lit "undefined"];
        details := None |}.
Proof.
  apply (complete_upload_is_refused example_externals config_upload
           configured_service ModerationController.ModerateVideo
           (example_upload [Byte.x00; Byte.x02] "clip.mp4")
           {| file_buffer := [Byte.x00; Byte.x02];
              originalname := "clip.mp4" |}
           start).
  - intros b. reflexivity.
  - right. reflexivity.
  - reflexivity.
  - reflexivity.
  - vm_compute. discriminate.
Defined.

(** X26. In each of the four handlers, a rejection with an error other
    than a plain [Error] is one of the controller's own client errors
    (a [ValidationError] or an [InvalidFileTypeError]), and it comes
    before any moderation: the classifier was not called, and the only
    thing the request did is, for the two handlers that read from the
    store, the download of the original. *)
Theorem client_errors_precede_moderation {world : Type}
  (sys : externals world) (cfg : upload_config) (this : service)
  (e : ModerationController.endpoint) (req : request)
  (st st' : cstate world) (added : list event) (err : JsError.t) :
  ModerationController.handler sys cfg this e req st = (Rejected err, st') ->
  trace st' = trace st ++ added ->
  JsError.name err <> "Error" ->
  client_error err
  /\ calls (gw st') = calls (gw st)
  /\ Forall (fun ev => is_download ev = true) added.
Proof.
  intros Hrun Hadded.
  exact (course_client_error _ _ _ _ _
           (handler_course sys cfg this e req st _ st' Hrun) Hadded err
           eq_refl).
Qed.

Lemma client_errors_precede_moderation_witness :
  client_error (ValidationError [Lit "No image file provided"])
  /\ calls
       (gw
          (snd
             (example_run ModerationController.ModerateImage empty_upload)))
     = calls (gw start)
  /\ Forall (fun ev => is_download ev = true)
       (trace
          (snd
             (example_run ModerationController.ModerateImage empty_upload))).
Proof.
  apply (client_errors_precede_moderation example_externals config_upload
           configured_service ModerationController.ModerateImage
           empty_upload start
           (snd
              (example_run ModerationController.ModerateImage empty_upload))
           (trace
              (snd
                 (example_run ModerationController.ModerateImage
                    empty_upload))));
    [vm_compute; reflexivity | apply from_start | discriminate].
Defined.

(** X30. The errors with which the four handlers reject are client
    errors, for which [errorHandler] answers 400 or 415, or plain
    [Error]s, for which it answers 500: a file that is too large or of
    an undetermined type, an open breaker and a timeout of the store are
    all answered with 500, never with 413, 503 or 408. *)
Theorem handler_errors_are_400_415_500 {world : Type}
  (sys : externals world) (cfg : upload_config) (this : service)
  (e : ModerationController.endpoint) (req : request)
  (st st' : cstate world) (err : JsError.t) :
  ModerationController.handler sys cfg this e req st = (Rejected err, st') ->
  (client_error err
   /\ (statusCode (errorHandler err) = 400%Z
       \/ statusCode (errorHandler err) = 415%Z))
  \/ (plain_Error err /\ statusCode (errorHandler err) = 500%Z).
Proof.
  intros Hrun.
  exact (course_error_status _ _ _ _
           (handler_course sys cfg this e req st _ st' Hrun) err eq_refl).
Qed.

Lemma handler_errors_are_400_415_500_witness :
  let err := new_Error [Lit "File type not allowed: "; Lit "undefined"] in
  (client_error err
   /\ (statusCode (errorHandler err) = 400%Z
       \/ statusCode (errorHandler err) = 415%Z))
  \/ (plain_Error err /\ statusCode (errorHandler err) = 500%Z).
Proof.
  cbv zeta.
  apply (handler_errors_are_400_415_500 example_externals config_upload
           configured_service ModerationController.ModerateImage
           (example_upload [Byte.x00; Byte.x01] "cat.png") start start
           (new_Error [Lit "File type not allowed: "; Lit "undefined"])).
  vm_compute. reflexivity.
Defined.
